(** * Candidate retrieval and deterministic spec matching

    A shallow embedding of the scoring core of the RFP technical agent:
    [utils/attribute_utils.py] (value normalisation), [utils/match_engine.py]
    (weighted attribute scoring and classification), [utils/vector_db.py]
    (TF-IDF embedder and similarity search) and the tables of [config.py].

    Python [str] values are Rocq strings whose characters are read as the code
    points 0..255.

    The match engine is written once over the operations of [float] that it
    uses and is read on two number systems: IEEE-754 binary64, built on the
    [spec_float] operations of the standard library (what the code computes),
    and exact rationals with infinities and NaN (for bounds that hold for
    every choice of weights).  The embedder, which takes logarithms and square
    roots, is written over the real numbers.

    Beyond the scoring core the development covers the comparison table and
    the deviation notes of the match engine, the extractors and the validator
    of [utils/attribute_utils.py], read on a backtracking matcher for the
    fragment of [re] that their patterns use, and the deterministic part of
    [agents/technical_agent.py]: the processing of one item, the summary
    table and the statistics of a run, with the extracted items, the clock
    and the text of floats and errors as inputs. *)

From Stdlib Require Import ZArith NArith QArith Qabs String Ascii List Bool.
From Stdlib Require Import Lia Lqa Reals Lra Permutation Sorted.
From Stdlib Require Import SpecFloat DecimalString.
Import ListNotations.

(** ** Python string built-ins used by the sources *)

Module PyStr.

Open Scope string_scope.

Definition code (c : ascii) : N := N_of_ascii c.

Definition between (lo hi : N) (c : ascii) : bool :=
  (N.leb lo (code c) && N.leb (code c) hi)%bool.

(** [str.isspace] on code points below 256: TAB..CR, FS..US, SPACE, NEL and
    NBSP.  [str.strip()] and [float()] remove exactly these. *)
Definition is_space (c : ascii) : bool :=
  (between 9 13 c || between 28 32 c
   || N.eqb (code c) 133 || N.eqb (code c) 160)%bool.

(** Upper-case letters of that range: A..Z and the Latin-1 capitals
    0xC0..0xDE without the multiplication sign 0xD7. *)
Definition is_upper (c : ascii) : bool :=
  (between 65 90 c
   || (between 192 222 c && negb (N.eqb (code c) 215)))%bool.

Definition lower_char (c : ascii) : ascii :=
  if is_upper c then ascii_of_N (code c + 32) else c.

(** [s.lower()] *)
Fixpoint lower (s : string) : string :=
  match s with
  | EmptyString => EmptyString
  | String c s' => String (lower_char c) (lower s')
  end.

Fixpoint lstrip (s : string) : string :=
  match s with
  | EmptyString => EmptyString
  | String c s' => if is_space c then lstrip s' else s
  end.

Fixpoint rstrip (s : string) : string :=
  match s with
  | EmptyString => EmptyString
  | String c s' =>
      match rstrip s' with
      | EmptyString => if is_space c then EmptyString else String c EmptyString
      | r => String c r
      end
  end.

(** [s.strip()] *)
Definition strip (s : string) : string := rstrip (lstrip s).

(** [s.replace(old, "")] for a non-empty [old]: the occurrences of [old] are
    removed from left to right, without overlap.  [skip] counts the characters
    of a matched occurrence that are still to be dropped. *)
Fixpoint remove_from (old : string) (skip : nat) (s : string) : string :=
  match s with
  | EmptyString => EmptyString
  | String c s' =>
      match skip with
      | S k => remove_from old k s'
      | O =>
          if prefix old s then remove_from old (pred (String.length old)) s'
          else String c (remove_from old 0 s')
      end
  end.

Definition remove (old s : string) : string := remove_from old 0 s.

(** A string that does not start with white space. *)
Definition starts_clean (s : string) : Prop :=
  match s with
  | EmptyString => True
  | String c _ => is_space c = false
  end.

(** Truth value of a string: [not s] holds for the empty string only. *)
Definition truthy (s : string) : bool := negb (String.eqb s "").

End PyStr.

(** ** [config.py] *)

Module Config.

Open Scope string_scope.

(** [NORMALIZED_VALUES], in the order of the dictionary display.  The key
    ["pvc"] is written twice there, with the same value. *)
Definition NORMALIZED_VALUES : list (string * string) :=
  [ ("aluminum", "al"); ("aluminium", "al"); ("al", "al");
    ("copper", "cu"); ("cu", "cu");
    ("xlpe", "xlpe"); ("cross linked polyethylene", "xlpe");
    ("pvc", "pvc"); ("polyvinyl chloride", "pvc");
    ("epr", "epr"); ("ethylene propylene rubber", "epr");
    ("gi strip", "gi_strip"); ("galvanized iron strip", "gi_strip");
    ("galvanised iron strip", "gi_strip");
    ("gi wire", "gi_wire"); ("galvanized iron wire", "gi_wire");
    ("galvanised iron wire", "gi_wire");
    ("steel wire", "swa"); ("swa", "swa"); ("steel wire armoured", "swa");
    ("steel wire armour", "swa");
    ("unarmoured", "unarmoured"); ("none", "unarmoured");
    ("pvc", "pvc"); ("pe", "pe"); ("polyethylene", "pe");
    ("lszh", "lszh"); ("low smoke zero halogen", "lszh") ].

Definition EMBEDDING_DIMENSION : nat := 384.
Definition TOP_K_CANDIDATES : Z := 5.

End Config.

(** Lookup in a dictionary kept as an association list. *)
Fixpoint dict_get {V : Type} (k : string) (d : list (string * V)) : option V :=
  match d with
  | [] => None
  | (k', v) :: d' => if String.eqb k k' then Some v else dict_get k d'
  end.

(** ** [utils/attribute_utils.py] *)

(** [normalize_value(value, value_type)]; the second argument is not used by
    the source. *)
Definition normalize_value (value : string) : string :=
  if negb (PyStr.truthy value) then EmptyString
  else
    let normalized := PyStr.strip (PyStr.lower value) in
    match dict_get normalized Config.NORMALIZED_VALUES with
    | Some canonical => canonical
    | None => normalized
    end.

(** ** Python numbers *)

(** The text of a float literal, as [float()] reads it: a signed decimal
    [digits * 10 ^ exponent], an infinity or a NaN. *)
Inductive literal : Type :=
  | LNan
  | LInf (neg : bool)
  | LDec (neg : bool) (digits : Z) (exponent : Z).

(** The operations on [float] that the sources use.  [f_lit m e] is the
    literal written [m * 10 ^ e]; [f_round2 x] is [round(x, 2)]. *)
Class PyFloat (F : Type) : Type := {
  f_lit : Z -> Z -> F;
  f_of_literal : literal -> F;
  f_add : F -> F -> F;
  f_sub : F -> F -> F;
  f_mul : F -> F -> F;
  f_abs : F -> F;
  f_eqb : F -> F -> bool;
  f_ltb : F -> F -> bool;
  f_leb : F -> F -> bool;
  f_round2 : F -> F
}.

(** *** The grammar of [float(str)] *)

Module FloatSyntax.

Open Scope Z_scope.

Definition is_digit (c : ascii) : bool := PyStr.between 48 57 c.

Definition digit_value (c : ascii) : Z := Z.of_N (PyStr.code c) - 48.

Definition is_char (n : N) (c : ascii) : bool := N.eqb (PyStr.code c) n.

(** The rest of a [digitpart] after its first digit: digits, each possibly
    preceded by one underscore.  Returns the digits read so far as a number,
    how many were read, and the text that is left. *)
Fixpoint digitpart_tail (acc cnt : Z) (s : string) : Z * Z * string :=
  match s with
  | String c s' =>
      if is_digit c then digitpart_tail (10 * acc + digit_value c) (cnt + 1) s'
      else if is_char 95 c then
        match s' with
        | String d s'' =>
            if is_digit d
            then digitpart_tail (10 * acc + digit_value d) (cnt + 1) s''
            else (acc, cnt, s)
        | EmptyString => (acc, cnt, s)
        end
      else (acc, cnt, s)
  | EmptyString => (acc, cnt, s)
  end.

Definition digitpart (acc : Z) (s : string) : option (Z * Z * string) :=
  match s with
  | String c s' =>
      if is_digit c then Some (digitpart_tail (10 * acc + digit_value c) 1 s')
      else None
  | EmptyString => None
  end.

(** [number ::= [digitpart] "." digitpart | digitpart ["."]]: all digits as
    one integer, the count of those after the point, and the rest. *)
Definition number (s : string) : option (Z * Z * string) :=
  match digitpart 0 s with
  | Some (m, _, r) =>
      match r with
      | String c r' =>
          if is_char 46 c then
            match digitpart m r' with
            | Some res => Some res
            | None => Some (m, 0, r')
            end
          else Some (m, 0, r)
      | EmptyString => Some (m, 0, r)
      end
  | None =>
      match s with
      | String c r' => if is_char 46 c then digitpart 0 r' else None
      | EmptyString => None
      end
  end.

Definition sign (s : string) : bool * string :=
  match s with
  | String c s' =>
      if is_char 45 c then (true, s')
      else if is_char 43 c then (false, s')
      else (false, s)
  | EmptyString => (false, s)
  end.

(** [exponent ::= ("e" | "E") [sign] digitpart], or nothing; the whole text
    must be used up. *)
Definition exponent (s : string) : option Z :=
  match s with
  | EmptyString => Some 0
  | String c s' =>
      if (is_char 101 c || is_char 69 c)%bool then
        let (neg, r) := sign s' in
        match digitpart 0 r with
        | Some (e, _, EmptyString) => Some (if neg then - e else e)
        | _ => None
        end
      else None
  end.

Definition special (neg : bool) (s : string) : option literal :=
  let l := PyStr.lower s in
  if (String.eqb l "inf" || String.eqb l "infinity")%bool then Some (LInf neg)
  else if String.eqb l "nan" then Some LNan
  else None.

(** The literal denoted by a string, or [None] where [float()] raises
    [ValueError]. *)
Definition parse (s : string) : option literal :=
  let (neg, body) := sign (PyStr.strip s) in
  match special neg body with
  | Some l => Some l
  | None =>
      match number body with
      | Some (m, k, r) =>
          match exponent r with
          | Some e => Some (LDec neg m (e - k))
          | None => None
          end
      | None => None
      end
  end.

End FloatSyntax.

(** [float(s)] *)
Definition py_float {F : Type} `{PyFloat F} (s : string) : option F :=
  option_map f_of_literal (FloatSyntax.parse s).

(** The integer nearest to [n / d], ties to the even one ([0 < d]). *)
Definition round_half_even (n d : Z) : Z :=
  let q := (n / d)%Z in
  match Z.compare (2 * (n mod d)) d with
  | Lt => q
  | Gt => (q + 1)%Z
  | Eq => if Z.even q then q else (q + 1)%Z
  end.

(** *** IEEE-754 binary64 *)

Module F64.

Open Scope Z_scope.

Definition prec : Z := 53.
Definition emax : Z := 1024.

Definition t : Type := spec_float.

(** The quotient of two positive integers, rounded to nearest-even. *)
Definition of_ratio (neg : bool) (n d : positive) : t :=
  SFdiv prec emax (S754_finite neg n 0) (S754_finite false d 0).

(** [m * 10 ^ e] rounded to nearest-even, for a positive [m]. *)
Definition scaled (neg : bool) (m : positive) (e : Z) : t :=
  if 0 <=? e then binary_round prec emax neg (m * Z.to_pos (10 ^ e)) 0
  else of_ratio neg m (Z.to_pos (10 ^ (- e))).

Definition of_literal (l : literal) : t :=
  match l with
  | LNan => S754_nan
  | LInf neg => S754_infinity neg
  | LDec neg (Zpos m) e => scaled neg m e
  | LDec neg _ _ => S754_zero neg
  end.

Definition lit (m e : Z) : t := of_literal (LDec (m <? 0) (Z.abs m) e).

(** [round(x, 2)]: the exact value of [x] is rounded to a multiple of 0.01,
    ties to even, and that decimal is read back as a float.  Integers,
    infinities and NaN round to themselves. *)
Definition round2 (x : t) : t :=
  match x with
  | S754_finite s m e =>
      if 0 <=? e then x
      else
        match round_half_even (Zpos m * 100) (2 ^ (- e)) with
        | Zpos n => of_ratio s n 100
        | _ => S754_zero s
        end
  | _ => x
  end.

Definition ops : PyFloat t := {|
  f_lit := lit;
  f_of_literal := of_literal;
  f_add := SFadd prec emax;
  f_sub := SFsub prec emax;
  f_mul := SFmul prec emax;
  f_abs := SFabs;
  f_eqb := SFeqb;
  f_ltb := SFltb;
  f_leb := SFleb;
  f_round2 := round2
|}.

End F64.

#[global] Existing Instance F64.ops | 0.

(** *** Exact arithmetic

    The same numbers without rounding: a rational, an infinity or a NaN,
    with the arithmetic and the comparisons of IEEE-754 on the special
    values.  Bounds that hold for every choice of weights are stated on this
    instance. *)

Module Exact.

Open Scope Q_scope.

Inductive t : Type :=
  | Fin (q : Q)
  | Inf (neg : bool)
  | Nan.

Definition pow10 (e : Z) : Q :=
  if (0 <=? e)%Z then inject_Z (10 ^ e) else 1 # Z.to_pos (10 ^ (- e)).

Definition lit (m e : Z) : t := Fin (inject_Z m * pow10 e).

Definition of_literal (l : literal) : t :=
  match l with
  | LNan => Nan
  | LInf neg => Inf neg
  | LDec neg m e => lit (if neg then (- m)%Z else m) e
  end.

Definition opp (x : t) : t :=
  match x with
  | Fin q => Fin (- q)
  | Inf neg => Inf (negb neg)
  | Nan => Nan
  end.

Definition add (x y : t) : t :=
  match x, y with
  | Fin a, Fin b => Fin (a + b)
  | Nan, _ | _, Nan => Nan
  | Inf s, Inf s' => if Bool.eqb s s' then Inf s else Nan
  | Inf s, Fin _ | Fin _, Inf s => Inf s
  end.

Definition sub (x y : t) : t := add x (opp y).

Definition is_negative (q : Q) : bool := negb (Qle_bool 0 q).

Definition scale_inf (s : bool) (q : Q) : t :=
  if Qeq_bool q 0 then Nan else Inf (xorb s (is_negative q)).

Definition mul (x y : t) : t :=
  match x, y with
  | Fin a, Fin b => Fin (a * b)
  | Nan, _ | _, Nan => Nan
  | Inf s, Inf s' => Inf (xorb s s')
  | Inf s, Fin q | Fin q, Inf s => scale_inf s q
  end.

Definition abs (x : t) : t :=
  match x with
  | Fin q => Fin (Qabs q)
  | Inf _ => Inf false
  | Nan => Nan
  end.

Definition eqb (x y : t) : bool :=
  match x, y with
  | Fin a, Fin b => Qeq_bool a b
  | Inf s, Inf s' => Bool.eqb s s'
  | _, _ => false
  end.

Definition ltb (x y : t) : bool :=
  match x, y with
  | Fin a, Fin b => negb (Qle_bool b a)
  | Nan, _ | _, Nan => false
  | Inf s, Inf s' => (s && negb s')%bool
  | Inf s, Fin _ => s
  | Fin _, Inf s => negb s
  end.

Definition leb (x y : t) : bool :=
  match x, y with
  | Fin a, Fin b => Qle_bool a b
  | Nan, _ | _, Nan => false
  | Inf s, Inf s' => (s || negb s')%bool
  | Inf s, Fin _ => s
  | Fin _, Inf s => negb s
  end.

Definition round2 (x : t) : t :=
  match x with
  | Fin q => Fin (round_half_even (Qnum q * 100) (Zpos (Qden q)) # 100)
  | _ => x
  end.

Definition ops : PyFloat t := {|
  f_lit := lit;
  f_of_literal := of_literal;
  f_add := add;
  f_sub := sub;
  f_mul := mul;
  f_abs := abs;
  f_eqb := eqb;
  f_ltb := ltb;
  f_leb := leb;
  f_round2 := round2
|}.

End Exact.

#[global] Existing Instance Exact.ops | 10.

(** ** [models.py] *)

(** A value held by an attribute record: the text fields are [str], the
    core count is [int]. *)
Inductive pyval : Type :=
  | PStr (s : string)
  | PInt (n : Z).

Definition pyval_eqb (a b : pyval) : bool :=
  match a, b with
  | PStr x, PStr y => String.eqb x y
  | PInt x, PInt y => Z.eqb x y
  | _, _ => false
  end.

Inductive MatchStatus : Type :=
  | EXACT_MATCH
  | CLOSE_MATCH
  | PARTIAL_MATCH
  | NO_MATCH.

Record ExtractedAttributes : Type := {
  voltage : option string;
  conductor_material : option string;
  cross_section : option string;
  core_count : option Z;
  insulation : option string;
  armouring : option string;
  sheathing : option string
}.

Definition field (name : string) (v : option pyval) : list (string * pyval) :=
  match v with
  | Some x => [(name, x)]
  | None => []
  end.

(** [to_normalized_dict]: the fields that are not [None], in the order of
    their declaration. *)
Definition to_normalized_dict (a : ExtractedAttributes)
  : list (string * pyval) :=
  field "voltage" (option_map PStr (voltage a))
  ++ field "conductor_material" (option_map PStr (conductor_material a))
  ++ field "cross_section" (option_map PStr (cross_section a))
  ++ field "core_count" (option_map PInt (core_count a))
  ++ field "insulation" (option_map PStr (insulation a))
  ++ field "armouring" (option_map PStr (armouring a))
  ++ field "sheathing" (option_map PStr (sheathing a)).

(** The record with every field unspecified. *)
Definition no_attributes : ExtractedAttributes :=
  {| voltage := None; conductor_material := None; cross_section := None;
     core_count := None; insulation := None; armouring := None;
     sheathing := None |}.

(** ** [utils/match_engine.py] *)

Inductive EngineError : Type :=
  | ValueError_weights_sum.

Section MatchEngine.

Context {F : Type} `{PyFloat F}.

Definition zero : F := f_lit 0 0.
Definition one : F := f_lit 1 0.

(** [ATTRIBUTE_WEIGHTS] of [config.py], in the order of the dictionary. *)
Definition ATTRIBUTE_WEIGHTS : list (string * F) :=
  [ ("voltage"%string, f_lit 25 (-2));
    ("conductor_material"%string, f_lit 20 (-2));
    ("cross_section"%string, f_lit 15 (-2));
    ("core_count"%string, f_lit 15 (-2));
    ("insulation"%string, f_lit 10 (-2));
    ("armouring"%string, f_lit 10 (-2));
    ("sheathing"%string, f_lit 5 (-2)) ].

(** [MINIMUM_MATCH_THRESHOLD] of [config.py]. *)
Definition MINIMUM_MATCH_THRESHOLD : F := f_lit 60 0.

(** [sum(values)]: the additions run from the left, starting from 0.  (From
    Python 3.12 on, [sum] adds floats with compensation, which can change the
    last bit of a total that is not exact; the totals of the sample weights
    below are exact, and the total of the default weights is within the
    tolerance of [__init__] either way.) *)
Definition py_sum (l : list F) : F := fold_left f_add l zero.

(** The engine holds its weights, a dictionary in insertion order. *)
Record SpecMatchEngine : Type := { weights : list (string * F) }.

(** [SpecMatchEngine.__init__(weights)].  [weights or ATTRIBUTE_WEIGHTS]
    takes the default for [None] and for the empty dictionary. *)
Definition init (custom : option (list (string * F)))
  : SpecMatchEngine + EngineError :=
  let w :=
    match custom with
    | None | Some [] => ATTRIBUTE_WEIGHTS
    | Some w => w
    end in
  let total_weight := py_sum (map snd w) in
  if f_ltb (f_lit 1 (-2)) (f_abs (f_sub total_weight one))
  then inr ValueError_weights_sum
  else inl {| weights := w |}.

(** The numeric part of a voltage: [s.replace('kv', '').replace('v', '')]. *)
Definition voltage_digits (s : string) : string :=
  PyStr.remove "v" (PyStr.remove "kv" s).

(** The numeric part of a cross section: [s.replace('sqmm', '')]. *)
Definition cross_section_digits (s : string) : string :=
  PyStr.remove "sqmm" s.

(** [abs(rfp_num - oem_num) < 0.1] *)
Definition within_tenth (rfp_num oem_num : F) : bool :=
  f_ltb (f_abs (f_sub rfp_num oem_num)) (f_lit 1 (-1)).

(** The common body of [_compare_voltage] and [_compare_cross_section] once
    both numbers are read; [higher] is the credit of a larger product value. *)
Definition compare_numbers (higher : F) (rfp_num oem_num : F) : F :=
  if within_tenth rfp_num oem_num then one
  else if f_ltb rfp_num oem_num then higher
  else zero.

(** [_compare_voltage].  A value that is not a string has no [replace]
    ([AttributeError]) and a text that is no number makes [float] fail
    ([ValueError]); both are caught and give 0.0. *)
Definition _compare_voltage (rfp_voltage oem_voltage : pyval) : F :=
  match rfp_voltage, oem_voltage with
  | PStr r, PStr o =>
      match py_float (voltage_digits r) with
      | None => zero
      | Some rfp_num =>
          match py_float (voltage_digits o) with
          | None => zero
          | Some oem_num => compare_numbers (f_lit 8 (-1)) rfp_num oem_num
          end
      end
  | _, _ => zero
  end.

(** [_compare_cross_section] *)
Definition _compare_cross_section (rfp_cs oem_cs : pyval) : F :=
  match rfp_cs, oem_cs with
  | PStr r, PStr o =>
      match py_float (cross_section_digits r) with
      | None => zero
      | Some rfp_num =>
          match py_float (cross_section_digits o) with
          | None => zero
          | Some oem_num => compare_numbers (f_lit 9 (-1)) rfp_num oem_num
          end
      end
  | _, _ => zero
  end.

Definition normalize_pyval (v : pyval) : pyval :=
  match v with
  | PStr s => PStr (normalize_value s)
  | PInt n => PInt n
  end.

(** [_compare_attribute] *)
Definition _compare_attribute (attr_name : string) (rfp_value oem_value : pyval)
  : F :=
  let rfp_normalized := normalize_pyval rfp_value in
  let oem_normalized := normalize_pyval oem_value in
  if pyval_eqb rfp_normalized oem_normalized then one
  else if String.eqb attr_name "voltage"
  then _compare_voltage rfp_normalized oem_normalized
  else if String.eqb attr_name "cross_section"
  then _compare_cross_section rfp_normalized oem_normalized
  else if String.eqb attr_name "core_count"
  then (if pyval_eqb rfp_normalized oem_normalized then one else zero)
  else zero.

(** The local variables of [calculate_match_score]. *)
Record Tally : Type := {
  score : F;
  matched : list string;
  mismatched : list string;
  missing : list string
}.

Definition tally0 : Tally :=
  {| score := zero; matched := []; mismatched := []; missing := [] |}.

(** One turn of the loop over [self.weights.items()]. *)
Definition score_step (rfp_dict oem_dict : list (string * pyval))
  (t : Tally) (item : string * F) : Tally :=
  let (attr_name, weight) := item in
  match dict_get attr_name rfp_dict with
  | None =>
      {| score := f_add (score t) weight; matched := matched t;
         mismatched := mismatched t; missing := missing t |}
  | Some rfp_value =>
      match dict_get attr_name oem_dict with
      | None =>
          {| score := score t; matched := matched t;
             mismatched := mismatched t;
             missing := missing t ++ [attr_name] |}
      | Some oem_value =>
          let match_result := _compare_attribute attr_name rfp_value oem_value in
          if f_eqb match_result one then
            {| score := f_add (score t) weight;
               matched := matched t ++ [attr_name];
               mismatched := mismatched t; missing := missing t |}
          else if f_ltb zero match_result then
            {| score := f_add (score t) (f_mul weight match_result);
               matched := matched t;
               mismatched := mismatched t ++ [(attr_name ++ " (partial)")%string];
               missing := missing t |}
          else
            {| score := score t; matched := matched t;
               mismatched := mismatched t ++ [attr_name];
               missing := missing t |}
      end
  end.

Definition score_loop (w : list (string * F))
  (rfp_dict oem_dict : list (string * pyval)) (t : Tally) : Tally :=
  fold_left (score_step rfp_dict oem_dict) w t.

(** [final_score = round(score * 100, 2)] *)
Definition percentage (s : F) : F := f_round2 (f_mul s (f_lit 100 0)).

(** [calculate_match_score]: the final score and the three lists. *)
Definition calculate_match_score (e : SpecMatchEngine)
  (rfp_attrs oem_attrs : ExtractedAttributes)
  : F * list string * list string * list string :=
  let t := score_loop (weights e) (to_normalized_dict rfp_attrs)
                      (to_normalized_dict oem_attrs) tally0 in
  (percentage (score t), matched t, mismatched t, missing t).

Definition match_score (e : SpecMatchEngine)
  (rfp_attrs oem_attrs : ExtractedAttributes) : F :=
  fst (fst (fst (calculate_match_score e rfp_attrs oem_attrs))).

(** The status chosen by [match_product] for a score; [threshold] is
    [MINIMUM_MATCH_THRESHOLD]. *)
Definition classify (threshold s : F) : MatchStatus :=
  if f_leb (f_lit 95 0) s then EXACT_MATCH
  else if f_leb (f_lit 80 0) s then CLOSE_MATCH
  else if f_leb threshold s then PARTIAL_MATCH
  else NO_MATCH.

(** The part of [SpecMatchResult] that [match_product] computes from the two
    attribute records (identifier, name and deviation notes are copied or
    formatted from these). *)
Record SpecMatchResult : Type := {
  match_score_of : F;
  match_status : MatchStatus;
  matched_attributes : list string;
  mismatched_attributes : list string;
  missing_attributes : list string
}.

Definition match_product (e : SpecMatchEngine)
  (rfp_attrs oem_attrs : ExtractedAttributes) : SpecMatchResult :=
  let '(s, m, mm, ms) := calculate_match_score e rfp_attrs oem_attrs in
  {| match_score_of := s;
     match_status := classify MINIMUM_MATCH_THRESHOLD s;
     matched_attributes := m;
     mismatched_attributes := mm;
     missing_attributes := ms |}.

End MatchEngine.

(** The few facts about the literals 0.0, 0.8, 0.9 and 1.0 on which the
    branches of [calculate_match_score] depend. *)
Class LiteralFacts (F : Type) `{PyFloat F} : Prop := {
  one_is_one : f_eqb one one = true;
  zero_not_one : f_eqb zero one = false;
  zero_not_positive : f_ltb zero zero = false;
  partial_not_one :
    f_eqb (f_lit 8 (-1)) one = false /\ f_eqb (f_lit 9 (-1)) one = false;
  partial_positive :
    f_ltb zero (f_lit 8 (-1)) = true /\ f_ltb zero (f_lit 9 (-1)) = true
}.

(** The classification as the specification words it: EXACT from 95, CLOSE
    on [80, 95), PARTIAL on [threshold, 80), NONE otherwise. *)
Definition classify_spec {F : Type} `{PyFloat F} (threshold s : F)
  : MatchStatus :=
  if f_leb (f_lit 95 0) s then EXACT_MATCH
  else if (f_leb (f_lit 80 0) s && f_ltb s (f_lit 95 0))%bool then CLOSE_MATCH
  else if (f_leb threshold s && f_ltb s (f_lit 80 0))%bool then PARTIAL_MATCH
  else NO_MATCH.

(** The record [a] with its core count replaced. *)
Definition with_core_count (a : ExtractedAttributes) (n : option Z)
  : ExtractedAttributes :=
  {| voltage := voltage a; conductor_material := conductor_material a;
     cross_section := cross_section a; core_count := n;
     insulation := insulation a; armouring := armouring a;
     sheathing := sheathing a |}.

Definition is_key (k : string) {V : Type} (kv : string * V) : bool :=
  String.eqb (fst kv) k.

Definition not_key (k : string) {V : Type} (kv : string * V) : bool :=
  negb (String.eqb (fst kv) k).

(** The entries of a weight dictionary whose attribute the dictionary [d]
    gives a value. *)
Definition specified_in {V W : Type} (d : list (string * V))
  (kv : string * W) : bool :=
  match dict_get (fst kv) d with
  | Some _ => true
  | None => false
  end.

(** The engine built by [SpecMatchEngine()]. *)
Definition default_engine {F : Type} `{PyFloat F} : SpecMatchEngine :=
  {| weights := ATTRIBUTE_WEIGHTS |}.

(** The test of [__init__] on the sum of the weights:
    [abs(total_weight - 1.0) > 0.01]. *)
Definition out_of_tolerance {F : Type} `{PyFloat F} (total_weight : F) : bool :=
  f_ltb (f_lit 1 (-2)) (f_abs (f_sub total_weight one)).

(** A weight below zero. *)
Definition has_negative {F : Type} `{PyFloat F} (w : list (string * F)) : bool :=
  existsb (fun kv => f_ltb (snd kv) zero) w.

(** ** Sample data *)

Module Sample.

Open Scope string_scope.
Open Scope Z_scope.

(** The fully specified cable of the test suite. *)
Definition cable : ExtractedAttributes :=
  {| voltage := Some "11kv"; conductor_material := Some "al";
     cross_section := Some "300sqmm"; core_count := Some 3;
     insulation := Some "xlpe"; armouring := Some "gi_strip";
     sheathing := Some "pvc" |}.

(** One weight, 0.9921875 = 127/128: inside the tolerance of [__init__]. *)
Definition weights_below_one : list (string * F64.t) :=
  [ ("voltage", F64.lit 9921875 (-7)) ].


(** Weights 1.5 and -0.5, whose sum is 1.0. *)
Definition weights_with_negative : list (string * F64.t) :=
  [ ("voltage", F64.lit 15 (-1)); ("core_count", F64.lit (-5) (-1)) ].

(** Weights 0.5 and 0.4921875, whose sum is 0.9921875. *)
Definition weights_two : list (string * F64.t) :=
  [ ("voltage", F64.lit 5 (-1)); ("core_count", F64.lit 4921875 (-7)) ].

Definition weights_half : list (string * F64.t) :=
  [ ("voltage", F64.lit 5 (-1)) ].

End Sample.

(** ** What one attribute can earn

    Whatever the two records hold, a turn of the scoring loop adds to the
    score the whole weight, eight or nine tenths of it, or nothing. *)






(** ** Exact weights *)





(** ** [utils/vector_db.py]

    The embedder computes with [np.log] and [np.linalg.norm]; its numbers are
    modelled as real numbers, without rounding. *)

Module VectorDb.

Open Scope R_scope.

Inductive error : Type :=
  | ValueError_not_fitted
  | ValueError_no_products
  | ValueError_not_initialized
  | IndexError
  | AttributeError_embeddings
  | Faiss_k_not_positive.

Inductive result (A : Type) : Type :=
  | Ok (a : A)
  | Err (e : error).

Arguments Ok {A} a.
Arguments Err {A} e.

Definition bind {A B : Type} (r : result A) (f : A -> result B) : result B :=
  match r with
  | Ok a => f a
  | Err e => Err e
  end.

(** [OEMProduct] of [models.py] *)
Record OEMProduct : Type := {
  sku_id : string;
  product_name : string;
  datasheet_text : string;
  specs : ExtractedAttributes;
  category : option string
}.

(** *** Tokens *)

(** The class [\w] of [re] on code points below 256: letters, digits and
    numeric characters, and the underscore. *)
Definition is_word_char (c : ascii) : bool :=
  (PyStr.between 48 57 c || PyStr.between 65 90 c || PyStr.between 97 122 c
   || N.eqb (PyStr.code c) 95 || N.eqb (PyStr.code c) 170
   || PyStr.between 178 179 c || N.eqb (PyStr.code c) 181
   || PyStr.between 185 186 c || PyStr.between 188 190 c
   || PyStr.between 192 214 c || PyStr.between 216 246 c
   || PyStr.between 248 255 c)%bool.

(** The class [[a-z0-9]]. *)
Definition is_token_char (c : ascii) : bool :=
  (PyStr.between 48 57 c || PyStr.between 97 122 c)%bool.

Fixpoint all_chars (p : ascii -> bool) (s : string) : bool :=
  match s with
  | EmptyString => true
  | String c s' => (p c && all_chars p s')%bool
  end.

Definition flush (cur : string) : list string :=
  match cur with
  | EmptyString => []
  | _ => [cur]
  end.

(** The maximal runs of word characters of [s]; [cur] is the run being
    read. *)
Fixpoint word_runs (s : string) (cur : string) : list string :=
  match s with
  | EmptyString => flush cur
  | String c s' =>
      if is_word_char c then word_runs s' (cur ++ String c EmptyString)
      else flush cur ++ word_runs s' EmptyString
  end.

(** [_tokenize]: [re.findall(r'\b[a-z0-9]+\b', text.lower())].  A match starts
    and ends at a word boundary, so the matches are the runs of word
    characters that consist of [[a-z0-9]] only. *)
Definition _tokenize (text : string) : list string :=
  filter (all_chars is_token_char) (word_runs (PyStr.lower text) EmptyString).

(** *** Counting dictionaries *)

(** [d[k] = d.get(k, 0) + 1] on a dictionary in insertion order. *)
Fixpoint dict_incr (k : string) (d : list (string * nat)) : list (string * nat) :=
  match d with
  | [] => [(k, 1%nat)]
  | (k', n) :: d' =>
      if String.eqb k k' then (k', S n) :: d' else (k', n) :: dict_incr k d'
  end.

Definition count_all (words : list string) (d : list (string * nat))
  : list (string * nat) :=
  fold_left (fun d w => dict_incr w d) words d.

(** The distinct elements in the order of their first occurrence. *)
Fixpoint first_occurrences (l : list string) : list string :=
  match l with
  | [] => []
  | w :: l' =>
      w :: filter (fun w' => negb (String.eqb w' w)) (first_occurrences l')
  end.

(** [sorted(items, key=lambda x: x[1], reverse=True)]: stable, by decreasing
    count. *)
Fixpoint insert_desc (x : string * nat) (l : list (string * nat))
  : list (string * nat) :=
  match l with
  | [] => [x]
  | y :: l' =>
      if (snd x <? snd y)%nat then y :: insert_desc x l' else x :: y :: l'
  end.

Definition sorted_desc (l : list (string * nat)) : list (string * nat) :=
  fold_right insert_desc [] l.

(** *** Vectors *)

Definition zeros (n : nat) : list R := repeat 0 n.

(** [vector[idx] = x]; an index out of range raises [IndexError]. *)
Fixpoint write (v : list R) (idx : nat) (x : R) : option (list R) :=
  match v, idx with
  | [], _ => None
  | _ :: v', O => Some (x :: v')
  | y :: v', S i => option_map (cons y) (write v' i x)
  end.

Definition sum_squares (v : list R) : R :=
  fold_right (fun x acc => x * x + acc) 0 v.

(** [np.linalg.norm] *)
Definition norm (v : list R) : R := sqrt (sum_squares v).

(** [np.dot] of two vectors. *)
Fixpoint dot (u v : list R) : R :=
  match u, v with
  | x :: u', y :: v' => x * y + dot u' v'
  | _, _ => 0
  end.

(** The squared Euclidean distance. *)
Fixpoint dist2 (u v : list R) : R :=
  match u, v with
  | x :: u', y :: v' => (x - y) * (x - y) + dist2 u' v'
  | _, _ => 0
  end.

(** *** [SimpleEmbedder] *)

Record SimpleEmbedder : Type := {
  dimension : nat;
  vocabulary : list (string * nat);
  idf : list (string * R);
  fitted : bool
}.

Definition new_embedder (dimension : nat) : SimpleEmbedder :=
  {| dimension := dimension; vocabulary := []; idf := []; fitted := false |}.

Section Fit.

(** The order in which CPython iterates over [set(words)]: it depends on the
    hashes of the words.  Any function is allowed here; the actual one gives
    a permutation of the distinct words. *)
Variable set_iter : list string -> list string.

Definition doc_freq (texts : list string) : list (string * nat) :=
  fold_left (fun df text => count_all (set_iter (_tokenize text)) df) texts [].

Definition top_words (dimension : nat) (texts : list string)
  : list (string * nat) :=
  firstn dimension (sorted_desc (doc_freq texts)).

(** [fit] *)
Definition fit (e : SimpleEmbedder) (texts : list string) : SimpleEmbedder :=
  let top := top_words (dimension e) texts in
  let n_docs := length texts in
  {| dimension := dimension e;
     vocabulary := combine (map fst top) (seq 0 (length top));
     idf := map (fun wd => (fst wd, ln (INR n_docs / INR (snd wd + 1))))
                (doc_freq texts);
     fitted := true |}.

End Fit.

(** [max(tf.values()) if tf else 1] *)
Definition max_tf (tf : list (string * nat)) : nat :=
  match tf with
  | [] => 1%nat
  | _ => fold_right (fun wc m => Nat.max (snd wc) m) 0%nat tf
  end.

Definition idf_get (e : SimpleEmbedder) (word : string) : R :=
  match dict_get word (idf e) with
  | Some x => x
  | None => 0
  end.

(** The weight [tf * idf] of a word that occurs [count] times. *)
Definition weight_of (e : SimpleEmbedder) (m : nat) (word : string)
  (count : nat) : R :=
  INR count / INR m * idf_get e word.

(** One turn of the loop that fills the vector. *)
Definition fill_step (e : SimpleEmbedder) (m : nat) (v : result (list R))
  (wc : string * nat) : result (list R) :=
  bind v (fun v =>
    match dict_get (fst wc) (vocabulary e) with
    | Some idx =>
        match write v idx (weight_of e m (fst wc) (snd wc)) with
        | Some v' => Ok v'
        | None => Err IndexError
        end
    | None => Ok v
    end).

(** The vector before normalisation. *)
Definition raw_vector (e : SimpleEmbedder) (text : string) : result (list R) :=
  let tf := count_all (_tokenize text) [] in
  fold_left (fill_step e (max_tf tf)) tf (Ok (zeros (dimension e))).

(** [if norm > 0: vector = vector / norm] *)
Definition normalize (v : list R) : list R :=
  if Rlt_dec 0 (norm v) then map (fun x => x / norm v) v else v.

(** [embed] *)
Definition embed (e : SimpleEmbedder) (text : string) : result (list R) :=
  if negb (fitted e) then Err ValueError_not_fitted
  else bind (raw_vector e text) (fun v => Ok (normalize v)).

(** [embed_batch] *)
Fixpoint embed_batch (e : SimpleEmbedder) (texts : list string)
  : result (list (list R)) :=
  match texts with
  | [] => Ok []
  | text :: texts' =>
      bind (embed e text) (fun v =>
      bind (embed_batch e texts') (fun vs => Ok (v :: vs)))
  end.

(** The indices of the vocabulary are positions of the vector, and no two
    words share one. *)
Definition well_indexed (e : SimpleEmbedder) : Prop :=
  (forall w i, dict_get w (vocabulary e) = Some i -> (i < dimension e)%nat)
  /\ (forall w w' i,
        dict_get w (vocabulary e) = Some i ->
        dict_get w' (vocabulary e) = Some i -> w = w').

(** *** [VectorDatabase] *)

(** [index] holds the vectors added to the FAISS index, [embeddings] the
    array kept when FAISS is not installed. *)
Record VectorDatabase : Type := {
  embedder : SimpleEmbedder;
  index : option (list (list R));
  embeddings : option (list (list R));
  products : list OEMProduct;
  is_initialized : bool
}.

(** [VectorDatabase()] *)
Definition new_database : VectorDatabase :=
  {| embedder := new_embedder Config.EMBEDDING_DIMENSION;
     index := None; embeddings := None; products := [];
     is_initialized := false |}.

(** [initialize_from_products]; [faiss] tells whether the FAISS module was
    imported. *)
Definition initialize_from_products (set_iter : list string -> list string)
  (faiss : bool) (db : VectorDatabase) (items : list OEMProduct)
  : result VectorDatabase :=
  match items with
  | [] => Err ValueError_no_products
  | _ =>
      let texts := map datasheet_text items in
      let e := fit set_iter (embedder db) texts in
      bind (embed_batch e texts) (fun embs =>
        Ok {| embedder := e;
              index := if faiss then Some embs else index db;
              embeddings := if faiss then embeddings db else Some embs;
              products := items;
              is_initialized := true |})
  end.

(** [[products[idx] for idx in indices]] *)
Fixpoint lookup_all (items : list OEMProduct) (indices : list nat)
  : option (list OEMProduct) :=
  match indices with
  | [] => Some []
  | i :: rest =>
      match nth_error items i, lookup_all items rest with
      | Some p, Some ps => Some (p :: ps)
      | _, _ => None
      end
  end.

Definition collect (items : list OEMProduct) (indices : list nat)
  : result (list OEMProduct) :=
  match lookup_all items indices with
  | Some ps => Ok ps
  | None => Err IndexError
  end.

(** The slice [l[:k]]. *)
Definition py_slice_to {A : Type} (k : Z) (l : list A) : list A :=
  if (0 <=? k)%Z then firstn (Z.to_nat k) l
  else firstn (length l - Z.to_nat (- k)) l.

(** [i] comes no later than [j] when positions are ranked by [key]. *)
Definition key_le (key : nat -> R) (i j : nat) : Prop := key i <= key j.

(** What [np.argsort(values)] may return: the positions of [values],
    arranged so that the values ascend.  The order among equal values is
    left open (the default sort of NumPy is not stable). *)
Definition argsort (values : list R) (perm : list nat) : Prop :=
  Permutation perm (seq 0 (length values))
  /\ StronglySorted (key_le (fun i => nth i values 0)) perm.

(** What [IndexFlatL2.search(q, k)] may return for [k] at most the number of
    stored vectors: the labels of [k] stored vectors that are nearest to [q]
    in squared Euclidean distance, nearest first.  The order among equal
    distances is left open. *)
Definition faiss_search (stored : list (list R)) (q : list R) (k : nat)
  (labels : list nat) : Prop :=
  let d := fun i => dist2 q (nth i stored []) in
  length labels = k
  /\ NoDup labels
  /\ Forall (fun i => (i < length stored)%nat) labels
  /\ StronglySorted (key_le d) labels
  /\ (forall i j, In i labels -> (j < length stored)%nat -> ~ In j labels ->
      key_le d i j).

(** [similarity_search]: the outcomes that the two library calls allow. *)
Definition similarity_search (faiss : bool) (db : VectorDatabase)
  (query_text : string) (k : Z) (out : result (list OEMProduct)) : Prop :=
  if negb (is_initialized db) then out = Err ValueError_not_initialized
  else
    match embed (embedder db) query_text with
    | Err e => out = Err e
    | Ok query_embedding =>
        match (if faiss then index db else None) with
        | Some stored =>
            let n := length (products db) in
            let k' := Z.min k (Z.of_nat n) in
            if (k' <=? 0)%Z then out = Err Faiss_k_not_positive
            else
              exists labels,
                faiss_search stored query_embedding (Z.to_nat k') labels
                /\ out = collect (products db)
                           (filter (fun idx => (idx <? n)%nat) labels)
        | None =>
            match embeddings db with
            | None => out = Err AttributeError_embeddings
            | Some embs =>
                exists perm,
                  argsort (map (fun e => dot e query_embedding) embs) perm
                  /\ out = collect (products db) (py_slice_to k (rev perm))
            end
        end
    end.

(** *** Ranking *)

(** [indices] are distinct positions below [n], in ascending order of [key],
    and no position left out has a smaller key than one that was taken. *)
Definition ranked (key : nat -> R) (n : nat) (indices : list nat) : Prop :=
  NoDup indices
  /\ Forall (fun i => (i < n)%nat) indices
  /\ StronglySorted (key_le key) indices
  /\ (forall i j, In i indices -> (j < n)%nat -> ~ In j indices ->
      key_le key i j).

(** The key by which [similarity_search] ranks the positions of the catalog:
    the squared distance to the query with FAISS, the negated dot product
    without. *)
Definition ranking_key (faiss : bool) (q : list R) (embs : list (list R))
  (i : nat) : R :=
  if faiss then dist2 q (nth i embs []) else - dot (nth i embs []) q.

(** Sorting positions by a key, for the existence of an outcome. *)
Fixpoint insert_by (key : nat -> R) (i : nat) (l : list nat) : list nat :=
  match l with
  | [] => [i]
  | j :: l' =>
      if Rle_dec (key i) (key j) then i :: j :: l' else j :: insert_by key i l'
  end.

Definition sort_by (key : nat -> R) (l : list nat) : list nat :=
  fold_right (insert_by key) [] l.

(** *** Sample catalog *)

(** A product that only carries a datasheet text. *)
Definition text_item (sku text : string) : OEMProduct :=
  {| sku_id := sku; product_name := sku; datasheet_text := text;
     specs := no_attributes; category := None |}.

(** Three products: one with an empty datasheet, two with a one-word
    datasheet. *)
Definition three_items : list OEMProduct :=
  [ text_item "A" ""; text_item "B" "copper"; text_item "C" "xlpe" ].


(** The idf of a word that occurs in one of three documents. *)
Definition idf_one_of_three : R := ln (INR 3 / INR (1 + 1)).

End VectorDb.

(** ** What the scoring loop decides for one attribute *)

Inductive verdict : Type :=
  | Unspecified
  | Missing
  | Matched
  | Partial
  | Mismatched.

Definition verdict_eqb (a b : verdict) : bool :=
  match a, b with
  | Unspecified, Unspecified | Missing, Missing | Matched, Matched
  | Partial, Partial | Mismatched, Mismatched => true
  | _, _ => false
  end.

(** The branch of [calculate_match_score] taken for the attribute [attr]. *)
Definition verdict_of {F : Type} `{PyFloat F}
  (rfp_dict oem_dict : list (string * pyval)) (attr : string) : verdict :=
  match dict_get attr rfp_dict with
  | None => Unspecified
  | Some rfp_value =>
      match dict_get attr oem_dict with
      | None => Missing
      | Some oem_value =>
          let match_result := _compare_attribute attr rfp_value oem_value in
          if f_eqb match_result one then Matched
          else if f_ltb zero match_result then Partial
          else Mismatched
      end
  end.

Definition has_verdict {F : Type} `{PyFloat F}
  (rfp_dict oem_dict : list (string * pyval)) (v : verdict)
  (kv : string * F) : bool :=
  verdict_eqb (verdict_of rfp_dict oem_dict (fst kv)) v.

(** The entry made in the mismatched list. *)
Definition mismatch_label {F : Type} `{PyFloat F}
  (rfp_dict oem_dict : list (string * pyval)) (kv : string * F) : string :=
  match verdict_of rfp_dict oem_dict (fst kv) with
  | Partial => (fst kv ++ " (partial)")%string
  | _ => fst kv
  end.

Definition is_mismatch {F : Type} `{PyFloat F}
  (rfp_dict oem_dict : list (string * pyval)) (kv : string * F) : bool :=
  (has_verdict rfp_dict oem_dict Partial kv
   || has_verdict rfp_dict oem_dict Mismatched kv)%bool.

(** The rank of a status, from NO_MATCH up to EXACT_MATCH. *)
Definition status_rank (s : MatchStatus) : nat :=
  match s with
  | NO_MATCH => 0
  | PARTIAL_MATCH => 1
  | CLOSE_MATCH => 2
  | EXACT_MATCH => 3
  end.

(** ** Values as text *)

(** [str(v)]: a string is itself, an integer is written in decimal. *)
Definition py_str (v : pyval) : string :=
  match v with
  | PStr s => s
  | PInt n => NilZero.string_of_int (Z.to_int n)
  end.

(** Truth value: the empty string and the integer 0 are false. *)
Definition pyval_truthy (v : pyval) : bool :=
  match v with
  | PStr s => PyStr.truthy s
  | PInt n => negb (Z.eqb n 0)
  end.

(** [sep.join(l)] *)
Fixpoint py_join (sep : string) (l : list string) : string :=
  match l with
  | [] => EmptyString
  | [x] => x
  | x :: l' => (x ++ sep ++ py_join sep l')%string
  end.

(** A string without the space character. *)
Definition no_space (s : string) : bool :=
  VectorDb.all_chars (fun c => negb (Ascii.eqb c " ")) s.

(** ** The other records of [models.py] *)

Module Models.

Record RFPItem : Type := {
  item_id : Z;
  rfp_spec_raw : string;
  quantity : option string;
  unit : option string;
  extracted_attributes : ExtractedAttributes
}.

Section WithFloat.

Context {F : Type}.

(** [SpecMatchResult] with all its fields. *)
Record SpecMatchResult : Type := {
  sku_id : string;
  product_name : string;
  match_score : F;
  match_status : MatchStatus;
  matched_attributes : list string;
  mismatched_attributes : list string;
  missing_attributes : list string;
  deviation_notes : list string
}.

End WithFloat.

Record ComparisonRow : Type := {
  attribute_name : string;
  rfp_requirement : option string;
  sku_1_value : option string;
  sku_1_match : bool;
  sku_2_value : option string;
  sku_2_match : bool;
  sku_3_value : option string;
  sku_3_match : bool
}.

(** [MatchStatus.value] *)
Definition status_value (s : MatchStatus) : string :=
  match s with
  | EXACT_MATCH => "exact_match"
  | CLOSE_MATCH => "close_match"
  | PARTIAL_MATCH => "partial_match"
  | NO_MATCH => "no_match"
  end.

End Models.

(** ** The rest of [utils/match_engine.py] *)

Module Engine.

Section WithFloat.

Context {F : Type} `{PyFloat F}.

Open Scope string_scope.

(** [d.get(k, 'N/A')] as it is formatted in a note. *)
Definition get_or_na (k : string) (d : list (string * pyval)) : string :=
  match dict_get k d with
  | Some v => py_str v
  | None => "N/A"
  end.

(** [_generate_deviation_notes] *)
Definition _generate_deviation_notes (rfp_attrs oem_attrs : ExtractedAttributes)
  (mismatched missing : list string) : list string :=
  let rfp_dict := to_normalized_dict rfp_attrs in
  let oem_dict := to_normalized_dict oem_attrs in
  map (fun attr =>
         let attr_clean := PyStr.remove " (partial)" attr in
         "RFP requires " ++ attr_clean ++ "=" ++ get_or_na attr_clean rfp_dict
         ++ ", OEM has " ++ get_or_na attr_clean oem_dict)
      mismatched
  ++ map (fun attr =>
            "RFP requires " ++ attr ++ "=" ++ get_or_na attr rfp_dict
            ++ ", OEM spec not available")
         missing.

(** [match_product], with the identifier, the name and the notes. *)
Definition match_product (e : @SpecMatchEngine F) (rfp_item : Models.RFPItem)
  (oem_product : VectorDb.OEMProduct) : @Models.SpecMatchResult F :=
  let '(score, matched, mismatched, missing) :=
    calculate_match_score e (Models.extracted_attributes rfp_item)
                          (VectorDb.specs oem_product) in
  {| Models.sku_id := VectorDb.sku_id oem_product;
     Models.product_name := VectorDb.product_name oem_product;
     Models.match_score := score;
     Models.match_status := classify MINIMUM_MATCH_THRESHOLD score;
     Models.matched_attributes := matched;
     Models.mismatched_attributes := mismatched;
     Models.missing_attributes := missing;
     Models.deviation_notes :=
       _generate_deviation_notes (Models.extracted_attributes rfp_item)
         (VectorDb.specs oem_product) mismatched missing |}.

(** [str(v) if v else default], for a value read with [dict.get]. *)
Definition shown (default : string) (v : option pyval) : string :=
  match v with
  | Some x => if pyval_truthy x then py_str x else default
  | None => default
  end.

(** One turn of the loop over the products: the value shown and the flag. *)
Definition sku_cell (attr_name : string) (rfp_value : option pyval)
  (product : VectorDb.OEMProduct) : option string * bool :=
  let oem_value :=
    dict_get attr_name (to_normalized_dict (VectorDb.specs product)) in
  (Some (shown "N/A" oem_value),
   match rfp_value, oem_value with
   | None, _ => true
   | Some _, None => false
   | Some r, Some o => f_ltb zero (_compare_attribute attr_name r o)
   end).

(** The cells of a row, filled up to three with [(None, False)]. *)
Definition sku_cells (attr_name : string) (rfp_value : option pyval)
  (top_3_products : list VectorDb.OEMProduct) : list (option string * bool) :=
  let cells := map (sku_cell attr_name rfp_value) top_3_products in
  cells ++ repeat (None, false) (3 - length cells).

Definition comparison_row (rfp_dict : list (string * pyval))
  (top_3_products : list VectorDb.OEMProduct) (attr_name : string)
  : Models.ComparisonRow :=
  let rfp_value := dict_get attr_name rfp_dict in
  let cells := sku_cells attr_name rfp_value top_3_products in
  {| Models.attribute_name := attr_name;
     Models.rfp_requirement := Some (shown "Not specified" rfp_value);
     Models.sku_1_value := fst (nth 0 cells (None, false));
     Models.sku_1_match := snd (nth 0 cells (None, false));
     Models.sku_2_value := fst (nth 1 cells (None, false));
     Models.sku_2_match := snd (nth 1 cells (None, false));
     Models.sku_3_value := fst (nth 2 cells (None, false));
     Models.sku_3_match := snd (nth 2 cells (None, false)) |}.

(** [generate_comparison_table] *)
Definition generate_comparison_table (e : @SpecMatchEngine F)
  (rfp_item : Models.RFPItem) (top_3_products : list VectorDb.OEMProduct)
  : list Models.ComparisonRow :=
  map (comparison_row
         (to_normalized_dict (Models.extracted_attributes rfp_item))
         top_3_products)
      (map fst (weights e)).

End WithFloat.

(** The value and the flag of column [i] of a row, counted from 0. *)
Definition column (i : nat) (row : Models.ComparisonRow)
  : option string * bool :=
  match i with
  | O => (Models.sku_1_value row, Models.sku_1_match row)
  | S O => (Models.sku_2_value row, Models.sku_2_match row)
  | _ => (Models.sku_3_value row, Models.sku_3_match row)
  end.

(** The note written for a mismatched and for a missing attribute. *)
Definition mismatch_note (rfp_dict oem_dict : list (string * pyval))
  (attr : string) : string :=
  ("RFP requires " ++ attr ++ "=" ++ get_or_na attr rfp_dict
   ++ ", OEM has " ++ get_or_na attr oem_dict)%string.

Definition missing_note (rfp_dict : list (string * pyval)) (attr : string)
  : string :=
  ("RFP requires " ++ attr ++ "=" ++ get_or_na attr rfp_dict
   ++ ", OEM spec not available")%string.

End Engine.

(** ** [get_product_by_sku] of [utils/vector_db.py] *)

Definition get_product_by_sku (db : VectorDb.VectorDatabase) (sku_id : string)
  : option VectorDb.OEMProduct :=
  find (fun product => String.eqb (VectorDb.sku_id product) sku_id)
       (VectorDb.products db).

(** ** [agents/technical_agent.py] *)

Module Agent.

(** [TOP_N_RECOMMENDATIONS] of [config.py] *)
Definition TOP_N_RECOMMENDATIONS : nat := 3.

(** A row of the summary table, a dictionary with these six keys. *)
Module Summary.

Record Row {F : Type} : Type := {
  item_id : Z;
  rfp_specification : string;
  recommended_sku : string;
  match_score : F;
  match_status : string;
  notes : string
}.

End Summary.

Section WithFloat.

Context {F : Type} `{PyFloat F}.

Open Scope string_scope.

Record ItemRecommendation : Type := {
  item_id : Z;
  rfp_spec_raw : string;
  rfp_attributes : ExtractedAttributes;
  top_3_matches : list (@Models.SpecMatchResult F);
  comparison_table : list Models.ComparisonRow;
  recommended_sku : string;
  recommended_sku_score : F;
  recommendation_notes : string
}.

Record TechnicalAgentOutput : Type := {
  rfp_id : string;
  processing_timestamp : string;
  total_items_processed : nat;
  successful_matches : nat;
  partial_matches : nat;
  no_matches : nat;
  recommendations : list ItemRecommendation;
  summary_table : list (@Summary.Row F);
  alerts : list string
}.

(** *** Sorting the scored candidates *)

Fixpoint insert_by_score {A : Type} (key : A -> F) (x : A) (l : list A)
  : list A :=
  match l with
  | [] => [x]
  | y :: l' =>
      if f_ltb (key x) (key y) then y :: insert_by_score key x l'
      else x :: y :: l'
  end.

(** The stable arrangement by descending key. *)
Definition sort_by_score {A : Type} (key : A -> F) (l : list A) : list A :=
  fold_right (insert_by_score key) [] l.

(** What [l.sort(key=key, reverse=True)] leaves in [l]: a rearrangement of
    the list, which is the stable descending one whenever every key can be
    compared with itself, that is, when no key is a NaN.  With a NaN among
    the keys the arrangement depends on the comparisons the sort happens to
    make, and is left open. *)
Definition py_sort_reverse {A : Type} (key : A -> F) (l out : list A) : Prop :=
  Permutation out l
  /\ (forallb (fun x => f_eqb (key x) (key x)) l = true ->
      out = sort_by_score key l).

(** *** [_process_single_item] *)

(** The early return for an empty list of candidates. *)
Definition no_candidates (item : Models.RFPItem) : ItemRecommendation :=
  {| item_id := Models.item_id item;
     rfp_spec_raw := Models.rfp_spec_raw item;
     rfp_attributes := Models.extracted_attributes item;
     top_3_matches := [];
     comparison_table := [];
     recommended_sku := "NO_MATCH";
     recommended_sku_score := zero;
     recommendation_notes := "No candidate products found in database" |}.

Definition notes_of (best_match : option (@Models.SpecMatchResult F))
  : string :=
  match best_match with
  | Some best =>
      match Models.match_status best with
      | EXACT_MATCH =>
          "Excellent match. Product meets all RFP specifications."
      | CLOSE_MATCH =>
          "Good match with minor deviations: "
          ++ py_join ", " (firstn 2 (Models.deviation_notes best))
      | PARTIAL_MATCH =>
          "Partial match. Consider requesting custom SKU. Issues: "
          ++ py_join ", " (firstn 2 (Models.deviation_notes best))
      | NO_MATCH => "No suitable match found. Custom SKU required."
      end
  | None => "No products found in database matching this specification."
  end.

(** Steps 3 to 5, from the sorted list of scored candidates on. *)
Definition recommend (e : @SpecMatchEngine F) (item : Models.RFPItem)
  (scored_candidates :
     list (VectorDb.OEMProduct * @Models.SpecMatchResult F))
  : ItemRecommendation :=
  let top_3 := firstn TOP_N_RECOMMENDATIONS scored_candidates in
  let top_3_products := map fst top_3 in
  let top_3_matches := map snd top_3 in
  let comparison_table :=
    Engine.generate_comparison_table e item top_3_products in
  let best_match := hd_error top_3_matches in
  {| item_id := Models.item_id item;
     rfp_spec_raw := Models.rfp_spec_raw item;
     rfp_attributes := Models.extracted_attributes item;
     top_3_matches := top_3_matches;
     comparison_table := comparison_table;
     recommended_sku :=
       match best_match with
       | Some best => Models.sku_id best
       | None => "NO_MATCH"
       end;
     recommended_sku_score :=
       match best_match with
       | Some best => Models.match_score best
       | None => zero
       end;
     recommendation_notes := notes_of best_match |}.

(** Step 2: every candidate with its match result. *)
Definition score_candidates (e : @SpecMatchEngine F) (item : Models.RFPItem)
  (candidates : list VectorDb.OEMProduct)
  : list (VectorDb.OEMProduct * @Models.SpecMatchResult F) :=
  map (fun candidate => (candidate, Engine.match_product e item candidate))
      candidates.

(** [_process_single_item]: the outcomes that the search and the sort allow.
    An error raised by the search is passed on. *)
Definition _process_single_item (faiss : bool) (db : VectorDb.VectorDatabase)
  (e : @SpecMatchEngine F) (item : Models.RFPItem)
  (out : VectorDb.result ItemRecommendation) : Prop :=
  exists found,
    VectorDb.similarity_search faiss db (Models.rfp_spec_raw item)
      Config.TOP_K_CANDIDATES found
    /\ match found with
       | VectorDb.Err x => out = VectorDb.Err x
       | VectorDb.Ok [] => out = VectorDb.Ok (no_candidates item)
       | VectorDb.Ok candidates =>
           exists scored_candidates,
             py_sort_reverse (fun x => Models.match_score (snd x))
               (score_candidates e item candidates) scored_candidates
             /\ out = VectorDb.Ok (recommend e item scored_candidates)
       end.

(** *** [_build_summary_table] *)

Definition summary_row (rec : ItemRecommendation) : @Summary.Row F :=
  {| Summary.item_id := item_id rec;
     Summary.rfp_specification := rfp_spec_raw rec;
     Summary.recommended_sku := recommended_sku rec;
     Summary.match_score := recommended_sku_score rec;
     Summary.match_status :=
       match top_3_matches rec with
       | best :: _ => Models.status_value (Models.match_status best)
       | [] => "no_match"
       end;
     Summary.notes := recommendation_notes rec |}.

Definition _build_summary_table (recommendations : list ItemRecommendation)
  : list (@Summary.Row F) :=
  map summary_row recommendations.

(** *** [process_rfp]

    The two steps after the extraction of the scope of supply.  The items
    that the language model extracted and the time stamp are inputs; how
    Python writes a float and an exception in the alerts is left to the two
    functions [float_text] and [error_text]. *)

Variable float_text : F -> string.
Variable error_text : VectorDb.error -> string.

(** The local variables of the loop over the items. *)
Record Progress : Type := {
  recs : list ItemRecommendation;
  alert_list : list string;
  successful : nat;
  partial : nat;
  no_match : nat
}.

Definition progress0 : Progress :=
  {| recs := []; alert_list := []; successful := 0; partial := 0;
     no_match := 0 |}.

(** One turn of the loop; [outcome] is what [_process_single_item] did. *)
Definition process_step (st : Progress)
  (io : Models.RFPItem * VectorDb.result ItemRecommendation) : Progress :=
  let (item, outcome) := io in
  match outcome with
  | VectorDb.Ok recommendation =>
      let s := recommended_sku_score recommendation in
      if f_leb (f_lit 95 0) s then
        {| recs := recs st ++ [recommendation]; alert_list := alert_list st;
           successful := S (successful st); partial := partial st;
           no_match := no_match st |}
      else if f_leb MINIMUM_MATCH_THRESHOLD s then
        {| recs := recs st ++ [recommendation]; alert_list := alert_list st;
           successful := successful st; partial := S (partial st);
           no_match := no_match st |}
      else
        {| recs := recs st ++ [recommendation];
           alert_list :=
             alert_list st
             ++ ["Item " ++ py_str (PInt (Models.item_id item))
                 ++ ": No suitable match found. Best score was "
                 ++ float_text s ++ "%"];
           successful := successful st; partial := partial st;
           no_match := S (no_match st) |}
  | VectorDb.Err x =>
      {| recs := recs st;
         alert_list :=
           alert_list st
           ++ ["Error processing item " ++ py_str (PInt (Models.item_id item))
               ++ ": " ++ error_text x];
         successful := successful st; partial := partial st;
         no_match := S (no_match st) |}
  end.

Definition assemble (rfp_id timestamp : string)
  (scope_items : list Models.RFPItem)
  (outcomes : list (VectorDb.result ItemRecommendation))
  : TechnicalAgentOutput :=
  match scope_items with
  | [] =>
      {| rfp_id := rfp_id; processing_timestamp := timestamp;
         total_items_processed := 0; successful_matches := 0;
         partial_matches := 0; no_matches := 0; recommendations := [];
         summary_table := [];
         alerts := ["Failed to extract any items from RFP Scope of Supply"] |}
  | _ =>
      let st := fold_left process_step (combine scope_items outcomes)
                          progress0 in
      {| rfp_id := rfp_id; processing_timestamp := timestamp;
         total_items_processed := length scope_items;
         successful_matches := successful st;
         partial_matches := partial st;
         no_matches := no_match st;
         recommendations := recs st;
         summary_table := _build_summary_table (recs st);
         alerts := alert_list st |}
  end.

Definition process_rfp (faiss : bool) (db : VectorDb.VectorDatabase)
  (e : @SpecMatchEngine F) (rfp_id timestamp : string)
  (scope_items : list Models.RFPItem) (out : TechnicalAgentOutput) : Prop :=
  exists outcomes,
    Forall2 (_process_single_item faiss db e) scope_items outcomes
    /\ out = assemble rfp_id timestamp scope_items outcomes.

(** The number of rows of a summary table with a given status. *)
Definition count_status (status : string) (rows : list (@Summary.Row F))
  : nat :=
  length (filter (fun row => String.eqb (Summary.match_status row) status)
                 rows).

(** The status shown in the summary is the status of the score shown. *)
Definition coherent (rec : ItemRecommendation) : Prop :=
  Summary.match_status (summary_row rec)
  = Models.status_value
      (classify MINIMUM_MATCH_THRESHOLD (recommended_sku_score rec)).

(** The counters of the loop after [n] items, against the summary rows of
    the recommendations made so far. *)
Definition tallied (n : nat) (st : Progress) : Prop :=
  let rows := _build_summary_table (recs st) in
  (successful st + partial st + no_match st = n
   /\ length (recs st) <= n
   /\ successful st = count_status "exact_match" rows
   /\ partial st
      = count_status "close_match" rows + count_status "partial_match" rows
   /\ no_match st
      = count_status "no_match" rows + (n - length (recs st))
   /\ length (alert_list st) = no_match st)%nat.

End WithFloat.

(** *** A database with one product *)

Definition sample_product : VectorDb.OEMProduct :=
  {| VectorDb.sku_id := "SKU-1"; VectorDb.product_name := "Cable";
     VectorDb.datasheet_text := ""; VectorDb.specs := Sample.cable;
     VectorDb.category := None |}.

Definition sample_item : Models.RFPItem :=
  {| Models.item_id := 1; Models.rfp_spec_raw := "";
     Models.quantity := None; Models.unit := None;
     Models.extracted_attributes := Sample.cable |}.

(** A fitted embedder with an empty vocabulary, and the product stored with
    its embedding. *)
Definition sample_db : VectorDb.VectorDatabase :=
  {| VectorDb.embedder :=
       {| VectorDb.dimension := 0; VectorDb.vocabulary := [];
          VectorDb.idf := []; VectorDb.fitted := true |};
     VectorDb.index := None;
     VectorDb.embeddings := Some [[]];
     VectorDb.products := [sample_product];
     VectorDb.is_initialized := true |}.

End Agent.

(** ** Document frequency *)

(** The number of texts in which the token [word] occurs. *)
Definition document_count (word : string) (texts : list string) : nat :=
  length (filter (fun text => existsb (String.eqb word) (VectorDb._tokenize text))
                 texts).

(** What the iteration over [set(words)] is known to do: it visits every
    distinct word once. *)
Definition visits_each_once (set_iter : list string -> list string) : Prop :=
  forall words,
    NoDup (set_iter words)
    /\ forall w, In w (set_iter words) <-> In w words.

(** The count held for [k], 0 when there is none. *)
Definition count_of (k : string) (d : list (string * nat)) : nat :=
  match dict_get k d with
  | Some n => n
  | None => 0
  end.

(** ** The two search backends side by side *)






(** ** Regular expressions of [re]

    The patterns of [utils/attribute_utils.py] are built from character
    classes, sequences, ordered alternatives, greedy repetitions and
    capturing groups.  [run] is the backtracking matcher of [re]: it tries
    the first alternative before the second and the longest repetition
    before the shorter ones, and it calls the continuation [k] with the text
    that is left and the groups captured so far; when [k] fails, the next
    choice is tried. *)

Module Re.

Open Scope string_scope.

Inductive regex : Type :=
  | Eps
  | Chr (p : ascii -> bool)
  | Seq (r1 r2 : regex)
  | Alt (r1 r2 : regex)
  | Star (r : regex)
  | Group (n : nat) (r : regex).

(** The groups captured so far, the latest first. *)
Definition captures : Type := list (nat * string).

(** The first [String.length s - String.length rest] characters of [s]. *)
Definition consumed (s rest : string) : string :=
  substring 0 (String.length s - String.length rest) s.

(** The repetitions of the patterns below match at least one character at
    each turn, so that a repetition on [s] takes at most [String.length s]
    turns; a turn that takes nothing is not repeated. *)
Fixpoint run {A : Type} (r : regex) (s : string) (caps : captures)
  (k : string -> captures -> option A) {struct r} : option A :=
  match r with
  | Eps => k s caps
  | Chr p =>
      match s with
      | String c s' => if p c then k s' caps else None
      | EmptyString => None
      end
  | Seq r1 r2 => run r1 s caps (fun s' caps' => run r2 s' caps' k)
  | Alt r1 r2 =>
      match run r1 s caps k with
      | Some x => Some x
      | None => run r2 s caps k
      end
  | Star r1 =>
      (fix loop (fuel : nat) (s : string) (caps : captures) {struct fuel}
         : option A :=
         match fuel with
         | O => k s caps
         | S fuel' =>
             match
               run r1 s caps
                 (fun s' caps' =>
                    if (String.length s' <? String.length s)%nat
                    then loop fuel' s' caps' else None)
             with
             | Some x => Some x
             | None => k s caps
             end
         end) (String.length s) s caps
  | Group n r1 =>
      run r1 s caps (fun s' caps' => k s' ((n, consumed s s') :: caps'))
  end.

(** [re.match(pattern, s)]: the groups of a match at the start of [s]. *)
Definition py_match (r : regex) (s : string) : option captures :=
  run r s [] (fun _ caps => Some caps).

(** [re.search(pattern, s)]: the groups of the leftmost match. *)
Fixpoint search (r : regex) (s : string) : option captures :=
  match py_match r s with
  | Some caps => Some caps
  | None =>
      match s with
      | String _ s' => search r s'
      | EmptyString => None
      end
  end.

(** [m.group(n)] *)
Fixpoint group (n : nat) (caps : captures) : option string :=
  match caps with
  | [] => None
  | (n', text) :: caps' => if Nat.eqb n n' then Some text else group n caps'
  end.

(** *** Abbreviations *)

Definition Plus (r : regex) : regex := Seq r (Star r).
Definition Opt (r : regex) : regex := Alt r Eps.
Definition Lit1 (c : ascii) : regex := Chr (Ascii.eqb c).

(** A literal text. *)
Fixpoint Lit (w : string) : regex :=
  match w with
  | EmptyString => Eps
  | String c w' => Seq (Lit1 c) (Lit w')
  end.

(** [\d], [\s] and the number [\d+(?:\.\d+)?]. *)
Definition digit : regex := Chr FloatSyntax.is_digit.
Definition space : regex := Chr PyStr.is_space.
Definition number : regex :=
  Seq (Plus digit) (Opt (Seq (Lit1 ".") (Plus digit))).

(** *** What a pattern matches

    [matches r text caps caps'] holds when [r] can match the whole of
    [text], turning the captured groups [caps] into [caps']. *)
Inductive matches : regex -> string -> captures -> captures -> Prop :=
  | MEps caps : matches Eps "" caps caps
  | MChr p c caps : p c = true -> matches (Chr p) (String c "") caps caps
  | MSeq r1 r2 s1 s2 caps caps1 caps2 :
      matches r1 s1 caps caps1 -> matches r2 s2 caps1 caps2 ->
      matches (Seq r1 r2) (s1 ++ s2) caps caps2
  | MAltL r1 r2 s caps caps' :
      matches r1 s caps caps' -> matches (Alt r1 r2) s caps caps'
  | MAltR r1 r2 s caps caps' :
      matches r2 s caps caps' -> matches (Alt r1 r2) s caps caps'
  | MStar0 r caps : matches (Star r) "" caps caps
  | MStarS r s1 s2 caps caps1 caps2 :
      matches r s1 caps caps1 -> matches (Star r) s2 caps1 caps2 ->
      matches (Star r) (s1 ++ s2) caps caps2
  | MGroup n r s caps caps' :
      matches r s caps caps' -> matches (Group n r) s caps ((n, s) :: caps').

(** A pattern without capturing groups. *)
Fixpoint group_free (r : regex) : bool :=
  match r with
  | Eps | Chr _ => true
  | Seq r1 r2 | Alt r1 r2 => (group_free r1 && group_free r2)%bool
  | Star r1 => group_free r1
  | Group _ _ => false
  end.

End Re.

(** ** The extractors of [utils/attribute_utils.py] *)

Module AttributeUtils.

Import Re.

Open Scope string_scope.

(** [\s*] *)
Definition spaces : regex := Star space.

(** The character of code 178, the superscript two of "mm2". *)
Definition superscript_two : ascii := ascii_of_nat 178.

(** The loop [for pattern in patterns]: the groups of the first pattern
    that is found in [text]. *)
Fixpoint first_search (patterns : list regex) (text : string)
  : option captures :=
  match patterns with
  | [] => None
  | pattern :: patterns' =>
      match search pattern text with
      | Some caps => Some caps
      | None => first_search patterns' text
      end
  end.

(** A group as an f-string writes it; a group that took no part in the
    match is None. *)
Definition group_text (n : nat) (caps : captures) : string :=
  match group n caps with
  | Some text => text
  | None => "None"
  end.

(** The four patterns of [extract_cross_section]. *)
Definition cross_section_patterns : list regex :=
  [ Seq (Group 1 number)
        (Seq spaces (Seq (Lit "sq") (Seq spaces (Lit "mm"))));
    Seq (Group 1 number) (Seq spaces (Lit "sqmm"));
    Seq (Group 1 number)
        (Seq spaces (Seq (Lit "mm") (Seq spaces (Lit "2"))));
    Seq (Group 1 number)
        (Seq spaces (Seq (Lit "mm") (Lit1 superscript_two))) ].

(** [extract_cross_section] *)
Definition extract_cross_section (text : string) : option string :=
  if negb (PyStr.truthy text) then None
  else
    match first_search cross_section_patterns (PyStr.lower text) with
    | Some caps => Some (group_text 1 caps ++ "sqmm")
    | None => None
    end.

(** [(?:,\d{3})] and the quantity [\d+(?:,\d{3})*(?:\.\d+)?]. *)
Definition thousands : regex :=
  Seq (Lit1 ",") (Seq digit (Seq digit digit)).

Definition quantity : regex :=
  Seq (Plus digit)
      (Seq (Star thousands) (Opt (Seq (Lit1 ".") (Plus digit)))).

(** [(km|m|meters|metres|coils|drums|lengths)] *)
Definition length_units : regex :=
  Alt (Lit "km")
      (Alt (Lit "m")
           (Alt (Lit "meters")
                (Alt (Lit "metres")
                     (Alt (Lit "coils") (Alt (Lit "drums") (Lit "lengths")))))).

(** [(nos?|pcs?|pieces?|units?)] *)
Definition count_units : regex :=
  Alt (Seq (Lit "no") (Opt (Lit1 "s")))
      (Alt (Seq (Lit "pc") (Opt (Lit1 "s")))
           (Alt (Seq (Lit "piece") (Opt (Lit1 "s")))
                (Seq (Lit "unit") (Opt (Lit1 "s"))))).

Definition quantity_patterns : list regex :=
  [ Seq (Group 1 quantity) (Seq spaces (Group 2 length_units));
    Seq (Group 1 quantity) (Seq spaces (Group 2 count_units)) ].

(** [parse_quantity_and_unit].  The result is [None] where the call would
    raise [AttributeError], for a match without its first group. *)
Definition parse_quantity_and_unit (text : string)
  : option (option string * option string) :=
  if negb (PyStr.truthy text) then Some (None, None)
  else
    match first_search quantity_patterns (PyStr.lower text) with
    | Some caps =>
        match group 1 caps with
        | Some g => Some (Some (PyStr.remove "," g), group 2 caps)
        | None => None
        end
    | None => Some (None, None)
    end.

(** The units that [parse_quantity_and_unit] can return. *)
Definition returned_units : list string :=
  [ "km"; "m"; "coils"; "drums"; "lengths";
    "no"; "nos"; "pc"; "pcs"; "piece"; "pieces"; "unit"; "units" ].

(** A text made of digits, with at most one point inside. *)
Definition is_decimal (d : string) : Prop :=
  exists ip,
    VectorDb.all_chars FloatSyntax.is_digit ip = true /\ ip <> ""
    /\ (d = ip
        \/ exists fp, VectorDb.all_chars FloatSyntax.is_digit fp = true
                      /\ fp <> "" /\ d = ip ++ String "." fp).

(** Digits and the point. *)
Definition decimal_char (c : ascii) : bool :=
  (FloatSyntax.is_digit c || Ascii.eqb c ".")%bool.

(** [w in s] *)
Fixpoint contains (w s : string) : bool :=
  match s with
  | EmptyString => prefix w s
  | String _ s' => (prefix w s || contains w s')%bool
  end.

(** [\d+(?:\.\d+)?(?:kv|v)] *)
Definition voltage_format : regex :=
  Seq number (Alt (Lit "kv") (Lit "v")).

(** [not attrs.get(attr)] *)
Definition lacks (attr : string) (attrs : list (string * pyval)) : bool :=
  match dict_get attr attrs with
  | Some v => negb (pyval_truthy v)
  | None => true
  end.

Definition critical_attrs : list string :=
  [ "voltage"; "conductor_material"; "cross_section" ].

Definition missing_critical (attrs : list (string * pyval)) : list string :=
  flat_map (fun attr =>
              if lacks attr attrs
              then ["Missing critical attribute: " ++ attr] else [])
           critical_attrs.

(** The check of the voltage; [None] where [re.match] raises [TypeError],
    for a voltage that is an integer other than 0. *)
Definition voltage_issues (attrs : list (string * pyval))
  : option (list string) :=
  if lacks "voltage" attrs then Some []
  else
    match dict_get "voltage" attrs with
    | Some (PStr s) =>
        match py_match voltage_format s with
        | Some _ => Some []
        | None => Some ["Invalid voltage format: " ++ s]
        end
    | _ => None
    end.

Definition core_count_issues (attrs : list (string * pyval)) : list string :=
  if lacks "core_count" attrs then []
  else
    match dict_get "core_count" attrs with
    | Some (PInt n) =>
        if (n <? 1)%Z then ["Invalid core count: " ++ py_str (PInt n)] else []
    | Some (PStr s) => ["Invalid core count: " ++ s]
    | None => []
    end.

(** [validate_attributes], for a dictionary whose values are strings and
    integers. *)
Definition validate_attributes (attrs : list (string * pyval))
  : option (bool * list string) :=
  match voltage_issues attrs with
  | None => None
  | Some v_issues =>
      let issues := (missing_critical attrs ++ v_issues
                     ++ core_count_issues attrs)%list in
      let is_valid :=
        (Nat.eqb (length issues) 0
         || Nat.eqb (length (filter (fun i => contains "critical" (PyStr.lower i))
                                    issues)) 0)%bool in
      Some (is_valid, issues)
  end.

(** A text that starts with a decimal number followed by "kv" or "v". *)
Definition well_formed_voltage (s : string) : Prop :=
  exists d unit rest,
    is_decimal d /\ (unit = "kv" \/ unit = "v") /\ s = d ++ unit ++ rest.

(** A field that is None or empty. *)
Definition lacking (v : option string) : bool :=
  match v with
  | Some s => negb (PyStr.truthy s)
  | None => true
  end.

Definition lacks_critical (a : ExtractedAttributes) : bool :=
  (lacking (voltage a) || lacking (conductor_material a)
   || lacking (cross_section a))%bool.

(** A core count that raises no issue: none, 0, or at least 1. *)
Definition core_count_accepted (n : option Z) : bool :=
  match n with
  | Some n => (Z.eqb n 0 || Z.leb 1 n)%bool
  | None => true
  end.

(** [w in i.lower()] for the word "critical". *)
Definition names_critical (i : string) : bool :=
  contains "critical" (PyStr.lower i).

End AttributeUtils.

(** ** The extractors that look for words *)

Module Words.

Open Scope string_scope.

(** [any(term in text for term in terms)] *)
Definition any_in (terms : list string) (text : string) : bool :=
  existsb (fun term => AttributeUtils.contains term text) terms.

(** The loop over the items of a dictionary of variants: the first name one
    of whose variants occurs in [text]. *)
Fixpoint first_type (types : list (string * list string)) (text : string)
  : option string :=
  match types with
  | [] => None
  | (normalized, variants) :: types' =>
      if any_in variants text then Some normalized
      else first_type types' text
  end.

(** [extract_conductor_material] *)
Definition extract_conductor_material (text : string) : option string :=
  if negb (PyStr.truthy text) then None
  else
    let text := PyStr.lower text in
    if any_in ["aluminum"; "aluminium"; " al "; " al."; "/al"] text
    then Some "al"
    else if any_in ["copper"; " cu "; " cu."; "/cu"] text then Some "cu"
    else None.

Definition insulation_types : list (string * list string) :=
  [ ("xlpe", ["xlpe"; "cross linked polyethylene";
              "cross-linked polyethylene"]);
    ("pvc", ["pvc"; "polyvinyl chloride"]);
    ("epr", ["epr"; "ethylene propylene rubber"]);
    ("rubber", ["rubber insulated"]) ].

(** [extract_insulation] *)
Definition extract_insulation (text : string) : option string :=
  if negb (PyStr.truthy text) then None
  else first_type insulation_types (PyStr.lower text).

Definition armouring_types : list (string * list string) :=
  [ ("gi_strip", ["gi strip"; "galvanized iron strip";
                  "galvanised iron strip"]);
    ("gi_wire", ["gi wire"; "galvanized iron wire"; "galvanised iron wire"]);
    ("swa", ["swa"; "steel wire armour"; "steel wire armored"]);
    ("sta", ["sta"; "steel tape armour"]) ].

(** [extract_armouring] *)
Definition extract_armouring (text : string) : option string :=
  if negb (PyStr.truthy text) then None
  else
    let text := PyStr.lower text in
    if (AttributeUtils.contains "unarmoured" text
        || AttributeUtils.contains "un-armoured" text
        || AttributeUtils.contains "non armoured" text)%bool
    then Some "unarmoured"
    else first_type armouring_types text.

End Words.

(** ** Names of the attributes *)

(** The fields of [ExtractedAttributes]. *)
Definition field_names : list string :=
  [ "voltage"; "conductor_material"; "cross_section"; "core_count";
    "insulation"; "armouring"; "sheathing" ]%string.

(** An engine with a single weight, under a name that is no field. *)
Definition misnamed_engine : @SpecMatchEngine F64.t :=
  {| weights := [("volts"%string, F64.lit 1 0)] |}.

(* ================================================================== *)
(** * Theorems *)
(* ================================================================== *)

(** ** Strings *)

Section StringFacts.

Import PyStr.

Lemma lower_char_idem (c : ascii) : lower_char (lower_char c) = lower_char c.
Proof. destruct c as [[] [] [] [] [] [] [] []]; reflexivity. Qed.

Lemma is_space_lower_char (c : ascii) : is_space (lower_char c) = is_space c.
Proof. destruct c as [[] [] [] [] [] [] [] []]; reflexivity. Qed.

Lemma lower_idem (s : string) : lower (lower s) = lower s.
Proof.
  induction s as [|c s IH]; simpl; [reflexivity|].
  now rewrite lower_char_idem, IH.
Qed.

Lemma lower_lstrip (s : string) : lower (lstrip s) = lstrip (lower s).
Proof.
  induction s as [|c s IH]; simpl; [reflexivity|].
  rewrite is_space_lower_char.
  destruct (is_space c); [exact IH | reflexivity].
Qed.

Lemma lower_rstrip (s : string) : lower (rstrip s) = rstrip (lower s).
Proof.
  induction s as [|c s IH]; simpl; [reflexivity|].
  rewrite <- IH, is_space_lower_char.
  destruct (rstrip s); simpl; [destruct (is_space c)|]; reflexivity.
Qed.

Lemma lower_strip (s : string) : lower (strip s) = strip (lower s).
Proof. unfold strip. now rewrite lower_rstrip, lower_lstrip. Qed.

Lemma lstrip_clean (s : string) : starts_clean (lstrip s).
Proof.
  induction s as [|c s IH]; simpl; [exact I|].
  destruct (is_space c) eqn:E; [exact IH | exact E].
Qed.

Lemma lstrip_of_clean (s : string) : starts_clean s -> lstrip s = s.
Proof. destruct s as [|c s]; simpl; [reflexivity|]. now intros ->. Qed.

Lemma rstrip_clean (s : string) : starts_clean s -> starts_clean (rstrip s).
Proof.
  destruct s as [|c s]; simpl; [exact (fun H => H)|].
  intros H. destruct (rstrip s); [rewrite H|]; exact H.
Qed.

Lemma rstrip_cons (c : ascii) (s : string) :
  rstrip (String c s) =
  match rstrip s with
  | EmptyString => if is_space c then EmptyString else String c EmptyString
  | r => String c r
  end.
Proof. reflexivity. Qed.

Lemma rstrip_idem (s : string) : rstrip (rstrip s) = rstrip s.
Proof.
  induction s as [|c s IH]; [reflexivity|].
  rewrite rstrip_cons.
  destruct (rstrip s) as [|d r] eqn:E.
  - destruct (is_space c) eqn:Ec; [reflexivity|].
    rewrite rstrip_cons. simpl. now rewrite Ec.
  - rewrite rstrip_cons, IH. reflexivity.
Qed.

Lemma strip_idem (s : string) : strip (strip s) = strip s.
Proof.
  unfold strip.
  rewrite (lstrip_of_clean _ (rstrip_clean _ (lstrip_clean s))).
  apply rstrip_idem.
Qed.

Lemma strip_lower_fixed (s : string) :
  strip (lower (strip (lower s))) = strip (lower s).
Proof. now rewrite lower_strip, lower_idem, strip_idem. Qed.

End StringFacts.

(** ** Value normalisation *)

(** Every canonical name of the synonym table is kept by [normalize_value]. *)
Lemma table_values_fixed :
  forallb (fun kv => String.eqb (normalize_value (snd kv)) (snd kv))
          Config.NORMALIZED_VALUES = true.
Proof. vm_compute. reflexivity. Qed.

Lemma dict_get_In {V : Type} (k : string) (d : list (string * V)) (v : V) :
  dict_get k d = Some v -> In (k, v) d.
Proof.
  induction d as [|[k' v'] d IH]; simpl; [discriminate|].
  destruct (String.eqb_spec k k') as [->|_].
  - intros [= ->]. now left.
  - intros H. right. now apply IH.
Qed.

Lemma normalize_value_canonical (k v : string) :
  dict_get k Config.NORMALIZED_VALUES = Some v -> normalize_value v = v.
Proof.
  intros H. apply dict_get_In in H.
  pose proof table_values_fixed as T. rewrite forallb_forall in T.
  specialize (T _ H). now apply String.eqb_eq in T.
Qed.

Lemma normalize_value_idem (value : string) :
  normalize_value (normalize_value value) = normalize_value value.
Proof.
  unfold normalize_value at 2 3.
  destruct (PyStr.truthy value); cbn [negb]; [|reflexivity].
  destruct (dict_get (PyStr.strip (PyStr.lower value))
                     Config.NORMALIZED_VALUES) as [v|] eqn:E.
  - exact (normalize_value_canonical _ _ E).
  - unfold normalize_value.
    destruct (PyStr.truthy (PyStr.strip (PyStr.lower value))) eqn:T;
      cbn [negb].
    + now rewrite strip_lower_fixed, E.
    + unfold PyStr.truthy in T. apply negb_false_iff, String.eqb_eq in T.
      now rewrite T.
Qed.

(** ** Order on binary64 *)

Section Binary64Order.

Lemma SFcompare_antisym (x y : spec_float) :
  SFcompare y x = option_map CompOpp (SFcompare x y).
Proof.
  destruct x as [sx|sx| |sx mx ex], y as [sy|sy| |sy my ey];
    try destruct sx; try destruct sy; try reflexivity;
    simpl; rewrite (Z.compare_antisym ex ey);
    destruct (ex ?= ey)%Z; simpl; try reflexivity;
    change (Pos.compare_cont Eq my mx) with (Pos.compare my mx);
    change (Pos.compare_cont Eq mx my) with (Pos.compare mx my);
    rewrite (Pos.compare_antisym mx my);
    destruct (mx ?= my)%positive; reflexivity.
Qed.

Lemma SFcompare_defined (x y : spec_float) :
  x <> S754_nan -> y <> S754_nan -> exists c, SFcompare x y = Some c.
Proof.
  destruct x as [sx|sx| |sx mx ex], y as [sy|sy| |sy my ey];
    intros Hx Hy; try congruence; simpl; eexists; reflexivity.
Qed.

Lemma SFleb_not_nan (a s : spec_float) : SFleb a s = true -> s <> S754_nan.
Proof. intros Ha ->. destruct a; discriminate Ha. Qed.

(** Once [s] is ordered against some number, [s < x] is the failure of
    [x <= s], for every [x] that is not a NaN. *)
Lemma SFltb_of_not_leb (a x s : spec_float) :
  x <> S754_nan -> SFleb a s = true -> SFleb x s = false -> SFltb s x = true.
Proof.
  intros Hx Ha Hxs. apply SFleb_not_nan in Ha.
  destruct (SFcompare_defined x s Hx Ha) as [c Hc].
  unfold SFltb. rewrite (SFcompare_antisym x s).
  unfold SFleb in Hxs. rewrite Hc in *.
  destruct c; try discriminate. reflexivity.
Qed.

Lemma SFleb_excludes_ltb (x s : spec_float) :
  SFleb x s = true -> SFltb s x = false.
Proof.
  unfold SFleb, SFltb. rewrite (SFcompare_antisym x s).
  destruct (SFcompare x s) as [[]|]; simpl; congruence.
Qed.

End Binary64Order.

(** ** Classification *)

(** C7.  For every score and every threshold, [match_product] assigns EXACT
    when the score is at least 95, CLOSE when it lies in [80, 95), PARTIAL
    when it lies in [threshold, 80) and NONE otherwise; the threshold that
    [match_product] uses is 60. *)
Theorem classify_by_thresholds :
  (forall threshold s : F64.t, classify threshold s = classify_spec threshold s)
  /\ (forall (e : SpecMatchEngine) (rfp oem : ExtractedAttributes),
        match_status (match_product e rfp oem)
        = classify_spec (F64.lit 60 0) (match_score e rfp oem)).
Proof.
  assert (A : forall threshold s : F64.t,
             classify threshold s = classify_spec threshold s).
  { intros threshold s. unfold classify, classify_spec.
    destruct (f_leb (f_lit 95 0) s) eqn:E95; [reflexivity|].
    destruct (f_leb (f_lit 80 0) s) eqn:E80.
    - assert (L : f_ltb s (f_lit 95 0) = true).
      { apply (SFltb_of_not_leb (f_lit 80 0)); [discriminate | exact E80 | exact E95]. }
      rewrite L. reflexivity.
    - cbn [andb].
      destruct (f_leb threshold s) eqn:Et; [|reflexivity].
      assert (L : f_ltb s (f_lit 80 0) = true).
      { apply (SFltb_of_not_leb threshold); [discriminate | exact Et | exact E80]. }
      rewrite L. reflexivity. }
  split; [exact A|].
  intros e rfp oem. rewrite <- A.
  unfold match_product, match_score.
  destruct (calculate_match_score e rfp oem) as [[[s m] mm] ms].
  reflexivity.
Qed.

(** ** The scoring loop *)

Lemma pyval_eqb_refl (v : pyval) : pyval_eqb v v = true.
Proof. destruct v; simpl; [apply String.eqb_refl | apply Z.eqb_refl]. Qed.

Lemma pyval_eqb_eq (a b : pyval) : pyval_eqb a b = true <-> a = b.
Proof.
  destruct a, b; simpl; split; try discriminate.
  - now intros ->%String.eqb_eq.
  - intros [= ->]. apply String.eqb_refl.
  - now intros ->%Z.eqb_eq.
  - intros [= ->]. apply Z.eqb_refl.
Qed.

Lemma app_cons_assoc {A : Type} (l : list A) (x : A) (acc : list A) :
  (acc ++ [x]) ++ l = acc ++ x :: l.
Proof. now rewrite <- app_assoc. Qed.

Section ScoringLoop.

Context {F : Type} `{LiteralFacts F}.

Implicit Types (t : @Tally F) (w : list (string * F))
  (d : list (string * pyval)).

Lemma compare_attribute_same (attr : string) (v : pyval) :
  _compare_attribute attr v v = one.
Proof. unfold _compare_attribute. now rewrite pyval_eqb_refl. Qed.

(** An attribute the requirement leaves open earns its whole weight and is
    entered in no list. *)
Lemma score_step_unspecified d d' t (attr : string) (weight : F) :
  dict_get attr d = None ->
  score_step d d' t (attr, weight)
  = {| score := f_add (score t) weight; matched := matched t;
       mismatched := mismatched t; missing := missing t |}.
Proof. intros E. unfold score_step. now rewrite E. Qed.

(** An attribute the requirement fixes and the product lacks earns nothing
    and is entered as missing. *)
Lemma score_step_missing d d' t (attr : string) (weight : F) (v : pyval) :
  dict_get attr d = Some v -> dict_get attr d' = None ->
  score_step d d' t (attr, weight)
  = {| score := score t; matched := matched t; mismatched := mismatched t;
       missing := missing t ++ [attr] |}.
Proof. intros E E'. unfold score_step. now rewrite E, E'. Qed.

Lemma score_step_compared d d' t (attr : string) (weight : F) (r o : pyval) :
  dict_get attr d = Some r -> dict_get attr d' = Some o ->
  score_step d d' t (attr, weight)
  = let c := _compare_attribute attr r o in
    if f_eqb c one then
      {| score := f_add (score t) weight; matched := matched t ++ [attr];
         mismatched := mismatched t; missing := missing t |}
    else if f_ltb zero c then
      {| score := f_add (score t) (f_mul weight c); matched := matched t;
         mismatched := mismatched t ++ [(attr ++ " (partial)")%string];
         missing := missing t |}
    else
      {| score := score t; matched := matched t;
         mismatched := mismatched t ++ [attr]; missing := missing t |}.
Proof. intros E E'. unfold score_step. now rewrite E, E'. Qed.

(** With nothing required, the loop adds up the weights in their order. *)
Lemma score_loop_no_requirement w d' t :
  score_loop w [] d' t
  = {| score := fold_left f_add (map snd w) (score t); matched := matched t;
       mismatched := mismatched t; missing := missing t |}.
Proof.
  revert t. induction w as [|[attr weight] w IH]; intros t.
  - destruct t; reflexivity.
  - unfold score_loop in *. cbn [fold_left map snd].
    rewrite (score_step_unspecified [] d' t attr weight eq_refl), IH.
    reflexivity.
Qed.

(** A record scored against itself: every weight is earned, and the
    attributes it specifies are the matched ones. *)
Lemma score_loop_same w d t :
  score_loop w d d t
  = {| score := fold_left f_add (map snd w) (score t);
       matched := matched t ++ map fst (filter (specified_in d) w);
       mismatched := mismatched t; missing := missing t |}.
Proof.
  revert t. induction w as [|[attr weight] w IH]; intros t.
  - destruct t; simpl. now rewrite app_nil_r.
  - unfold score_loop in *. cbn [fold_left map snd filter].
    unfold specified_in at 1. cbn [fst].
    destruct (dict_get attr d) as [v|] eqn:E.
    + rewrite (score_step_compared d d t attr weight v v E E).
      cbn zeta. rewrite compare_attribute_same, one_is_one, IH.
      cbn [score matched mismatched missing map fst].
      now rewrite app_cons_assoc.
    + rewrite (score_step_unspecified d d t attr weight E), IH.
      reflexivity.
Qed.

(** Two dictionaries that agree except at [key], where the comparison gives
    no credit: the weight of [key] is the only one not earned. *)
Lemma score_loop_one_mismatch (key : string) (r o : pyval) w d d' t :
  (forall k, String.eqb k key = false -> dict_get k d' = dict_get k d) ->
  dict_get key d = Some r -> dict_get key d' = Some o ->
  _compare_attribute key r o = zero ->
  score_loop w d d' t
  = {| score := fold_left f_add (map snd (filter (not_key key) w)) (score t);
       matched :=
         matched t
         ++ map fst (filter (fun kv => specified_in d kv && not_key key kv)%bool w);
       mismatched := mismatched t ++ map fst (filter (is_key key) w);
       missing := missing t |}.
Proof.
  intros Hagree Hr Ho Hc. revert t.
  unfold score_loop, not_key, is_key, specified_in.
  induction w as [|[attr weight] w IH]; intros t.
  - destruct t; simpl. now rewrite !app_nil_r.
  - cbn [fold_left filter fst].
    destruct (String.eqb attr key) eqn:Hk.
    + apply String.eqb_eq in Hk. subst attr.
      rewrite (score_step_compared d d' t key weight r o Hr Ho).
      cbn zeta. rewrite Hc, zero_not_one, zero_not_positive, IH, Hr.
      cbn [negb andb map fst score matched mismatched missing].
      now rewrite app_cons_assoc.
    + cbn [negb]. rewrite andb_true_r.
      destruct (dict_get attr d) as [v|] eqn:E.
      * assert (E' : dict_get attr d' = Some v) by now rewrite (Hagree _ Hk).
        rewrite (score_step_compared d d' t attr weight v v E E').
        cbn zeta. rewrite compare_attribute_same, one_is_one, IH.
        cbn [map fst snd fold_left score matched mismatched missing].
        now rewrite app_cons_assoc.
      * rewrite (score_step_unspecified d d' t attr weight E), IH.
        reflexivity.
Qed.

End ScoringLoop.

(** ** Attribute records as dictionaries *)

Lemma no_attributes_dict : to_normalized_dict no_attributes = [].
Proof. reflexivity. Qed.

Lemma dict_core_count (a : ExtractedAttributes) :
  dict_get "core_count" (to_normalized_dict a) = option_map PInt (core_count a).
Proof.
  destruct a as [[v|] [cm|] [cs|] [cc|] [i|] [ar|] [sh|]]; reflexivity.
Qed.

Lemma dict_other_than_core_count (a : ExtractedAttributes) (n : option Z)
  (k : string) :
  String.eqb k "core_count" = false ->
  dict_get k (to_normalized_dict (with_core_count a n))
  = dict_get k (to_normalized_dict a).
Proof.
  intros Hk.
  destruct a as [[v|] [cm|] [cs|] [cc|] [i|] [ar|] [sh|]], n as [n|];
    cbn; rewrite ?Hk; reflexivity.
Qed.

(** ** Literals of binary64 *)

#[global] Instance F64_literals : LiteralFacts F64.t.
Proof. split; vm_compute; auto. Qed.

(** ** Construction of the engine *)

Lemma init_default : init None = inl (@default_engine F64.t _).
Proof. vm_compute. reflexivity. Qed.

(** C3, counterexample.  The weights 1.5 and -0.5 contain a negative weight
    and the engine is built all the same. *)
Lemma init_accepts_negative_weight :
  has_negative Sample.weights_with_negative = true
  /\ init (Some Sample.weights_with_negative)
     = inl {| weights := Sample.weights_with_negative |}.
Proof. split; vm_compute; reflexivity. Qed.

(** C3, as the code has it.  Construction fails exactly on the test
    [abs(total - 1.0) > 0.01] over the weights in use: a non-empty mapping
    whose sum is out of tolerance is refused, a non-empty mapping whose sum
    is within tolerance is accepted whatever the signs of its weights, and an
    absent or empty mapping stands for the default weights, which are
    accepted. *)
Theorem init_checks_sum_only :
  (forall w : list (string * F64.t),
      w <> [] -> out_of_tolerance (py_sum (map snd w)) = true ->
      init (Some w) = inr ValueError_weights_sum)
  /\ (forall w : list (string * F64.t),
      w <> [] -> out_of_tolerance (py_sum (map snd w)) = false ->
      init (Some w) = inl {| weights := w |})
  /\ init (Some []) = inl (@default_engine F64.t _)
  /\ init None = inl (@default_engine F64.t _).
Proof.
  split; [|split; [|split]].
  - intros [|kv w] Hw Hout; [congruence|].
    unfold init. fold (out_of_tolerance (py_sum (map snd (kv :: w)))).
    now rewrite Hout.
  - intros [|kv w] Hw Hout; [congruence|].
    unfold init. fold (out_of_tolerance (py_sum (map snd (kv :: w)))).
    now rewrite Hout.
  - vm_compute. reflexivity.
  - vm_compute. reflexivity.
Qed.

Lemma init_checks_sum_only_witness :
  init (Some Sample.weights_half) = inr ValueError_weights_sum
  /\ init (Some Sample.weights_with_negative)
     = inl {| weights := Sample.weights_with_negative |}.
Proof.
  destruct init_checks_sum_only as (Hfail & Hok & _).
  split.
  - apply Hfail; [discriminate | vm_compute; reflexivity].
  - apply Hok; [discriminate | vm_compute; reflexivity].
Defined.

(** ** Unspecified and missing attributes *)

(** C1, counterexample.  The one weight 0.9921875 passes the check of
    [__init__]; a requirement with no attribute then scores 99.22. *)
Lemma empty_requirement_not_100 :
  init (Some Sample.weights_below_one)
  = inl {| weights := Sample.weights_below_one |}
  /\ match_score {| weights := Sample.weights_below_one |}
       no_attributes Sample.cable = F64.lit 9922 (-2)
  /\ f_eqb (F64.lit 9922 (-2)) (F64.lit 100 0) = false.
Proof. split; [|split]; vm_compute; reflexivity. Qed.

(** C1, as the code has it.  In every turn of the scoring loop an attribute
    without a required value earns its full weight and enters no list; an
    attribute with a required value that the candidate lacks earns nothing
    and is entered as missing.  A requirement with no attribute at all
    therefore scores [round(100 * sum of the weights, 2)] against every
    candidate, with three empty lists, which is exactly 100 for the default
    weights. *)
Theorem unspecified_and_missing_attributes :
  (forall (rfp oem : list (string * pyval)) (t : @Tally F64.t)
          (attr : string) (weight : F64.t),
      dict_get attr rfp = None ->
      score_step rfp oem t (attr, weight)
      = {| score := f_add (score t) weight; matched := matched t;
           mismatched := mismatched t; missing := missing t |})
  /\ (forall (rfp oem : list (string * pyval)) (t : @Tally F64.t)
          (attr : string) (weight : F64.t) (v : pyval),
      dict_get attr rfp = Some v -> dict_get attr oem = None ->
      score_step rfp oem t (attr, weight)
      = {| score := score t; matched := matched t;
           mismatched := mismatched t; missing := missing t ++ [attr] |})
  /\ (forall (e : @SpecMatchEngine F64.t) (oem : ExtractedAttributes),
      calculate_match_score e no_attributes oem
      = (percentage (py_sum (map snd (weights e))), [], [], []))
  /\ (forall oem : ExtractedAttributes,
      calculate_match_score (@default_engine F64.t _) no_attributes oem
      = (F64.lit 100 0, [], [], [])).
Proof.
  assert (A : forall (e : @SpecMatchEngine F64.t) (oem : ExtractedAttributes),
      calculate_match_score e no_attributes oem
      = (percentage (py_sum (map snd (weights e))), [], [], [])).
  { intros e oem. unfold calculate_match_score.
    rewrite no_attributes_dict, score_loop_no_requirement. reflexivity. }
  split; [|split; [|split]].
  - intros. now apply score_step_unspecified.
  - intros. now apply score_step_missing with (v := v).
  - exact A.
  - intros oem. rewrite A. vm_compute. reflexivity.
Qed.

Lemma unspecified_and_missing_attributes_witness :
  score_step [] [] tally0 ("voltage"%string, F64.lit 25 (-2))
  = {| score := f_add zero (F64.lit 25 (-2)); matched := [];
       mismatched := []; missing := [] |}
  /\ score_step (to_normalized_dict Sample.cable) [] tally0
       ("voltage"%string, F64.lit 25 (-2))
     = {| score := zero; matched := []; mismatched := [];
          missing := ["voltage"%string] |}.
Proof.
  destruct unspecified_and_missing_attributes as (Hopen & Hmiss & _).
  split.
  - apply (Hopen [] [] tally0). reflexivity.
  - apply (Hmiss (to_normalized_dict Sample.cable) [] tally0 _ _
                 (PStr "11kv")); reflexivity.
Defined.

(** ** A record against itself *)

(** C8, counterexample.  With the accepted weight 0.9921875 the fully
    specified cable scores 99.22 against itself. *)
Lemma identity_score_not_100 :
  init (Some Sample.weights_below_one)
  = inl {| weights := Sample.weights_below_one |}
  /\ match_score {| weights := Sample.weights_below_one |}
       Sample.cable Sample.cable = F64.lit 9922 (-2)
  /\ f_eqb (F64.lit 9922 (-2)) (F64.lit 100 0) = false.
Proof. split; [|split]; vm_compute; reflexivity. Qed.

(** C8, as the code has it.  Scoring a record against itself earns every
    weight: the score is [round(100 * sum of the weights, 2)], the matched
    attributes are the weighted attributes the record specifies, and nothing is
    mismatched or missing.  For the default weights the score is exactly
    100. *)
Theorem identity_score :
  (forall (e : @SpecMatchEngine F64.t) (r : ExtractedAttributes),
      calculate_match_score e r r
      = (percentage (py_sum (map snd (weights e))),
         map fst (filter (specified_in (to_normalized_dict r)) (weights e)),
         [], []))
  /\ (forall r : ExtractedAttributes,
      match_score (@default_engine F64.t _) r r = F64.lit 100 0).
Proof.
  assert (A : forall (e : @SpecMatchEngine F64.t) (r : ExtractedAttributes),
      calculate_match_score e r r
      = (percentage (py_sum (map snd (weights e))),
         map fst (filter (specified_in (to_normalized_dict r)) (weights e)),
         [], [])).
  { intros e r. unfold calculate_match_score.
    rewrite score_loop_same. reflexivity. }
  split; [exact A|].
  intros r. unfold match_score. rewrite A. vm_compute. reflexivity.
Qed.

(** ** Core count *)

Section CoreCount.

Open Scope string_scope.

Lemma compare_core_count (a b : Z) :
  @_compare_attribute F64.t _ "core_count" (PInt a) (PInt b)
  = if Z.eqb a b then one else zero.
Proof.
  unfold _compare_attribute. cbn [normalize_pyval pyval_eqb].
  destruct (Z.eqb a b); reflexivity.
Qed.

Lemma score_core_count_mismatch (e : @SpecMatchEngine F64.t)
  (r : ExtractedAttributes) (a b : Z) :
  core_count r = Some a -> a <> b ->
  calculate_match_score e r (with_core_count r (Some b))
  = (percentage (py_sum (map snd (filter (not_key "core_count") (weights e)))),
     map fst (filter (fun kv => specified_in (to_normalized_dict r) kv
                                && not_key "core_count" kv)%bool (weights e)),
     map fst (filter (is_key "core_count") (weights e)),
     []).
Proof.
  intros Ha Hab. unfold calculate_match_score.
  rewrite (score_loop_one_mismatch "core_count" (PInt a) (PInt b)).
  - reflexivity.
  - intros k Hk. now apply dict_other_than_core_count.
  - now rewrite dict_core_count, Ha.
  - now rewrite dict_core_count.
  - rewrite compare_core_count.
    destruct (Z.eqb_spec a b); [contradiction | reflexivity].
Qed.

(** C6, counterexample.  The weights 0.5 (voltage) and 0.4921875 (core
    count) pass the check of [__init__].  With equal voltages and core counts
    3 and 4 the score is 50, while 100 minus 100 times the weight of the core
    count is 50.78125. *)
Lemma core_count_mismatch_not_complement :
  init (Some Sample.weights_two) = inl {| weights := Sample.weights_two |}
  /\ match_score {| weights := Sample.weights_two |}
       Sample.cable (with_core_count Sample.cable (Some 4%Z)) = F64.lit 50 0
  /\ f_sub (F64.lit 100 0) (f_mul (F64.lit 4921875 (-7)) (F64.lit 100 0))
     = F64.lit 5078125 (-5)
  /\ f_eqb (F64.lit 50 0) (F64.lit 5078125 (-5)) = false.
Proof. split; [|split; [|split]]; vm_compute; reflexivity. Qed.

(** C6, as the code has it.  On two present core counts the comparison gives
    credit 1 when they are equal and credit 0 otherwise.  When the candidate
    differs from the requirement in the core count only, every other weight
    is earned: the score is [round(100 * sum of the other weights, 2)], the
    core count is the one mismatched attribute and nothing is missing.  For
    the default weights this score is exactly 85 = 100 - 0.15 * 100. *)
Theorem core_count_no_partial_credit :
  (forall a b : Z,
      @_compare_attribute F64.t _ "core_count" (PInt a) (PInt b)
      = if Z.eqb a b then one else zero)
  /\ (forall (e : @SpecMatchEngine F64.t) (r : ExtractedAttributes) (a b : Z),
      core_count r = Some a -> a <> b ->
      calculate_match_score e r (with_core_count r (Some b))
      = (percentage
           (py_sum (map snd (filter (not_key "core_count") (weights e)))),
         map fst (filter (fun kv => specified_in (to_normalized_dict r) kv
                                    && not_key "core_count" kv)%bool
                         (weights e)),
         map fst (filter (is_key "core_count") (weights e)),
         []))
  /\ (forall (r : ExtractedAttributes) (a b : Z),
      core_count r = Some a -> a <> b ->
      match_score (@default_engine F64.t _) r (with_core_count r (Some b))
      = F64.lit 85 0)
  /\ f_sub (F64.lit 100 0) (f_mul (F64.lit 15 (-2)) (F64.lit 100 0))
     = F64.lit 85 0.
Proof.
  split; [exact compare_core_count|].
  split; [exact score_core_count_mismatch|].
  split; [|vm_compute; reflexivity].
  intros r a b Ha Hab. unfold match_score.
  rewrite (score_core_count_mismatch _ r a b Ha Hab). vm_compute. reflexivity.
Qed.

Lemma core_count_no_partial_credit_witness :
  calculate_match_score (@default_engine F64.t _)
    Sample.cable (with_core_count Sample.cable (Some 4%Z))
  = (F64.lit 85 0,
     ["voltage"; "conductor_material"; "cross_section"; "insulation";
      "armouring"; "sheathing"],
     ["core_count"], []).
Proof.
  destruct core_count_no_partial_credit as (_ & Hscore & _).
  rewrite (Hscore default_engine Sample.cable 3%Z 4%Z eq_refl);
    [vm_compute; reflexivity | discriminate].
Defined.

End CoreCount.

(** ** Re-normalising *)

Lemma normalize_pyval_idem (v : pyval) :
  normalize_pyval (normalize_pyval v) = normalize_pyval v.
Proof. destruct v; simpl; [now rewrite normalize_value_idem | reflexivity]. Qed.

(** C10.  [normalize_value] is idempotent on every string; every canonical
    name of the synonym table is a fixed point; and normalising the two
    values before [_compare_attribute] normalises them again leaves the
    credit unchanged. *)
Theorem normalize_value_idempotent :
  (forall value : string,
      normalize_value (normalize_value value) = normalize_value value)
  /\ (forall kv : string * string,
      In kv Config.NORMALIZED_VALUES -> normalize_value (snd kv) = snd kv)
  /\ (forall (attr : string) (r o : pyval),
      @_compare_attribute F64.t _ attr (normalize_pyval r) (normalize_pyval o)
      = _compare_attribute attr r o).
Proof.
  split; [exact normalize_value_idem|]. split.
  - intros kv Hin. pose proof table_values_fixed as T.
    rewrite forallb_forall in T. now apply String.eqb_eq, T.
  - intros attr r o. unfold _compare_attribute.
    now rewrite !normalize_pyval_idem.
Qed.

Lemma normalize_value_idempotent_witness :
  normalize_value "gi_strip" = "gi_strip"%string.
Proof.
  destruct normalize_value_idempotent as (_ & Hfix & _).
  apply (Hfix ("gi strip", "gi_strip")%string).
  vm_compute. tauto.
Defined.

(** ** Voltage and cross section *)

Section NumericComparators.

Open Scope string_scope.

Lemma SFltb_asym (x y : spec_float) : SFltb y x = true -> SFltb x y = false.
Proof.
  unfold SFltb. rewrite (SFcompare_antisym x y).
  destruct (SFcompare x y) as [[]|]; simpl; congruence.
Qed.







Lemma score_step_no_credit (rfp oem : list (string * pyval)) (t : @Tally F64.t)
  (attr : string) (weight : F64.t) (r o : pyval) :
  dict_get attr rfp = Some r -> dict_get attr oem = Some o ->
  @_compare_attribute F64.t _ attr r o = zero ->
  score_step rfp oem t (attr, weight)
  = {| score := score t; matched := matched t;
       mismatched := mismatched t ++ [attr]; missing := missing t |}.
Proof.
  intros Hr Ho Hc.
  rewrite (score_step_compared rfp oem t attr weight r o Hr Ho).
  cbn zeta. rewrite Hc. reflexivity.
Qed.



End NumericComparators.

(** ** Range of the score *)

Section Shares.

Context {F : Type} `{LiteralFacts F}.

Lemma compare_numbers_values (higher x y : F) :
  compare_numbers higher x y = one \/ compare_numbers higher x y = higher
  \/ compare_numbers higher x y = zero.
Proof.
  unfold compare_numbers.
  destruct (within_tenth x y); [now left|].
  destruct (f_ltb x y); [right; now left | right; now right].
Qed.

(** The four credits [_compare_attribute] can return. *)
Lemma compare_attribute_values (attr : string) (r o : pyval) :
  _compare_attribute attr r o = one
  \/ _compare_attribute attr r o = f_lit 8 (-1)
  \/ _compare_attribute attr r o = f_lit 9 (-1)
  \/ _compare_attribute attr r o = zero.
Proof.
  unfold _compare_attribute.
  destruct (pyval_eqb (normalize_pyval r) (normalize_pyval o)); [now left|].
  destruct (String.eqb attr "voltage").
  { unfold _compare_voltage.
    destruct (normalize_pyval r) as [rs|]; [|now repeat right].
    destruct (normalize_pyval o) as [os|]; [|now repeat right].
    destruct (py_float (voltage_digits rs)) as [x|]; [|now repeat right].
    destruct (py_float (voltage_digits os)) as [y|]; [|now repeat right].
    destruct (compare_numbers_values (f_lit 8 (-1)) x y) as [E|[E|E]];
      rewrite E; tauto. }
  destruct (String.eqb attr "cross_section").
  { unfold _compare_cross_section.
    destruct (normalize_pyval r) as [rs|]; [|now repeat right].
    destruct (normalize_pyval o) as [os|]; [|now repeat right].
    destruct (py_float (cross_section_digits rs)) as [x|]; [|now repeat right].
    destruct (py_float (cross_section_digits os)) as [y|]; [|now repeat right].
    destruct (compare_numbers_values (f_lit 9 (-1)) x y) as [E|[E|E]];
      rewrite E; tauto. }
  destruct (String.eqb attr "core_count"); now repeat right.
Qed.



End Shares.




(** ** Exact arithmetic *)

#[global] Instance Exact_literals : LiteralFacts Exact.t.
Proof. split; vm_compute; auto. Qed.

Section Rounding.

Open Scope Z_scope.




End Rounding.

Section ExactBounds.

Open Scope Q_scope.

Import Exact Lqa.










End ExactBounds.




(** ** Counting dictionaries *)

Section Counting.

Import VectorDb.

Lemma dict_incr_keys (k : string) (d : list (string * nat)) (k' : string) :
  In k' (map fst (dict_incr k d)) <-> k' = k \/ In k' (map fst d).
Proof.
  induction d as [|[k0 n] d IH]; simpl.
  - split; [intros [<-|[]]; now left | intros [->|[]]; now left].
  - destruct (String.eqb_spec k k0) as [->|Hne]; simpl.
    + split; [tauto | intros [->|H]; tauto].
    + rewrite IH. tauto.
Qed.

Lemma dict_incr_NoDup (k : string) (d : list (string * nat)) :
  NoDup (map fst d) -> NoDup (map fst (dict_incr k d)).
Proof.
  induction d as [|[k0 n] d IH]; simpl; intros Hd.
  - constructor; [intros [] | constructor].
  - destruct (String.eqb_spec k k0) as [->|Hne]; simpl; [exact Hd|].
    inversion Hd as [|? ? Hnot Hrest]; subst. constructor.
    + rewrite dict_incr_keys. intros [->|H]; [now apply Hne | now apply Hnot].
    + now apply IH.
Qed.

Lemma count_all_NoDup (words : list string) (d : list (string * nat)) :
  NoDup (map fst d) -> NoDup (map fst (count_all words d)).
Proof.
  revert d. induction words as [|w words IH]; intros d Hd; [exact Hd|].
  apply IH. now apply dict_incr_NoDup.
Qed.

Lemma count_all_keys (words : list string) (d : list (string * nat))
  (k : string) :
  In k (map fst (count_all words d)) <-> In k words \/ In k (map fst d).
Proof.
  revert d. induction words as [|w words IH]; intros d; simpl.
  - tauto.
  - unfold count_all in *. simpl. rewrite IH, dict_incr_keys.
    split; [intros [H|[->|H]] | intros [[->|H]|H]]; tauto.
Qed.

(** Every count of a counting dictionary built from nothing is positive. *)
Lemma dict_incr_positive (k : string) (d : list (string * nat)) :
  Forall (fun wc => (1 <= snd wc)%nat) d ->
  Forall (fun wc => (1 <= snd wc)%nat) (dict_incr k d).
Proof.
  induction d as [|[k0 n] d IH]; simpl; intros Hd.
  - repeat constructor.
  - inversion Hd; subst.
    destruct (String.eqb k k0); constructor; simpl in *; auto with arith.
Qed.

Lemma count_all_positive (words : list string) (d : list (string * nat)) :
  Forall (fun wc => (1 <= snd wc)%nat) d ->
  Forall (fun wc => (1 <= snd wc)%nat) (count_all words d).
Proof.
  revert d. induction words as [|w words IH]; intros d Hd; [exact Hd|].
  apply IH. now apply dict_incr_positive.
Qed.

Lemma max_tf_bound (tf : list (string * nat)) (wc : string * nat) :
  In wc tf -> (snd wc <= max_tf tf)%nat.
Proof.
  intros Hin. unfold max_tf. destruct tf as [|x tf]; [destruct Hin|].
  revert Hin. generalize (x :: tf). clear x tf.
  induction l as [|y l IH]; simpl; intros Hin; [destruct Hin|].
  destruct Hin as [->|Hin]; [apply Nat.le_max_l|].
  etransitivity; [now apply IH | apply Nat.le_max_r].
Qed.

Lemma insert_desc_perm (x : string * nat) (l : list (string * nat)) :
  Permutation (insert_desc x l) (x :: l).
Proof.
  induction l as [|y l IH]; simpl; [reflexivity|].
  destruct (snd x <? snd y)%nat; [|reflexivity].
  rewrite IH. apply perm_swap.
Qed.

Lemma sorted_desc_perm (l : list (string * nat)) : Permutation (sorted_desc l) l.
Proof.
  induction l as [|x l IH]; simpl; [reflexivity|].
  rewrite insert_desc_perm. now constructor.
Qed.

Lemma In_prefix {A : Type} (n : nat) (l : list A) (x : A) :
  In x (firstn n l) -> In x l.
Proof.
  revert n. induction l as [|y l IH]; intros [|n]; simpl; try tauto.
  intros [->|H]; [now left | right; now apply (IH n)].
Qed.

Lemma NoDup_prefix {A : Type} (n : nat) (l : list A) :
  NoDup l -> NoDup (firstn n l).
Proof.
  revert n. induction l as [|x l IH]; intros [|n] Hl; simpl;
    try constructor.
  - inversion Hl; subst. intros Hin. apply In_prefix in Hin. contradiction.
  - inversion Hl; subst. now apply IH.
Qed.

End Counting.

(** ** The fitted embedder *)

Section Fitted.

Import VectorDb.

Variable set_iter : list string -> list string.

Lemma doc_freq_NoDup (texts : list string) :
  NoDup (map fst (doc_freq set_iter texts)).
Proof.
  unfold doc_freq.
  assert (G : forall d, NoDup (map fst d) ->
              NoDup (map fst (fold_left
                (fun df text => count_all (set_iter (_tokenize text)) df)
                texts d))).
  { induction texts as [|t texts IH]; intros d Hd; [exact Hd|].
    simpl. apply IH. now apply count_all_NoDup. }
  apply G. constructor.
Qed.

Lemma top_words_NoDup (D : nat) (texts : list string) :
  NoDup (map fst (top_words set_iter D texts)).
Proof.
  unfold top_words. rewrite <- firstn_map. apply NoDup_prefix.
  eapply Permutation_NoDup; [|apply doc_freq_NoDup].
  apply Permutation_map, Permutation_sym, sorted_desc_perm.
Qed.

Lemma top_words_length (D : nat) (texts : list string) :
  (length (top_words set_iter D texts) <= D)%nat.
Proof. unfold top_words. rewrite length_firstn. apply Nat.le_min_l. Qed.

(** Looking a word up in a dictionary built by [enumerate]. *)
Lemma dict_get_enumerate (ws : list string) (n s : nat) (w : string) (i : nat) :
  n = length ws ->
  dict_get w (combine ws (seq s n)) = Some i ->
  In w ws /\ (s <= i < s + length ws)%nat /\ nth_error ws (i - s) = Some w.
Proof.
  intros ->.
  revert s. induction ws as [|w0 ws IH]; intros s; simpl; [discriminate|].
  destruct (String.eqb_spec w w0) as [->|Hne].
  - intros [= <-]. rewrite Nat.sub_diag. simpl. repeat split; auto; lia.
  - intros H. apply IH in H as (Hin & Hr & Hn). repeat split; auto; try lia.
    replace (i - s)%nat with (S (i - S s)) by lia. exact Hn.
Qed.

Lemma vocabulary_index_bound (D : nat) (texts : list string) (w : string)
  (i : nat) :
  dict_get w (vocabulary (fit set_iter (new_embedder D) texts)) = Some i ->
  (i < D)%nat.
Proof.
  simpl. intros H.
  pose proof (top_words_length D texts) as L.
  apply dict_get_enumerate in H as (_ & Hr & _);
    [|now rewrite length_map].
  rewrite length_map in Hr. lia.
Qed.

Lemma vocabulary_injective (D : nat) (texts : list string) (w w' : string)
  (i : nat) :
  dict_get w (vocabulary (fit set_iter (new_embedder D) texts)) = Some i ->
  dict_get w' (vocabulary (fit set_iter (new_embedder D) texts)) = Some i ->
  w = w'.
Proof.
  simpl. intros H H'.
  apply dict_get_enumerate in H as (_ & _ & Hn); [|now rewrite length_map].
  apply dict_get_enumerate in H' as (_ & _ & Hn'); [|now rewrite length_map].
  congruence.
Qed.

End Fitted.

(** ** Vectors *)

Section Vectors.

Import VectorDb Lra.

Open Scope R_scope.

Lemma write_Some (v : list R) (idx : nat) (x : R) :
  (idx < length v)%nat -> exists v', write v idx x = Some v'.
Proof.
  revert idx. induction v as [|y v IH]; intros [|i] Hi; simpl in *; try lia.
  - eexists; reflexivity.
  - destruct (IH i ltac:(lia)) as [v' ->]. eexists; reflexivity.
Qed.

Lemma write_length (v v' : list R) (idx : nat) (x : R) :
  write v idx x = Some v' -> length v' = length v.
Proof.
  revert idx v'. induction v as [|y v IH]; intros [|i] v'; simpl;
    try discriminate.
  - now intros [= <-].
  - destruct (write v i x) as [u|] eqn:E; [|discriminate].
    intros [= <-]. simpl. f_equal. now apply (IH i).
Qed.

Lemma write_nth_same (v v' : list R) (idx : nat) (x : R) :
  write v idx x = Some v' -> nth idx v' 0 = x.
Proof.
  revert idx v'. induction v as [|y v IH]; intros [|i] v'; simpl;
    try discriminate.
  - now intros [= <-].
  - destruct (write v i x) as [u|] eqn:E; [|discriminate].
    intros [= <-]. simpl. now apply IH.
Qed.

Lemma write_nth_other (v v' : list R) (idx j : nat) (x : R) :
  write v idx x = Some v' -> j <> idx -> nth j v' 0 = nth j v 0.
Proof.
  revert idx j v'. induction v as [|y v IH]; intros [|i] [|j] v'; simpl;
    try discriminate; try congruence.
  - now intros [= <-].
  - destruct (write v i x) as [u|] eqn:E; [|discriminate].
    now intros [= <-].
  - destruct (write v i x) as [u|] eqn:E; [|discriminate].
    intros [= <-] Hne. simpl. apply (IH i); [exact E | congruence].
Qed.

Lemma sum_squares_nonneg (v : list R) : 0 <= sum_squares v.
Proof. induction v as [|x v IH]; simpl; [lra | nra]. Qed.

Lemma sum_squares_zeros (n : nat) : sum_squares (zeros n) = 0.
Proof. induction n as [|n IH]; simpl; [reflexivity|]. fold (zeros n). rewrite IH. lra. Qed.

(** A vector with a non-zero entry has a positive sum of squares. *)
Lemma sum_squares_positive (v : list R) (i : nat) :
  nth i v 0 <> 0 -> 0 < sum_squares v.
Proof.
  revert i. induction v as [|x v IH]; intros [|i]; simpl; try tauto.
  - intros Hx. pose proof (sum_squares_nonneg v). nra.
  - intros H. apply IH in H. nra.
Qed.

Lemma sum_squares_scaled (v : list R) (s : R) :
  sum_squares (map (fun x => x / s) v) = sum_squares v / (s * s).
Proof.
  induction v as [|x v IH]; simpl.
  - unfold Rdiv. now rewrite Rmult_0_l.
  - rewrite IH. unfold Rdiv.
    destruct (Req_dec s 0) as [->|Hs].
    + rewrite Rmult_0_l, Rinv_0. lra.
    + field. exact Hs.
Qed.

Lemma norm_zeros (n : nat) : norm (zeros n) = 0.
Proof. unfold norm. rewrite sum_squares_zeros. apply sqrt_0. Qed.

Lemma normalize_zeros (n : nat) : normalize (zeros n) = zeros n.
Proof.
  unfold normalize. rewrite norm_zeros.
  destruct (Rlt_dec 0 0); [lra | reflexivity].
Qed.

(** The guard of [embed]: a vector of norm 0 is returned as it is, and the
    division is by a positive norm otherwise. *)
Lemma normalize_cases (v : list R) :
  (norm v = 0 /\ normalize v = v)
  \/ (0 < norm v /\ normalize v = map (fun x => x / norm v) v).
Proof.
  unfold normalize. destruct (Rlt_dec 0 (norm v)) as [Hpos|Hnot].
  - right. split; [exact Hpos | reflexivity].
  - left. split; [|reflexivity].
    pose proof (sqrt_pos (sum_squares v)). unfold norm in *. lra.
Qed.

Lemma normalize_length (v : list R) : length (normalize v) = length v.
Proof.
  unfold normalize. destruct (Rlt_dec 0 (norm v)); [apply length_map | reflexivity].
Qed.

(** A vector with a non-zero entry is normalised to norm 1. *)
Lemma normalize_unit (v : list R) (i : nat) :
  nth i v 0 <> 0 -> norm (normalize v) = 1.
Proof.
  intros Hi. apply sum_squares_positive in Hi.
  assert (Hn : 0 < norm v) by (unfold norm; now apply sqrt_lt_R0).
  unfold normalize. destruct (Rlt_dec 0 (norm v)); [|contradiction].
  unfold norm at 1. rewrite sum_squares_scaled.
  unfold norm. rewrite sqrt_sqrt by lra.
  replace (sum_squares v / sum_squares v) with 1 by (field; lra).
  apply sqrt_1.
Qed.

End Vectors.

(** ** Filling the vector *)

Section Filling.

Import VectorDb Lra.

Open Scope R_scope.

Variable e : SimpleEmbedder.
Variable m : nat.

Lemma fill_error (tf : list (string * nat)) (x : error) :
  fold_left (fill_step e m) tf (Err x) = Err x.
Proof. induction tf as [|wc tf IH]; [reflexivity | exact IH]. Qed.

Lemma fill_succeeds (tf : list (string * nat)) (v0 : list R) :
  well_indexed e -> length v0 = dimension e ->
  exists v, fold_left (fill_step e m) tf (Ok v0) = Ok v
            /\ length v = dimension e.
Proof.
  intros [Hidx _]. revert v0.
  induction tf as [|[w c] tf IH]; intros v0 Hlen; simpl.
  - now exists v0.
  - destruct (dict_get w (vocabulary e)) as [i|] eqn:E; [|now apply IH].
    destruct (write_Some v0 i (weight_of e m w c)) as [v1 Hw];
      [rewrite Hlen; now apply (Hidx w)|].
    rewrite Hw. apply IH. now rewrite (write_length _ _ _ _ Hw).
Qed.

Lemma fill_nothing (tf : list (string * nat)) (v0 : list R) :
  (forall wc, In wc tf -> dict_get (fst wc) (vocabulary e) = None) ->
  fold_left (fill_step e m) tf (Ok v0) = Ok v0.
Proof.
  induction tf as [|[w c] tf IH]; intros Hno; simpl; [reflexivity|].
  pose proof (Hno (w, c) (or_introl eq_refl)) as Hw. simpl in Hw.
  rewrite Hw. apply IH. intros wc Hin. apply Hno. now right.
Qed.

Lemma fill_keeps (tf : list (string * nat)) (v0 v : list R) (idx : nat) :
  (forall wc, In wc tf -> dict_get (fst wc) (vocabulary e) <> Some idx) ->
  fold_left (fill_step e m) tf (Ok v0) = Ok v ->
  nth idx v 0 = nth idx v0 0.
Proof.
  revert v0. induction tf as [|[w c] tf IH]; intros v0 Hno; simpl.
  - now intros [= <-].
  - assert (Hrest : forall wc, In wc tf ->
                      dict_get (fst wc) (vocabulary e) <> Some idx)
      by (intros wc Hin; apply Hno; now right).
    pose proof (Hno (w, c) (or_introl eq_refl)) as Hw. simpl in Hw.
    destruct (dict_get w (vocabulary e)) as [i|]; [|now apply IH].
    destruct (write v0 i (weight_of e m w c)) as [v1|] eqn:E.
    + intros Hv. rewrite (IH v1 Hrest Hv).
      apply (write_nth_other _ _ _ _ _ E). congruence.
    + rewrite fill_error. discriminate.
Qed.

Lemma fill_writes (tf : list (string * nat)) (v0 v : list R) (w : string)
  (c idx : nat) :
  well_indexed e -> NoDup (map fst tf) -> In (w, c) tf ->
  dict_get w (vocabulary e) = Some idx ->
  fold_left (fill_step e m) tf (Ok v0) = Ok v ->
  nth idx v 0 = weight_of e m w c.
Proof.
  intros [_ Hinj]. revert v0.
  induction tf as [|[w0 c0] tf IH]; intros v0 Hnd Hin Hw; [destruct Hin|].
  simpl in Hnd. inversion Hnd as [|? ? Hnot Hnd']; subst.
  destruct Hin as [[= -> ->]|Hin]; simpl.
  - rewrite Hw. destruct (write v0 idx (weight_of e m w c)) as [v1|] eqn:E.
    + intros Hv. rewrite (fill_keeps tf v1 v idx); [|  | exact Hv].
      * now apply (write_nth_same _ _ _ _ E).
      * intros [w' c'] Hin' Hw'. simpl in Hw'.
        rewrite (Hinj _ _ _ Hw' Hw) in Hin'.
        apply Hnot. now apply (in_map fst) in Hin'.
    + rewrite fill_error. discriminate.
  - destruct (dict_get w0 (vocabulary e)) as [i|]; [|now apply IH].
    destruct (write v0 i (weight_of e m w0 c0)) as [v1|].
    + now apply IH.
    + rewrite fill_error. discriminate.
Qed.

End Filling.

(** ** [embed] on a fitted embedder *)

Section Embed.

Import VectorDb Lra.

Open Scope R_scope.

Variable set_iter : list string -> list string.

Lemma fit_well_indexed (D : nat) (texts : list string) :
  well_indexed (fit set_iter (new_embedder D) texts).
Proof.
  split.
  - intros w i. apply vocabulary_index_bound.
  - intros w w' i. apply vocabulary_injective.
Qed.

Lemma zeros_length (n : nat) : length (zeros n) = n.
Proof. apply repeat_length. Qed.

Lemma raw_vector_succeeds (e : SimpleEmbedder) (text : string) :
  well_indexed e ->
  exists v, raw_vector e text = Ok v /\ length v = dimension e.
Proof.
  intros He. unfold raw_vector. apply fill_succeeds; [exact He|].
  apply zeros_length.
Qed.

Lemma embed_fitted (e : SimpleEmbedder) (text : string) :
  well_indexed e -> fitted e = true ->
  exists raw, raw_vector e text = Ok raw /\ length raw = dimension e
              /\ embed e text = Ok (normalize raw).
Proof.
  intros He Hf. destruct (raw_vector_succeeds e text He) as (raw & Hr & Hl).
  exists raw. repeat split; auto. unfold embed. now rewrite Hf, Hr.
Qed.

(** A word of the text has an entry in the term counts. *)
Lemma term_count_of_token (words : list string) (w : string) :
  In w words ->
  exists c, In (w, c) (count_all words []) /\ (1 <= c)%nat.
Proof.
  intros Hin.
  assert (Hk : In w (map fst (count_all words [])))
    by (apply count_all_keys; now left).
  apply in_map_iff in Hk as ([w' c] & Hw & Hwc). simpl in Hw. subst w'.
  exists c. split; [exact Hwc|].
  pose proof (count_all_positive words [] (Forall_nil _)) as P.
  rewrite Forall_forall in P. exact (P _ Hwc).
Qed.

End Embed.

(** ** Normalisation of embeddings *)

Section Normalisation.

Import VectorDb Lra.

Open Scope R_scope.

Lemma weight_nonzero (e : SimpleEmbedder) (tf : list (string * nat))
  (w : string) (c : nat) :
  In (w, c) tf -> (1 <= c)%nat -> idf_get e w <> 0 ->
  weight_of e (max_tf tf) w c <> 0.
Proof.
  intros Hin Hc Hidf. unfold weight_of.
  pose proof (max_tf_bound tf (w, c) Hin) as Hm. simpl in Hm.
  assert (0 < INR c) by (apply lt_0_INR; lia).
  assert (0 < INR (max_tf tf)) by (apply lt_0_INR; lia).
  apply Rmult_integral_contrapositive_currified; [|exact Hidf].
  unfold Rdiv. apply Rmult_integral_contrapositive_currified; [lra|].
  apply Rinv_neq_0_compat. lra.
Qed.

(** C9.  For an embedder fitted on any corpus, with any dimension D, and any
    text: [embed] returns a vector of dimension D; the division by the norm
    is made only when the norm is positive, and a vector of norm 0 is
    returned as it is.  When no token of the text is in the vocabulary the
    result is the zero vector.  When a token of the text is in the vocabulary
    with a non-zero idf (so its weight tf * idf is not zero) the result has
    Euclidean norm 1. *)
Theorem embed_zero_or_unit (set_iter : list string -> list string) (D : nat)
  (corpus : list string) (text : string) :
  let e := fit set_iter (new_embedder D) corpus in
  exists raw,
    raw_vector e text = Ok raw
    /\ length raw = D
    /\ embed e text = Ok (normalize raw)
    /\ ((norm raw = 0 /\ normalize raw = raw)
        \/ (0 < norm raw
            /\ normalize raw = map (fun x => x / norm raw) raw))
    /\ ((forall w, In w (_tokenize text) ->
                   dict_get w (vocabulary e) = None) ->
        embed e text = Ok (zeros D))
    /\ ((exists w, In w (_tokenize text)
                   /\ dict_get w (vocabulary e) <> None
                   /\ idf_get e w <> 0) ->
        norm (normalize raw) = 1).
Proof.
  intros e.
  pose proof (fit_well_indexed set_iter D corpus) as He. fold e in He.
  destruct (embed_fitted e text He eq_refl) as (raw & Hraw & Hlen & Hemb).
  exists raw. split; [exact Hraw|]. split; [exact Hlen|].
  split; [exact Hemb|]. split; [apply normalize_cases|]. split.
  - intros Hnone. rewrite Hemb.
    assert (raw = zeros D) as ->; [|now rewrite normalize_zeros].
    unfold raw_vector in Hraw. rewrite fill_nothing in Hraw.
    + now injection Hraw as <-.
    + intros [w c] Hin. apply Hnone.
      apply (in_map fst) in Hin.
      apply count_all_keys in Hin as [Hin|[]]. exact Hin.
  - intros (w & Hin & Hvoc & Hidf).
    destruct (dict_get w (vocabulary e)) as [idx|] eqn:Eidx; [|congruence].
    destruct (term_count_of_token _ w Hin) as (c & Hc & Hpos).
    apply (normalize_unit raw idx).
    unfold raw_vector in Hraw.
    rewrite (fill_writes e _ _ _ raw w c idx He
               (count_all_NoDup _ [] (NoDup_nil _)) Hc Eidx Hraw).
    now apply weight_nonzero.
Qed.

Lemma embed_zero_or_unit_witness :
  embed (fit first_occurrences (new_embedder 2) ["copper cable"%string])
        "aluminium"
  = Ok (zeros 2).
Proof.
  destruct (embed_zero_or_unit first_occurrences 2 ["copper cable"%string]
              "aluminium") as (raw & _ & _ & _ & _ & Hzero & _).
  apply Hzero. intros w Hin. vm_compute in Hin.
  destruct Hin as [<-|[]]. reflexivity.
Defined.

End Normalisation.

(** ** Sorting positions *)

Section SortingPositions.

Import VectorDb Lra.

Open Scope R_scope.

Variable key : nat -> R.

Lemma insert_by_perm (i : nat) (l : list nat) :
  Permutation (insert_by key i l) (i :: l).
Proof.
  induction l as [|j l IH]; simpl; [reflexivity|].
  destruct (Rle_dec (key i) (key j)); [reflexivity|].
  rewrite IH. apply perm_swap.
Qed.

Lemma sort_by_perm (l : list nat) : Permutation (sort_by key l) l.
Proof.
  induction l as [|i l IH]; simpl; [reflexivity|].
  rewrite insert_by_perm. now constructor.
Qed.

Lemma insert_by_sorted (i : nat) (l : list nat) :
  StronglySorted (key_le key) l -> StronglySorted (key_le key) (insert_by key i l).
Proof.
  induction l as [|j l IH]; simpl; intros Hl.
  - repeat constructor.
  - inversion Hl as [|? ? Hrest Hall]; subst.
    destruct (Rle_dec (key i) (key j)) as [Hle|Hgt].
    + constructor; [exact Hl|]. constructor; [exact Hle|].
      rewrite Forall_forall in *. intros x Hx. unfold key_le in *.
      specialize (Hall x Hx). lra.
    + constructor; [now apply IH|].
      rewrite Forall_forall in *. intros x Hx.
      apply (Permutation_in _ (insert_by_perm i l)) in Hx.
      destruct Hx as [<-|Hx]; [unfold key_le; lra | now apply Hall].
Qed.

Lemma sort_by_sorted (l : list nat) : StronglySorted (key_le key) (sort_by key l).
Proof.
  induction l as [|i l IH]; simpl; [constructor | now apply insert_by_sorted].
Qed.

Lemma sorted_prefix (n : nat) (l : list nat) :
  StronglySorted (key_le key) l -> StronglySorted (key_le key) (firstn n l).
Proof.
  revert n. induction l as [|i l IH]; intros [|n] Hl; simpl;
    try constructor.
  - inversion Hl; subst. now apply IH.
  - inversion Hl as [|? ? _ Hall]; subst.
    rewrite Forall_forall in *. intros x Hx. apply Hall.
    now apply In_prefix in Hx.
Qed.

(** In a sorted list, what is taken by [firstn] is below what is left. *)
Lemma sorted_prefix_below (n : nat) (l : list nat) (i j : nat) :
  StronglySorted (key_le key) l -> NoDup l ->
  In i (firstn n l) -> In j l -> ~ In j (firstn n l) -> (key_le key) i j.
Proof.
  revert n. induction l as [|x l IH]; intros [|n] Hl Hnd Hi Hj Hnot;
    simpl in *; try tauto.
  inversion Hl as [|? ? Hrest Hall]; subst.
  inversion Hnd as [|? ? Hx Hnd']; subst.
  destruct Hj as [->|Hj]; [tauto|].
  destruct Hi as [->|Hi].
  - rewrite Forall_forall in Hall. now apply Hall.
  - apply (IH n); auto.
Qed.

Lemma prefix_ranked (n k : nat) (l : list nat) :
  Permutation l (seq 0 n) -> StronglySorted (key_le key) l ->
  ranked key n (firstn k l) /\ length (firstn k l) = Nat.min k n.
Proof.
  intros Hperm Hsorted.
  assert (Hnd : NoDup l)
    by (eapply Permutation_NoDup; [apply Permutation_sym, Hperm | apply seq_NoDup]).
  assert (Hin : forall i, In i l <-> (i < n)%nat).
  { intros i. split; intros Hi.
    - apply (Permutation_in _ Hperm), in_seq in Hi. lia.
    - apply (Permutation_in _ (Permutation_sym Hperm)), in_seq. lia. }
  split; [split; [|split; [|split]]|].
  - now apply NoDup_prefix.
  - apply Forall_forall. intros i Hi. apply Hin. now apply In_prefix in Hi.
  - now apply sorted_prefix.
  - intros i j Hi Hj Hnot.
    apply (sorted_prefix_below k l); auto. now apply Hin.
  - rewrite length_firstn, (Permutation_length Hperm), length_seq. reflexivity.
Qed.

End SortingPositions.

Section Reversal.

Import VectorDb Lra.

Open Scope R_scope.

Lemma sorted_app_inv {A : Type} (le : A -> A -> Prop) (l1 l2 : list A) :
  StronglySorted le (l1 ++ l2) ->
  StronglySorted le l1 /\ StronglySorted le l2
  /\ (forall x y, In x l1 -> In y l2 -> le x y).
Proof.
  induction l1 as [|a l1 IH]; simpl; intros H.
  - repeat split; [constructor | exact H | intros x y []].
  - inversion H as [|? ? Hrest Hall]; subst.
    destruct (IH Hrest) as (H1 & H2 & H12).
    rewrite Forall_forall in Hall.
    repeat split; auto.
    + constructor; [exact H1|]. apply Forall_forall. intros x Hx.
      apply Hall, in_or_app. now left.
    + intros x y [<-|Hx] Hy; [apply Hall, in_or_app; now right | now apply H12].
Qed.

Lemma sorted_snoc {A : Type} (le : A -> A -> Prop) (l : list A) (a : A) :
  StronglySorted le l -> (forall x, In x l -> le x a) ->
  StronglySorted le (l ++ [a]).
Proof.
  induction l as [|b l IH]; simpl; intros Hl Ha.
  - repeat constructor.
  - inversion Hl as [|? ? Hrest Hall]; subst. constructor.
    + apply IH; auto.
    + apply Forall_forall. intros x Hx. apply in_app_or in Hx as [Hx|[<-|[]]].
      * rewrite Forall_forall in Hall. now apply Hall.
      * apply Ha. now left.
Qed.

(** Reversing an ascending list gives a descending one. *)
Lemma sorted_rev (values : nat -> R) (l : list nat) :
  StronglySorted (key_le values) l ->
  StronglySorted (key_le (fun i => - values i)) (rev l).
Proof.
  induction l as [|a l IH]; simpl; intros Hl; [constructor|].
  inversion Hl as [|? ? Hrest Hall]; subst.
  apply sorted_snoc; [now apply IH|].
  intros x Hx. apply in_rev in Hx. rewrite Forall_forall in Hall.
  specialize (Hall x Hx). unfold key_le in *. lra.
Qed.

End Reversal.

(** ** Building and searching the index *)

Section Search.

Import VectorDb Lra.

Open Scope R_scope.

Variable set_iter : list string -> list string.

Lemma embed_batch_succeeds (e : SimpleEmbedder) (texts : list string) :
  well_indexed e -> fitted e = true ->
  exists embs, embed_batch e texts = Ok embs /\ length embs = length texts.
Proof.
  intros He Hf. induction texts as [|t texts (embs & IH & Hlen)]; simpl.
  - now exists [].
  - destruct (embed_fitted e t He Hf) as (raw & _ & _ & ->). rewrite IH.
    exists (normalize raw :: embs). simpl. now rewrite Hlen.
Qed.

(** Building the index succeeds on every catalog that is not empty. *)
Lemma initialize_succeeds (faiss : bool) (items : list OEMProduct) :
  items <> [] ->
  exists embs,
    embed_batch (fit set_iter (new_embedder Config.EMBEDDING_DIMENSION)
                     (map datasheet_text items))
                (map datasheet_text items) = Ok embs
    /\ length embs = length items
    /\ initialize_from_products set_iter faiss new_database items
       = Ok {| embedder := fit set_iter
                             (new_embedder Config.EMBEDDING_DIMENSION)
                             (map datasheet_text items);
               index := if faiss then Some embs else None;
               embeddings := if faiss then None else Some embs;
               products := items;
               is_initialized := true |}.
Proof.
  intros Hne.
  destruct (embed_batch_succeeds
              (fit set_iter (new_embedder Config.EMBEDDING_DIMENSION)
                   (map datasheet_text items))
              (map datasheet_text items)
              (fit_well_indexed set_iter _ _) eq_refl) as (embs & He & Hl).
  exists embs. rewrite length_map in Hl. repeat split; auto.
  unfold initialize_from_products. destruct items as [|p items]; [congruence|].
  cbn [new_database embedder index embeddings]. rewrite He. reflexivity.
Qed.

Lemma lookup_all_succeeds (items : list OEMProduct) (indices : list nat) :
  Forall (fun i => (i < length items)%nat) indices ->
  exists ps, lookup_all items indices = Some ps
             /\ Forall2 (fun i p => nth_error items i = Some p) indices ps.
Proof.
  induction indices as [|i indices IH]; intros Hall; simpl.
  - exists []. split; [reflexivity | constructor].
  - inversion Hall as [|? ? Hi Hrest]; subst.
    destruct (IH Hrest) as (ps & -> & Hps).
    destruct (nth_error items i) as [p|] eqn:E.
    + exists (p :: ps). split; [reflexivity | now constructor].
    + apply nth_error_None in E. lia.
Qed.

Lemma filter_in_range (n : nat) (l : list nat) :
  Forall (fun i => (i < n)%nat) l -> filter (fun idx => (idx <? n)%nat) l = l.
Proof.
  induction l as [|i l IH]; intros Hall; simpl; [reflexivity|].
  inversion Hall; subst.
  destruct (Nat.ltb_spec i n); [|lia]. now rewrite IH.
Qed.

Lemma nth_map_dot (embs : list (list R)) (q : list R) (i : nat) :
  nth i (map (fun e => dot e q) embs) 0 = dot (nth i embs []) q.
Proof.
  revert i. induction embs as [|e embs IH]; intros [|i]; simpl; auto.
Qed.

Lemma sorted_ext (f g : nat -> R) (l : list nat) :
  (forall i, f i = g i) ->
  StronglySorted (key_le f) l -> StronglySorted (key_le g) l.
Proof.
  intros Hfg. induction 1 as [|a l Hl IH Hall]; constructor; auto.
  rewrite Forall_forall in *. intros x Hx. unfold key_le.
  rewrite <- !Hfg. now apply Hall.
Qed.


Lemma search_with_faiss (items : list OEMProduct) (e : SimpleEmbedder)
  (embs : list (list R)) (q : list R) (query : string) (k : Z) :
  items <> [] -> (0 < k)%Z -> length embs = length items ->
  embed e query = Ok q ->
  let db := {| embedder := e; index := Some embs; embeddings := None;
               products := items; is_initialized := true |} in
  (exists out, similarity_search true db query k out)
  /\ (forall out, similarity_search true db query k out ->
      exists indices ps,
        out = Ok ps
        /\ Forall2 (fun i p => nth_error items i = Some p) indices ps
        /\ length indices = Nat.min (Z.to_nat k) (length items)
        /\ ranked (ranking_key true q embs) (length items) indices).
Proof.
  intros Hne Hk Hlen Hq db.
  assert (Hn : (0 < length items)%nat) by (destruct items; simpl; [congruence|lia]).
  assert (Hk' : (Z.min k (Z.of_nat (length items)) <=? 0)%Z = false)
    by (apply Z.leb_gt; lia).
  assert (Hmin : Z.to_nat (Z.min k (Z.of_nat (length items)))
                 = Nat.min (Z.to_nat k) (length items)) by lia.
  assert (Hshape : forall out,
    similarity_search true db query k out <->
    exists labels,
      faiss_search embs q (Nat.min (Z.to_nat k) (length items)) labels
      /\ out = collect items
                 (filter (fun idx => (idx <? length items)%nat) labels)).
  { intros out. unfold similarity_search.
    cbn [db is_initialized embedder index embeddings products negb].
    rewrite Hq. cbn zeta. rewrite Hk', Hmin. reflexivity. }
  assert (Hfaiss : forall labels,
    faiss_search embs q (Nat.min (Z.to_nat k) (length items)) labels ->
    length labels = Nat.min (Z.to_nat k) (length items)
    /\ ranked (ranking_key true q embs) (length items) labels).
  { intros labels (Hl & Hnd & Hall & Hs & Htop). rewrite Hlen in *.
    split; [exact Hl|]. repeat split; auto. }
  split.
  - destruct (prefix_ranked (ranking_key true q embs) (length items)
                (Z.to_nat k)
                (sort_by (ranking_key true q embs) (seq 0 (length items)))
                (sort_by_perm _ _) (sort_by_sorted _ _)) as [Hr Hl].
    eexists. apply Hshape.
    exists (firstn (Z.to_nat k)
              (sort_by (ranking_key true q embs) (seq 0 (length items)))).
    split; [|reflexivity].
    destruct Hr as (Hnd & Hall & Hs & Htop).
    unfold faiss_search. rewrite Hlen.
    split; [exact Hl|]. split; [exact Hnd|]. split; [exact Hall|].
    split; [exact Hs | exact Htop].
  - intros out Hout. apply Hshape in Hout as (labels & Hf & ->).
    destruct (Hfaiss labels Hf) as (Hl & Hr).
    pose proof Hr as (_ & Hall & _).
    rewrite (filter_in_range _ _ Hall).
    destruct (lookup_all_succeeds items labels Hall) as (ps & Hps & H2).
    exists labels, ps. unfold collect. rewrite Hps. repeat split; auto.
    all: apply Hr.
Qed.

Lemma search_without_faiss (items : list OEMProduct) (e : SimpleEmbedder)
  (embs : list (list R)) (q : list R) (query : string) (k : Z) :
  (0 < k)%Z -> length embs = length items ->
  embed e query = Ok q ->
  let db := {| embedder := e; index := None; embeddings := Some embs;
               products := items; is_initialized := true |} in
  (exists out, similarity_search false db query k out)
  /\ (forall out, similarity_search false db query k out ->
      exists indices ps,
        out = Ok ps
        /\ Forall2 (fun i p => nth_error items i = Some p) indices ps
        /\ length indices = Nat.min (Z.to_nat k) (length items)
        /\ ranked (ranking_key false q embs) (length items) indices).
Proof.
  intros Hk Hlen Hq db.
  set (sims := map (fun e => dot e q) embs).
  assert (Hsims : length sims = length items)
    by (unfold sims; now rewrite length_map).
  assert (Hshape : forall out,
    similarity_search false db query k out <->
    exists perm, argsort sims perm
                 /\ out = collect items (firstn (Z.to_nat k) (rev perm))).
  { intros out. unfold similarity_search, py_slice_to.
    cbn [db is_initialized embedder index embeddings products negb].
    rewrite Hq. destruct (Z.leb_spec 0 k); [reflexivity | lia]. }
  assert (Hrank : forall perm, argsort sims perm ->
    ranked (ranking_key false q embs) (length items)
           (firstn (Z.to_nat k) (rev perm))
    /\ length (firstn (Z.to_nat k) (rev perm))
       = Nat.min (Z.to_nat k) (length items)).
  { intros perm [Hperm Hs]. rewrite Hsims in Hperm.
    apply prefix_ranked.
    - rewrite <- Hperm. apply Permutation_sym, Permutation_rev.
    - apply sorted_rev in Hs. revert Hs. apply sorted_ext.
      intros i. unfold ranking_key, sims. now rewrite nth_map_dot. }
  split.
  - assert (Ha : argsort sims
                   (sort_by (fun i => nth i sims 0) (seq 0 (length sims))))
      by (split; [apply sort_by_perm | apply sort_by_sorted]).
    eexists. apply Hshape. eexists. split; [exact Ha | reflexivity].
  - intros out Hout. apply Hshape in Hout as (perm & Ha & ->).
    destruct (Hrank perm Ha) as (Hr & Hl).
    pose proof Hr as (_ & Hall & _).
    destruct (lookup_all_succeeds items _ Hall) as (ps & Hps & H2).
    exists (firstn (Z.to_nat k) (rev perm)), ps.
    unfold collect. rewrite Hps. repeat split; auto.
    all: apply Hr.
Qed.

End Search.

(** ** Ranking of the results *)

Section Ranking.

Import VectorDb Lra.

Open Scope R_scope.



End Ranking.

(** ** A catalog on which the two rankings differ *)

Section TwoRankings.

Import VectorDb Lra.

Open Scope R_scope.
Open Scope string_scope.


Lemma dot_zeros_r (n : nat) (v : list R) : dot v (zeros n) = 0.
Proof.
  revert v. induction n as [|n IH]; intros [|y v]; simpl; try reflexivity.
  fold (zeros n). rewrite IH. lra.
Qed.








Lemma three_items_built :
  initialize_from_products first_occurrences false new_database three_items
  = Ok {| embedder := fit first_occurrences
                        (new_embedder Config.EMBEDDING_DIMENSION)
                        (map datasheet_text three_items);
          index := None;
          embeddings :=
            Some [ normalize (zeros 384);
                   normalize (INR 1 / INR 1 * idf_one_of_three :: 0
                              :: zeros 382);
                   normalize (0 :: INR 1 / INR 1 * idf_one_of_three
                              :: zeros 382) ];
          products := three_items;
          is_initialized := true |}.
Proof. reflexivity. Qed.







End TwoRankings.

(** ** The three lists of [calculate_match_score] *)

Section Verdicts.

Context {F : Type} `{PyFloat F}.

Implicit Types (t : @Tally F) (w : list (string * F))
  (d : list (string * pyval)).

(** The entries made by one turn of the loop. *)
Lemma score_step_lists d d' t (attr : string) (weight : F) :
  let t' := score_step d d' t (attr, weight) in
  let v := verdict_of d d' attr in
  matched t' = matched t ++ (if verdict_eqb v Matched then [attr] else [])
  /\ mismatched t'
     = mismatched t
       ++ (if (verdict_eqb v Partial || verdict_eqb v Mismatched)%bool
           then [mismatch_label d d' (attr, weight)] else [])
  /\ missing t' = missing t ++ (if verdict_eqb v Missing then [attr] else []).
Proof.
  unfold mismatch_label, score_step, verdict_of. cbn [fst].
  destruct (dict_get attr d) as [r|];
    [|cbn; rewrite !app_nil_r; repeat split].
  destruct (dict_get attr d') as [o|];
    [|cbn; rewrite !app_nil_r; repeat split].
  cbn zeta.
  destruct (f_eqb (_compare_attribute attr r o) one);
    [cbn; rewrite !app_nil_r; repeat split|].
  destruct (f_ltb zero (_compare_attribute attr r o));
    cbn; rewrite !app_nil_r; repeat split.
Qed.

(** The lists after the loop, as selections from the weights. *)
Lemma score_loop_lists w d d' t :
  matched (score_loop w d d' t)
  = matched t ++ map fst (filter (has_verdict d d' Matched) w)
  /\ mismatched (score_loop w d d' t)
     = mismatched t ++ map (mismatch_label d d') (filter (is_mismatch d d') w)
  /\ missing (score_loop w d d' t)
     = missing t ++ map fst (filter (has_verdict d d' Missing) w).
Proof.
  revert t. unfold score_loop.
  induction w as [|[attr weight] w IH]; intros t.
  - simpl. now rewrite !app_nil_r.
  - cbn [fold_left filter].
    destruct (IH (score_step d d' t (attr, weight))) as (-> & -> & ->).
    destruct (score_step_lists d d' t attr weight) as (-> & -> & ->).
    unfold is_mismatch, has_verdict. cbn [fst].
    rewrite <- !app_assoc.
    destruct (verdict_of d d' attr); cbn; repeat split.
Qed.

Lemma specified_verdict d d' (kv : string * F) :
  specified_in d kv = negb (has_verdict d d' Unspecified kv).
Proof.
  unfold specified_in, has_verdict, verdict_of.
  destruct (dict_get (fst kv) d) as [r|]; [|reflexivity].
  destruct (dict_get (fst kv) d') as [o|]; [|reflexivity].
  cbn zeta. destruct (f_eqb _ one); [reflexivity|].
  now destruct (f_ltb zero _).
Qed.

Lemma verdict_split w d d' :
  (length (filter (has_verdict d d' Matched) w)
   + length (filter (is_mismatch d d') w)
   + length (filter (has_verdict d d' Missing) w))%nat
  = length (filter (specified_in d) w).
Proof.
  induction w as [|kv w IH]; [reflexivity|].
  cbn [filter]. rewrite (specified_verdict d d' kv).
  unfold is_mismatch, has_verdict in *.
  destruct (verdict_of d d' (fst kv)); cbn; lia.
Qed.

End Verdicts.

(** X1.  Each attribute that the requirement specifies is entered in exactly
    one of the three lists of the result: their lengths add up to the number
    of weighted attributes to which the requirement gives a value. *)
Theorem every_requirement_reported (e : @SpecMatchEngine F64.t)
  (rfp oem : ExtractedAttributes) :
  let r := match_product e rfp oem in
  (length (matched_attributes r) + length (mismatched_attributes r)
   + length (missing_attributes r))%nat
  = length (filter (specified_in (to_normalized_dict rfp)) (weights e)).
Proof.
  cbn zeta. unfold match_product, calculate_match_score.
  cbn [matched_attributes mismatched_attributes missing_attributes].
  destruct (score_loop_lists (weights e) (to_normalized_dict rfp)
              (to_normalized_dict oem) tally0) as (-> & -> & ->).
  cbn [tally0 matched mismatched missing app].
  rewrite !length_map. apply verdict_split.
Qed.

(** ** More on the order of binary64 *)

Section Binary64Total.

Open Scope Z_scope.

Lemma SFleb_finite (s1 s2 : bool) (m1 m2 : positive) (e1 e2 : Z) :
  SFleb (S754_finite s1 m1 e1) (S754_finite s2 m2 e2) = true
  <-> (s1 = true /\ s2 = false)
      \/ (s1 = false /\ s2 = false
          /\ (e1 < e2 \/ (e1 = e2 /\ (m1 <= m2)%positive)))
      \/ (s1 = true /\ s2 = true
          /\ (e2 < e1 \/ (e1 = e2 /\ (m2 <= m1)%positive))).
Proof.
  unfold SFleb, SFcompare.
  change (Pos.compare_cont Eq m1 m2) with (Pos.compare m1 m2).
  destruct s1, s2; cbn [CompOpp];
    destruct (Z.compare_spec e1 e2); destruct (Pos.compare_spec m1 m2);
    cbn [CompOpp]; split; intros Hx; try discriminate; try reflexivity;
    try lia.
Qed.

Lemma SFleb_trans (x y z : spec_float) :
  SFleb x y = true -> SFleb y z = true -> SFleb x z = true.
Proof.
  destruct x as [sx|sx| |sx mx ex], y as [sy|sy| |sy my ey],
    z as [sz|sz| |sz mz ez];
    try (intros; discriminate);
    try (destruct sx; try destruct sy; try destruct sz;
         cbn; intros; congruence).
  rewrite !SFleb_finite.
  destruct sx, sy, sz; intros [[? ?]|[(? & ? & ?)|(? & ? & ?)]]
    [[? ?]|[(? & ? & ?)|(? & ? & ?)]]; try discriminate;
    solve [left; now split
          | right; left; repeat split; auto; lia
          | right; right; repeat split; auto; lia].
Qed.

Lemma SFleb_total (x y : spec_float) :
  x <> S754_nan -> y <> S754_nan -> SFleb x y = true \/ SFleb y x = true.
Proof.
  intros Hx Hy. destruct (SFcompare_defined x y Hx Hy) as [c Hc].
  unfold SFleb. rewrite (SFcompare_antisym x y), Hc.
  destruct c; cbn; auto.
Qed.



End Binary64Total.

(** ** Status and score *)

(** X2.  A higher score never gets a worse status, whatever the threshold. *)
Theorem classify_monotone (threshold s s' : F64.t) :
  f_leb s s' = true ->
  (status_rank (classify threshold s) <= status_rank (classify threshold s'))%nat.
Proof.
  intros Hle. cbn [f_leb F64.ops] in Hle. unfold classify.
  assert (T : forall a, f_leb a s = true -> f_leb a s' = true)
    by (intros a Ha; exact (SFleb_trans a s s' Ha Hle)).
  destruct (f_leb (f_lit 95 0) s) eqn:E95; [now rewrite (T _ E95)|].
  destruct (f_leb (f_lit 95 0) s'); [destruct (f_leb (f_lit 80 0) s);
    [|destruct (f_leb threshold s)]; cbn; lia|].
  destruct (f_leb (f_lit 80 0) s) eqn:E80; [now rewrite (T _ E80)|].
  destruct (f_leb (f_lit 80 0) s'); [destruct (f_leb threshold s); cbn; lia|].
  destruct (f_leb threshold s) eqn:Et; [now rewrite (T _ Et)|].
  cbn. lia.
Qed.

Lemma classify_monotone_witness :
  (status_rank (classify (F64.lit 60 0) (F64.lit 625 (-1)))
   <= status_rank (classify (F64.lit 60 0) (F64.lit 85 0)))%nat.
Proof. apply classify_monotone. vm_compute. reflexivity. Defined.

(** ** The two directions of a comparison *)

Section Swapped.

Open Scope Z_scope.

Lemma binary_round_aux_abs (s s' : bool) (m e : Z) (l : location) :
  SFabs (binary_round_aux F64.prec F64.emax s m e l)
  = SFabs (binary_round_aux F64.prec F64.emax s' m e l).
Proof.
  unfold binary_round_aux.
  destruct (shr_fexp F64.prec F64.emax m e l) as [mrs e1].
  destruct (shr_fexp F64.prec F64.emax _ e1 loc_Exact) as [mrs' e2].
  destruct (shr_m mrs'); [reflexivity| |reflexivity].
  destruct (e2 <=? F64.emax - F64.prec); reflexivity.
Qed.

Lemma binary_normalize_abs (m e : Z) :
  SFabs (binary_normalize F64.prec F64.emax m e false)
  = SFabs (binary_normalize F64.prec F64.emax (- m) e false).
Proof.
  destruct m; cbn [binary_normalize Z.opp]; [reflexivity| |];
    unfold binary_round;
    destruct (shl_align _ _ _); apply binary_round_aux_abs.
Qed.

(** [abs(x - y)] and [abs(y - x)] are the same float. *)
Lemma SFabs_sub_swap (x y : F64.t) :
  SFabs (SFsub F64.prec F64.emax x y) = SFabs (SFsub F64.prec F64.emax y x).
Proof.
  destruct x as [sx|sx| |sx mx ex], y as [sy|sy| |sy my ey];
    try reflexivity;
    try (destruct sx, sy; reflexivity).
  cbn [SFsub]. change IntDef.Z.min with Z.min.
  rewrite (Z.min_comm ey ex). cbv zeta.
  rewrite binary_normalize_abs. f_equal. f_equal. lia.
Qed.

Lemma within_tenth_swap (x y : F64.t) : within_tenth x y = within_tenth y x.
Proof.
  unfold within_tenth. cbn [f_abs f_sub F64.ops].
  now rewrite SFabs_sub_swap.
Qed.

Lemma literals_distinct :
  @f_lit F64.t _ 8 (-1) <> one /\ @f_lit F64.t _ 9 (-1) <> one
  /\ @zero F64.t _ <> one /\ @f_lit F64.t _ 8 (-1) <> zero
  /\ @f_lit F64.t _ 9 (-1) <> zero.
Proof. vm_compute. repeat split; discriminate. Qed.

Lemma compare_numbers_one (higher x y : F64.t) :
  higher <> one ->
  (compare_numbers higher x y = one <-> within_tenth x y = true).
Proof.
  intros Hh. destruct literals_distinct as (_ & _ & Hz & _).
  unfold compare_numbers. destruct (within_tenth x y); [tauto|].
  destruct (f_ltb x y); split; congruence.
Qed.

Lemma compare_numbers_higher (higher x y : F64.t) :
  higher <> one -> higher <> zero ->
  compare_numbers higher x y = higher -> compare_numbers higher y x = zero.
Proof.
  intros H1 H0. unfold compare_numbers.
  rewrite (within_tenth_swap y x).
  destruct (within_tenth x y); [congruence|].
  destruct (f_ltb x y) eqn:L; [|congruence].
  intros _. cbn [f_ltb F64.ops] in *. now rewrite (SFltb_asym y x L).
Qed.

Lemma pyval_eqb_sym (a b : pyval) : pyval_eqb a b = pyval_eqb b a.
Proof.
  destruct a, b; cbn; auto using String.eqb_sym, Z.eqb_sym.
Qed.

Lemma compare_voltage_swap (r o : pyval) :
  (@_compare_voltage F64.t _ r o = one <-> @_compare_voltage F64.t _ o r = one)
  /\ (@_compare_voltage F64.t _ r o = f_lit 8 (-1) ->
      @_compare_voltage F64.t _ o r = zero)
  /\ @_compare_voltage F64.t _ r o <> f_lit 9 (-1).
Proof.
  destruct literals_distinct as (H8 & H9 & Hz & H80 & H90).
  assert (H89 : @f_lit F64.t _ 8 (-1) <> f_lit 9 (-1))
    by (vm_compute; discriminate).
  unfold _compare_voltage.
  destruct r as [r|n], o as [o|n'];
    try (split; [split; congruence | split; congruence]).
  destruct (py_float (voltage_digits r)) as [x|],
    (py_float (voltage_digits o)) as [y|];
    try (split; [split; congruence | split; congruence]).
  split; [|split].
  - rewrite !compare_numbers_one, within_tenth_swap; tauto.
  - now apply compare_numbers_higher.
  - destruct (compare_numbers_values (f_lit 8 (-1)) x y) as [E|[E|E]];
      rewrite E; congruence.
Qed.

Lemma compare_cross_section_swap (r o : pyval) :
  (@_compare_cross_section F64.t _ r o = one
   <-> @_compare_cross_section F64.t _ o r = one)
  /\ (@_compare_cross_section F64.t _ r o = f_lit 9 (-1) ->
      @_compare_cross_section F64.t _ o r = zero)
  /\ @_compare_cross_section F64.t _ r o <> f_lit 8 (-1).
Proof.
  destruct literals_distinct as (H8 & H9 & Hz & H80 & H90).
  assert (H89 : @f_lit F64.t _ 8 (-1) <> f_lit 9 (-1))
    by (vm_compute; discriminate).
  unfold _compare_cross_section.
  destruct r as [r|n], o as [o|n'];
    try (split; [split; congruence | split; congruence]).
  destruct (py_float (cross_section_digits r)) as [x|],
    (py_float (cross_section_digits o)) as [y|];
    try (split; [split; congruence | split; congruence]).
  split; [|split].
  - rewrite !compare_numbers_one, within_tenth_swap; tauto.
  - now apply compare_numbers_higher.
  - destruct (compare_numbers_values (f_lit 9 (-1)) x y) as [E|[E|E]];
      rewrite E; congruence.
Qed.

End Swapped.

(** X3.  Exchanging the requirement and the product keeps a full credit and
    turns a partial credit into none: [_compare_attribute] gives 1 one way
    exactly when it gives 1 the other way, and where it gives 0.8 or 0.9 one
    way it gives 0 the other way. *)
Theorem credit_when_swapped (attr : string) (r o : pyval) :
  (@_compare_attribute F64.t _ attr r o = one
   <-> @_compare_attribute F64.t _ attr o r = one)
  /\ (@_compare_attribute F64.t _ attr r o = f_lit 8 (-1)
      \/ @_compare_attribute F64.t _ attr r o = f_lit 9 (-1) ->
      @_compare_attribute F64.t _ attr o r = zero).
Proof.
  destruct literals_distinct as (H8 & H9 & Hz & H80 & H90).
  unfold _compare_attribute.
  rewrite (pyval_eqb_sym (normalize_pyval o) (normalize_pyval r)).
  destruct (pyval_eqb (normalize_pyval r) (normalize_pyval o)).
  { split; [tauto|]. intros [E|E]; symmetry in E; contradiction. }
  destruct (String.eqb attr "voltage").
  { destruct (compare_voltage_swap (normalize_pyval r) (normalize_pyval o))
      as (A & B & C).
    split; [exact A|]. intros [E|E]; [now apply B | contradiction]. }
  destruct (String.eqb attr "cross_section").
  { destruct (compare_cross_section_swap (normalize_pyval r)
                (normalize_pyval o)) as (A & B & C).
    split; [exact A|]. intros [E|E]; [contradiction | now apply B]. }
  destruct (String.eqb attr "core_count");
    (split; [tauto|]; intros [E|E]; symmetry in E; contradiction).
Qed.

Lemma credit_when_swapped_witness :
  @_compare_attribute F64.t _ "voltage" (PStr "33kv") (PStr "11kv") = zero.
Proof.
  apply (proj2 (credit_when_swapped "voltage" (PStr "11kv") (PStr "33kv"))).
  left. vm_compute. reflexivity.
Defined.

(** ** Letter case, white space and synonyms *)

Section Spelling.

Import PyStr.

Lemma normalize_value_unfold (s : string) :
  normalize_value s
  = match dict_get (strip (lower s)) Config.NORMALIZED_VALUES with
    | Some canonical => canonical
    | None => strip (lower s)
    end.
Proof.
  unfold normalize_value. destruct (truthy s) eqn:T; cbn [negb]; [reflexivity|].
  unfold truthy in T. apply negb_false_iff, String.eqb_eq in T. now subst s.
Qed.

Lemma normalize_value_respelled (s : string) :
  normalize_value (strip (lower s)) = normalize_value s.
Proof. now rewrite !normalize_value_unfold, strip_lower_fixed. Qed.

Lemma table_values_plain :
  forallb (fun kv => String.eqb (strip (lower (snd kv))) (snd kv))
          Config.NORMALIZED_VALUES = true.
Proof. vm_compute. reflexivity. Qed.

Lemma normalize_value_plain (s : string) :
  strip (lower (normalize_value s)) = normalize_value s.
Proof.
  rewrite normalize_value_unfold.
  destruct (dict_get (strip (lower s)) Config.NORMALIZED_VALUES) as [v|] eqn:E.
  - apply dict_get_In in E. pose proof table_values_plain as T.
    rewrite forallb_forall in T. apply String.eqb_eq. exact (T _ E).
  - apply strip_lower_fixed.
Qed.

End Spelling.

(** X4.  [normalize_value] ignores letter case and surrounding white space:
    lower-casing or stripping the value beforehand, as [_extract_attributes]
    does, changes nothing; and its result carries neither. *)
Theorem normalize_value_spelling (value : string) :
  normalize_value (PyStr.strip (PyStr.lower value)) = normalize_value value
  /\ normalize_value (PyStr.lower value) = normalize_value value
  /\ normalize_value (PyStr.strip value) = normalize_value value
  /\ PyStr.lower (normalize_value value) = normalize_value value
  /\ PyStr.strip (normalize_value value) = normalize_value value.
Proof.
  split; [apply normalize_value_respelled|].
  split; [now rewrite !normalize_value_unfold, lower_idem|].
  split; [now rewrite !normalize_value_unfold, lower_strip, strip_idem|].
  pose proof (normalize_value_plain value) as P.
  split.
  - rewrite <- P at 1. now rewrite lower_strip, lower_idem.
  - rewrite <- P at 1. now rewrite strip_idem.
Qed.

(** X5.  Two spellings that the synonym table maps to the same canonical
    name, in any letter case and with any surrounding white space, get the
    full credit on every attribute. *)
Theorem synonyms_full_credit (attr a b canonical : string) :
  dict_get (PyStr.strip (PyStr.lower a)) Config.NORMALIZED_VALUES
  = Some canonical ->
  dict_get (PyStr.strip (PyStr.lower b)) Config.NORMALIZED_VALUES
  = Some canonical ->
  @_compare_attribute F64.t _ attr (PStr a) (PStr b) = one.
Proof.
  intros Ha Hb. unfold _compare_attribute. cbn [normalize_pyval pyval_eqb].
  rewrite (normalize_value_unfold a), (normalize_value_unfold b), Ha, Hb.
  now rewrite String.eqb_refl.
Qed.

Lemma synonyms_full_credit_witness :
  @_compare_attribute F64.t _ "armouring"
     (PStr " Galvanised Iron Strip") (PStr "GI STRIP ") = one.
Proof.
  apply (synonyms_full_credit _ _ _ "gi_strip"); vm_compute; reflexivity.
Defined.

(** ** The comparison table *)

Section ComparisonTable.

Context {F : Type} `{PyFloat F}.

Open Scope nat_scope.

Lemma sku_cells_nth (attr : string) (v : option pyval)
  (ps : list VectorDb.OEMProduct) (i : nat) :
  i < 3 ->
  nth i (Engine.sku_cells attr v ps) (None, false)
  = match nth_error ps i with
    | Some p => Engine.sku_cell attr v p
    | None => (None, false)
    end.
Proof.
  intros Hi. unfold Engine.sku_cells.
  destruct ps as [|p1 [|p2 [|p3 ps]]];
    destruct i as [|[|[|i]]]; try lia; reflexivity.
Qed.

Lemma column_cell (d : list (string * pyval)) (ps : list VectorDb.OEMProduct)
  (attr : string) (i : nat) :
  i < 3 ->
  Engine.column i (Engine.comparison_row d ps attr)
  = match nth_error ps i with
    | Some p => Engine.sku_cell attr (dict_get attr d) p
    | None => (None, false)
    end.
Proof.
  intros Hi. rewrite <- (sku_cells_nth attr (dict_get attr d) ps i Hi).
  destruct i as [|[|[|i]]]; try lia; cbn; now destruct (nth _ _ _).
Qed.

Lemma nth_error_firstn_lt {A : Type} (l : list A) (n i : nat) :
  i < n -> nth_error (firstn n l) i = nth_error l i.
Proof.
  revert n i. induction l as [|a l IH]; intros [|n] [|i] Hi; try lia;
    try reflexivity.
  cbn. apply IH. lia.
Qed.

Lemma comparison_row_columns (d : list (string * pyval))
  (ps ps' : list VectorDb.OEMProduct) (attr : string) :
  (forall i, i < 3 -> Engine.column i (Engine.comparison_row d ps attr)
                      = Engine.column i (Engine.comparison_row d ps' attr)) ->
  Engine.comparison_row d ps attr = Engine.comparison_row d ps' attr.
Proof.
  intros Hc.
  pose proof (Hc 0 ltac:(lia)) as H0. pose proof (Hc 1 ltac:(lia)) as H1.
  pose proof (Hc 2 ltac:(lia)) as H2.
  cbn [Engine.column] in H0, H1, H2.
  injection H0 as A0 B0. injection H1 as A1 B1. injection H2 as A2 B2.
  unfold Engine.comparison_row in *.
  cbn [Models.sku_1_value Models.sku_1_match Models.sku_2_value
       Models.sku_2_match Models.sku_3_value Models.sku_3_match] in *.
  now rewrite A0, B0, A1, B1, A2, B2.
Qed.

End ComparisonTable.

(** X6.  The comparison table has one row for each weight of the engine, in
    the order of the weights; the products after the third do not show in
    it; and column [i] holds the value None exactly when fewer than [i]
    products were given, in which case its flag is False. *)
Theorem comparison_table_shape (e : @SpecMatchEngine F64.t)
  (item : Models.RFPItem) (ps : list VectorDb.OEMProduct) :
  map Models.attribute_name (Engine.generate_comparison_table e item ps)
  = map fst (weights e)
  /\ Engine.generate_comparison_table e item ps
     = Engine.generate_comparison_table e item (firstn 3 ps)
  /\ Forall (fun row =>
       forall i, (i < 3)%nat ->
         (fst (Engine.column i row) = None <-> (length ps <= i)%nat)
         /\ ((length ps <= i)%nat -> snd (Engine.column i row) = false))
       (Engine.generate_comparison_table e item ps).
Proof.
  unfold Engine.generate_comparison_table. split; [|split].
  - rewrite map_map. cbn. now rewrite map_id.
  - apply map_ext. intros attr. apply comparison_row_columns.
    intros i Hi. rewrite !column_cell by exact Hi.
    now rewrite nth_error_firstn_lt.
  - apply Forall_forall. intros row Hrow.
    apply in_map_iff in Hrow as (attr & <- & _).
    intros i Hi. rewrite column_cell by exact Hi.
    destruct (nth_error ps i) as [p|] eqn:E.
    + assert (L : (i < length ps)%nat)
        by (apply nth_error_Some; congruence).
      cbn. split; [split; [discriminate | lia] | lia].
    + apply nth_error_None in E. cbn. split; [tauto | reflexivity].
Qed.

Section Flags.

Open Scope string_scope.

Lemma positive_credit (attr : string) (r o : pyval) :
  @f_ltb F64.t _ zero (_compare_attribute attr r o)
  = negb (f_eqb (@_compare_attribute F64.t _ attr r o) zero).
Proof.
  destruct (@compare_attribute_values F64.t _ attr r o) as [E|[E|[E|E]]];
    rewrite E; vm_compute; reflexivity.
Qed.

Lemma full_credit_positive (attr : string) (r o : pyval) :
  f_eqb (@_compare_attribute F64.t _ attr r o) one = true ->
  @f_ltb F64.t _ zero (_compare_attribute attr r o) = true.
Proof.
  destruct (@compare_attribute_values F64.t _ attr r o) as [E|[E|[E|E]]];
    rewrite E; vm_compute; congruence.
Qed.

(** The flag of a product in a row, from the branch the scoring loop takes
    for that product. *)
Lemma flag_of_verdict (d : list (string * pyval)) (p : VectorDb.OEMProduct)
  (attr : string) :
  snd (@Engine.sku_cell F64.t _ attr (dict_get attr d) p)
  = match @verdict_of F64.t _ d (to_normalized_dict (VectorDb.specs p)) attr with
    | Missing | Mismatched => false
    | _ => true
    end.
Proof.
  unfold Engine.sku_cell, verdict_of. cbn [snd].
  destruct (dict_get attr d) as [r|]; [|reflexivity].
  destruct (dict_get attr _) as [o|]; [|reflexivity].
  cbn zeta.
  destruct (f_eqb (_compare_attribute attr r o) one) eqn:E1.
  - now apply full_credit_positive.
  - now destruct (f_ltb zero (_compare_attribute attr r o)).
Qed.

Lemma no_space_marker (k : string) : no_space (k ++ " (partial)") = false.
Proof.
  unfold no_space. induction k as [|c k IH]; [reflexivity|].
  cbn. rewrite IH. apply andb_false_r.
Qed.

Lemma In_missing (w : list (string * F64.t)) (d d' : list (string * pyval))
  (attr : string) :
  In attr (map fst (filter (has_verdict d d' Missing) w))
  <-> In attr (map fst w) /\ verdict_of d d' attr = Missing.
Proof.
  rewrite !in_map_iff. split.
  - intros ([k x] & <- & Hin). apply filter_In in Hin as [Hin Hv].
    split; [exists (k, x); auto|]. unfold has_verdict in Hv. cbn [fst] in *.
    now destruct (verdict_of d d' k).
  - intros (([k x] & <- & Hin) & Hv). exists (k, x). split; [reflexivity|].
    apply filter_In. split; [exact Hin|]. unfold has_verdict. cbn [fst] in *.
    now rewrite Hv.
Qed.

Lemma In_mismatched (w : list (string * F64.t)) (d d' : list (string * pyval))
  (attr : string) :
  no_space attr = true ->
  In attr (map (mismatch_label d d') (filter (is_mismatch d d') w))
  <-> In attr (map fst w) /\ verdict_of d d' attr = Mismatched.
Proof.
  intros Hns. rewrite !in_map_iff. split.
  - intros ([k x] & Hl & Hin). apply filter_In in Hin as [Hin Hv].
    unfold mismatch_label, is_mismatch, has_verdict in *. cbn [fst] in *.
    destruct (verdict_of d d' k) eqn:V; try discriminate Hv.
    + subst attr. now rewrite no_space_marker in Hns.
    + subst attr. split; [exists (k, x); auto | exact V].
  - intros (([k x] & <- & Hin) & Hv). exists (k, x).
    unfold mismatch_label, is_mismatch, has_verdict. cbn [fst] in *.
    rewrite Hv. split; [reflexivity|].
    apply filter_In. split; [exact Hin|]. cbn [fst]. now rewrite Hv.
Qed.

End Flags.

(** X7.  The flags of the comparison table agree with the scoring: for an
    engine whose attribute names contain no space, the flag of a product in
    the row of an attribute is False exactly when [match_product] lists that
    attribute, for that product, as missing or as mismatched without the
    partial qualifier. *)
Theorem table_flag_agrees_with_score (e : @SpecMatchEngine F64.t)
  (item : Models.RFPItem) (ps : list VectorDb.OEMProduct)
  (row : Models.ComparisonRow) (i : nat) (p : VectorDb.OEMProduct) :
  forallb (fun kv => no_space (fst kv)) (weights e) = true ->
  In row (Engine.generate_comparison_table e item ps) ->
  nth_error ps i = Some p -> (i < 3)%nat ->
  let r := Engine.match_product e item p in
  snd (Engine.column i row) = false
  <-> In (Models.attribute_name row) (Models.missing_attributes r)
      \/ In (Models.attribute_name row) (Models.mismatched_attributes r).
Proof.
  intros Hns Hrow Hp Hi. cbn zeta.
  unfold Engine.generate_comparison_table in Hrow.
  apply in_map_iff in Hrow as (attr & <- & Hattr).
  rewrite column_cell by exact Hi. rewrite Hp, flag_of_verdict.
  cbn [Engine.comparison_row Models.attribute_name].
  unfold Engine.match_product, calculate_match_score.
  cbn [Models.missing_attributes Models.mismatched_attributes].
  destruct (score_loop_lists (weights e)
              (to_normalized_dict (Models.extracted_attributes item))
              (to_normalized_dict (VectorDb.specs p)) tally0) as (_ & -> & ->).
  cbn [tally0 mismatched missing app].
  assert (Hattr' : no_space attr = true).
  { apply in_map_iff in Hattr as ([k x] & <- & Hin).
    rewrite forallb_forall in Hns. exact (Hns _ Hin). }
  rewrite In_missing, (In_mismatched _ _ _ _ Hattr').
  destruct (verdict_of _ _ attr); split; intros Hx; try congruence;
    try tauto; try (destruct Hx as [[_ Hx]|[_ Hx]]; discriminate).
Qed.

Lemma table_flag_agrees_with_score_witness :
  snd (Engine.column 0
         (@Engine.comparison_row F64.t _ (to_normalized_dict Sample.cable)
            [VectorDb.text_item "A" ""] "voltage")) = false
  <-> In "voltage"%string
        (Models.missing_attributes
           (Engine.match_product (@default_engine F64.t _)
              {| Models.item_id := 1; Models.rfp_spec_raw := "";
                 Models.quantity := None; Models.unit := None;
                 Models.extracted_attributes := Sample.cable |}
              (VectorDb.text_item "A" "")))
      \/ In "voltage"%string
           (Models.mismatched_attributes
              (Engine.match_product (@default_engine F64.t _)
                 {| Models.item_id := 1; Models.rfp_spec_raw := "";
                    Models.quantity := None; Models.unit := None;
                    Models.extracted_attributes := Sample.cable |}
                 (VectorDb.text_item "A" ""))).
Proof.
  apply (table_flag_agrees_with_score (@default_engine F64.t _)
           {| Models.item_id := 1; Models.rfp_spec_raw := "";
              Models.quantity := None; Models.unit := None;
              Models.extracted_attributes := Sample.cable |}
           [VectorDb.text_item "A" ""]
           (@Engine.comparison_row F64.t _ (to_normalized_dict Sample.cable)
              [VectorDb.text_item "A" ""] "voltage")
           0 (VectorDb.text_item "A" "")).
  - vm_compute. reflexivity.
  - left. reflexivity.
  - reflexivity.
  - lia.
Defined.

(** ** Deviation notes *)

Section Notes.

Open Scope string_scope.

Lemma remove_from_skip_all (old s : string) :
  PyStr.remove_from old (String.length s) s = "".
Proof. induction s as [|c s IH]; [reflexivity | exact IH]. Qed.

(** Removing the qualifier from a name without a space, qualified or not. *)
Lemma remove_marker (k : string) :
  no_space k = true ->
  PyStr.remove " (partial)" k = k
  /\ PyStr.remove " (partial)" (k ++ " (partial)") = k.
Proof.
  unfold no_space, PyStr.remove. induction k as [|c k IH]; intros Hk.
  - split; reflexivity.
  - cbn [VectorDb.all_chars] in Hk. apply andb_true_iff in Hk as [Hc Hk].
    destruct (IH Hk) as [IH1 IH2].
    assert (P : forall s, prefix " (partial)" (String c s) = false).
    { intros s. cbn [prefix].
      destruct (ascii_dec " " c) as [<-|_]; [discriminate Hc | reflexivity]. }
    split.
    + cbn [PyStr.remove_from]. rewrite P, IH1. reflexivity.
    + cbn [PyStr.remove_from append]. rewrite P, IH2. reflexivity.
Qed.

Lemma mismatch_verdict (d d' : list (string * pyval)) (kv : string * F64.t) :
  is_mismatch d d' kv = true ->
  exists r o, dict_get (fst kv) d = Some r /\ dict_get (fst kv) d' = Some o.
Proof.
  unfold is_mismatch, has_verdict, verdict_of.
  destruct (dict_get (fst kv) d) as [r|]; [|discriminate].
  destruct (dict_get (fst kv) d') as [o|]; [|discriminate].
  intros _. now exists r, o.
Qed.

Lemma missing_verdict (d d' : list (string * pyval)) (kv : string * F64.t) :
  has_verdict d d' Missing kv = true ->
  exists r, dict_get (fst kv) d = Some r /\ dict_get (fst kv) d' = None.
Proof.
  unfold has_verdict, verdict_of.
  destruct (dict_get (fst kv) d) as [r|]; [|discriminate].
  destruct (dict_get (fst kv) d') as [o|].
  - cbn zeta. destruct (f_eqb _ one); [discriminate|].
    destruct (f_ltb zero _); discriminate.
  - intros _. now exists r.
Qed.

End Notes.

(** X8.  For an engine whose attribute names contain no space,
    [match_product] writes one note for each mismatched attribute, in the
    order of the weights, followed by one note for each missing attribute;
    a note names the attribute without the partial qualifier; and the value
    "N/A" is never shown, since the requirement always holds a value for the
    attribute of a note, and the product holds one in a mismatch note. *)
Theorem deviation_notes_content (e : @SpecMatchEngine F64.t)
  (item : Models.RFPItem) (p : VectorDb.OEMProduct) :
  forallb (fun kv => no_space (fst kv)) (weights e) = true ->
  let rfp := to_normalized_dict (Models.extracted_attributes item) in
  let oem := to_normalized_dict (VectorDb.specs p) in
  Models.deviation_notes (Engine.match_product e item p)
  = map (fun kv => Engine.mismatch_note rfp oem (fst kv))
        (filter (is_mismatch rfp oem) (weights e))
    ++ map (fun kv => Engine.missing_note rfp (fst kv))
           (filter (has_verdict rfp oem Missing) (weights e))
  /\ Forall (fun kv => exists r o, dict_get (fst kv) rfp = Some r
                                   /\ dict_get (fst kv) oem = Some o)
            (filter (is_mismatch rfp oem) (weights e))
  /\ Forall (fun kv => exists r, dict_get (fst kv) rfp = Some r
                                 /\ dict_get (fst kv) oem = None)
            (filter (has_verdict rfp oem Missing) (weights e)).
Proof.
  intros Hns rfp oem. split; [|split].
  - unfold Engine.match_product, calculate_match_score.
    cbn [Models.deviation_notes]. fold rfp. fold oem.
    destruct (score_loop_lists (weights e) rfp oem tally0) as (_ & -> & ->).
    cbn [tally0 mismatched missing app].
    unfold Engine._generate_deviation_notes. fold rfp. fold oem.
    rewrite !map_map. f_equal.
    apply map_ext_in. intros [k x] Hin. apply filter_In in Hin as [Hin _].
    rewrite forallb_forall in Hns. specialize (Hns _ Hin). cbn [fst] in *.
    destruct (remove_marker k Hns) as [R1 R2].
    unfold mismatch_label, Engine.mismatch_note. cbn [fst].
    destruct (verdict_of rfp oem k); cbn zeta; now rewrite ?R1, ?R2.
  - apply Forall_forall. intros kv Hin. apply filter_In in Hin as [_ Hv].
    now apply mismatch_verdict.
  - apply Forall_forall. intros kv Hin. apply filter_In in Hin as [_ Hv].
    now apply missing_verdict.
Qed.

Open Scope string_scope.

Lemma deviation_notes_content_witness :
  Models.deviation_notes
    (Engine.match_product (@default_engine F64.t _)
       {| Models.item_id := 1; Models.rfp_spec_raw := "";
          Models.quantity := None; Models.unit := None;
          Models.extracted_attributes := Sample.cable |}
       {| VectorDb.sku_id := "S"; VectorDb.product_name := "S";
          VectorDb.datasheet_text := "";
          VectorDb.specs := with_core_count
            {| voltage := Some "33kv"; conductor_material := Some "al";
               cross_section := Some "300sqmm"; core_count := None;
               insulation := Some "xlpe"; armouring := None;
               sheathing := Some "pvc" |} (Some 4%Z);
          VectorDb.category := None |})
  = [ "RFP requires voltage=11kv, OEM has 33kv";
      "RFP requires core_count=3, OEM has 4";
      "RFP requires armouring=gi_strip, OEM spec not available" ].
Proof.
  destruct (deviation_notes_content (@default_engine F64.t _)
       {| Models.item_id := 1; Models.rfp_spec_raw := "";
          Models.quantity := None; Models.unit := None;
          Models.extracted_attributes := Sample.cable |}
       {| VectorDb.sku_id := "S"; VectorDb.product_name := "S";
          VectorDb.datasheet_text := "";
          VectorDb.specs := with_core_count
            {| voltage := Some "33kv"; conductor_material := Some "al";
               cross_section := Some "300sqmm"; core_count := None;
               insulation := Some "xlpe"; armouring := None;
               sheathing := Some "pvc" |} (Some 4%Z);
          VectorDb.category := None |}) as (E & _ & _).
  - vm_compute. reflexivity.
  - rewrite E. vm_compute. reflexivity.
Defined.

(** ** Sorting the candidates *)

Section ScoreSort.

Open Scope list_scope.

Context {A : Type}.

Variable key : A -> F64.t.

Lemma insert_by_score_perm (x : A) (l : list A) :
  Permutation (Agent.insert_by_score key x l) (x :: l).
Proof.
  induction l as [|y l IH]; cbn; [reflexivity|].
  destruct (SFltb (key x) (key y)); [|reflexivity].
  rewrite IH. apply perm_swap.
Qed.

Lemma sort_by_score_perm (l : list A) :
  Permutation (Agent.sort_by_score key l) l.
Proof.
  induction l as [|x l IH]; cbn; [reflexivity|].
  rewrite insert_by_score_perm. now constructor.
Qed.





End ScoreSort.

(** ** Recommendations *)

Section Recommendations.

Open Scope list_scope.


Lemma match_product_score (e : @SpecMatchEngine F64.t) (item : Models.RFPItem)
  (c : VectorDb.OEMProduct) :
  Models.match_score (Engine.match_product e item c)
  = match_score e (Models.extracted_attributes item) (VectorDb.specs c)
  /\ Models.match_status (Engine.match_product e item c)
     = classify MINIMUM_MATCH_THRESHOLD
         (Models.match_score (Engine.match_product e item c))
  /\ Models.sku_id (Engine.match_product e item c) = VectorDb.sku_id c.
Proof.
  unfold Engine.match_product, match_score.
  destruct (calculate_match_score e _ _) as [[[s m] mm] ms].
  repeat split.
Qed.





End Recommendations.

Section BestCandidate.

Open Scope list_scope.

Variable e : @SpecMatchEngine F64.t.
Variable item : Models.RFPItem.


End BestCandidate.


Section SampleDatabase.

Import VectorDb.

Open Scope list_scope.

Lemma sample_search :
  similarity_search false Agent.sample_db "" Config.TOP_K_CANDIDATES
    (Ok [Agent.sample_product]).
Proof.
  unfold similarity_search, Agent.sample_db, embed, raw_vector.
  cbn [is_initialized negb embedder index embeddings products fitted
       dimension bind _tokenize PyStr.lower word_runs flush filter count_all
       fold_left zeros repeat].
  assert (E : normalize [] = []).
  { unfold normalize. destruct (Rlt_dec 0 (norm [])); reflexivity. }
  rewrite E. exists [0%nat]. split.
  - split; [reflexivity|]. repeat constructor.
  - reflexivity.
Qed.

Lemma sample_processed :
  Agent._process_single_item false Agent.sample_db (@default_engine F64.t _)
    Agent.sample_item
    (Ok (Agent.recommend default_engine Agent.sample_item
           (Agent.score_candidates default_engine Agent.sample_item
              [Agent.sample_product]))).
Proof.
  exists (Ok [Agent.sample_product]). split; [exact sample_search|].
  eexists. split; [|reflexivity]. split; [reflexivity|]. intros _. reflexivity.
Qed.

End SampleDatabase.


(** ** Statistics of a run *)

Section Statistics.

Open Scope list_scope.
Open Scope nat_scope.

Variable float_text : F64.t -> string.
Variable error_text : VectorDb.error -> string.

Lemma classify_zero :
  classify MINIMUM_MATCH_THRESHOLD (@zero F64.t _) = NO_MATCH.
Proof. vm_compute. reflexivity. Qed.

Lemma single_item_coherent (faiss : bool) (db : VectorDb.VectorDatabase)
  (e : @SpecMatchEngine F64.t) (item : Models.RFPItem)
  (rec : @Agent.ItemRecommendation F64.t) :
  Agent._process_single_item faiss db e item (VectorDb.Ok rec) -> Agent.coherent rec.
Proof.
  intros (found & _ & Hm). unfold Agent.coherent.
  destruct found as [cands|x]; [|discriminate Hm].
  destruct cands as [|c0 cands0].
  - injection Hm as ->.
    cbn [Agent.summary_row Agent.Summary.match_status Agent.no_candidates
         Agent.top_3_matches Agent.recommended_sku_score].
    now rewrite classify_zero.
  - destruct Hm as (sorted & [Hperm _] & Hrec). injection Hrec as ->.
    destruct sorted as [|s0 sorted].
    { apply Permutation_nil in Hperm. discriminate Hperm. }
    assert (Hin : In s0 (Agent.score_candidates e item (c0 :: cands0)))
      by (apply (Permutation_in _ Hperm); now left).
    unfold Agent.score_candidates in Hin.
    apply in_map_iff in Hin as (c & <- & _).
    unfold Agent.recommend, Agent.summary_row, Agent.TOP_N_RECOMMENDATIONS.
    cbn [firstn map hd_error snd Agent.Summary.match_status
         Agent.top_3_matches Agent.recommended_sku_score].
    destruct (match_product_score e item c) as (_ & -> & _). reflexivity.
Qed.

Lemma threshold_below_80 :
  @f_leb F64.t _ MINIMUM_MATCH_THRESHOLD (f_lit 80 0) = true.
Proof. vm_compute. reflexivity. Qed.

(** How the three counters read a score, against its status. *)
Lemma counters_of_status (s : F64.t) :
  (f_leb (f_lit 95 0) s = true -> classify MINIMUM_MATCH_THRESHOLD s = EXACT_MATCH)
  /\ (f_leb (f_lit 95 0) s = false -> f_leb MINIMUM_MATCH_THRESHOLD s = true ->
      classify MINIMUM_MATCH_THRESHOLD s = CLOSE_MATCH
      \/ classify MINIMUM_MATCH_THRESHOLD s = PARTIAL_MATCH)
  /\ (f_leb (f_lit 95 0) s = false -> f_leb MINIMUM_MATCH_THRESHOLD s = false ->
      classify MINIMUM_MATCH_THRESHOLD s = NO_MATCH).
Proof.
  unfold classify. split; [|split].
  - now intros ->.
  - intros -> ->. destruct (f_leb (f_lit 80 0) s); auto.
  - intros -> Hm. rewrite Hm.
    destruct (f_leb (f_lit 80 0) s) eqn:E80; [|reflexivity].
    pose proof (SFleb_trans _ _ _ threshold_below_80 E80) as T.
    cbn [f_leb F64.ops] in Hm. congruence.
Qed.

Lemma count_status_snoc (status : string)
  (recs : list (@Agent.ItemRecommendation F64.t))
  (rec : @Agent.ItemRecommendation F64.t) :
  Agent.count_status status (Agent._build_summary_table (recs ++ [rec]))
  = Agent.count_status status (Agent._build_summary_table recs)
    + (if String.eqb (Agent.Summary.match_status (Agent.summary_row rec)) status
       then 1 else 0).
Proof.
  unfold Agent.count_status, Agent._build_summary_table.
  rewrite map_app, filter_app, length_app. cbn [map filter].
  now destruct (String.eqb _ status).
Qed.

Lemma process_step_tallied (n : nat) (st : @Agent.Progress F64.t)
  (item : Models.RFPItem)
  (outcome : VectorDb.result (@Agent.ItemRecommendation F64.t)) :
  (forall rec, outcome = VectorDb.Ok rec -> Agent.coherent rec) ->
  Agent.tallied n st ->
  Agent.tallied (S n) (Agent.process_step float_text error_text st (item, outcome)).
Proof.
  intros Hco (Hsum & Hlen & Hs & Hp & Hn & Ha).
  unfold Agent.tallied, Agent.process_step.
  destruct outcome as [rec|x].
  - specialize (Hco rec eq_refl). unfold Agent.coherent in Hco.
    destruct (counters_of_status (Agent.recommended_sku_score rec))
      as (C1 & C2 & C3).
    destruct (f_leb (f_lit 95 0) (Agent.recommended_sku_score rec)) eqn:E95.
    + rewrite (C1 eq_refl) in Hco.
      cbn [Agent.recs Agent.successful Agent.partial Agent.no_match
           Agent.alert_list].
      rewrite !count_status_snoc, Hco, ?length_app. cbn -[Nat.sub]. lia.
    + destruct (f_leb MINIMUM_MATCH_THRESHOLD (Agent.recommended_sku_score rec))
        eqn:Em.
      * cbn [Agent.recs Agent.successful Agent.partial Agent.no_match
           Agent.alert_list].
        rewrite !count_status_snoc, ?length_app.
        destruct (C2 eq_refl eq_refl) as [C|C]; rewrite C in Hco;
          rewrite Hco; cbn -[Nat.sub]; lia.
      * rewrite (C3 eq_refl eq_refl) in Hco.
        cbn [Agent.recs Agent.successful Agent.partial Agent.no_match
           Agent.alert_list].
        rewrite !count_status_snoc, Hco, ?length_app. cbn -[Nat.sub]. lia.
  - cbn [Agent.recs Agent.successful Agent.partial Agent.no_match
           Agent.alert_list]. cbv zeta.
    rewrite length_app. cbn [length]. repeat split; lia.
Qed.

Lemma process_loop_tallied (items : list Models.RFPItem)
  (outcomes : list (VectorDb.result (@Agent.ItemRecommendation F64.t)))
  (n : nat) (st : @Agent.Progress F64.t) :
  length items = length outcomes ->
  Forall (fun o => forall rec, o = VectorDb.Ok rec -> Agent.coherent rec) outcomes ->
  Agent.tallied n st ->
  Agent.tallied (n + length items)
    (fold_left (Agent.process_step float_text error_text)
       (combine items outcomes) st).
Proof.
  revert outcomes n st.
  induction items as [|item items IH]; intros [|o outcomes] n st Hl Hco Hst;
    try discriminate Hl.
  - cbn. now rewrite Nat.add_0_r.
  - cbn [combine fold_left length]. rewrite Nat.add_succ_r, <- Nat.add_succ_l.
    inversion Hco; subst. apply IH; auto.
    now apply process_step_tallied.
Qed.

Lemma process_loop_all_ok (items : list Models.RFPItem)
  (outcomes : list (VectorDb.result (@Agent.ItemRecommendation F64.t)))
  (st : @Agent.Progress F64.t) :
  length items = length outcomes ->
  Forall (fun o => exists rec, o = VectorDb.Ok rec) outcomes ->
  length (Agent.recs (fold_left (Agent.process_step float_text error_text)
                        (combine items outcomes) st))
  = length (Agent.recs st) + length items.
Proof.
  revert outcomes st.
  induction items as [|item items IH]; intros [|o outcomes] st Hl Hok;
    try discriminate Hl.
  - cbn. lia.
  - cbn [combine fold_left length]. inversion Hok as [|? ? [rec ->] Hok']; subst.
    rewrite IH by (auto; now injection Hl).
    unfold Agent.process_step.
    destruct (f_leb (f_lit 95 0) _);
      [|destruct (f_leb MINIMUM_MATCH_THRESHOLD _)];
      cbn [Agent.recs]; rewrite length_app; cbn [length]; lia.
Qed.

Lemma Forall2_outcomes {A B : Type} (R : A -> B -> Prop) (P : B -> Prop)
  (l : list A) (l' : list B) :
  (forall a b, R a b -> P b) -> Forall2 R l l' ->
  length l = length l' /\ Forall P l'.
Proof.
  intros HP. induction 1 as [|a b l l' Hab _ [IH1 IH2]];
    [split; [reflexivity | constructor]|].
  split; [cbn; now rewrite IH1 | constructor; eauto].
Qed.

End Statistics.

(** X10.  The counters of [process_rfp] add up and agree with the summary
    table: the three counters sum to the number of items; the successful
    matches are the rows with status exact_match, the partial matches the
    rows with status close_match or partial_match, and the no-matches the
    rows with status no_match together with the items that raised an error
    and have no row; and, when there is at least one item, there is one
    alert for each no-match. *)
Theorem process_rfp_statistics (float_text : F64.t -> string)
  (error_text : VectorDb.error -> string) (faiss : bool)
  (db : VectorDb.VectorDatabase) (e : @SpecMatchEngine F64.t)
  (rfp_id timestamp : string) (items : list Models.RFPItem)
  (out : @Agent.TechnicalAgentOutput F64.t) :
  Agent.process_rfp float_text error_text faiss db e rfp_id timestamp items
    out ->
  let rows := Agent.summary_table out in
  (Agent.total_items_processed out = length items
   /\ Agent.successful_matches out + Agent.partial_matches out
      + Agent.no_matches out = length items
   /\ length rows = length (Agent.recommendations out)
   /\ length rows <= length items
   /\ Agent.successful_matches out = Agent.count_status "exact_match" rows
   /\ Agent.partial_matches out
      = Agent.count_status "close_match" rows
        + Agent.count_status "partial_match" rows
   /\ Agent.no_matches out
      = Agent.count_status "no_match" rows + (length items - length rows)
   /\ (items <> [] -> length (Agent.alerts out) = Agent.no_matches out))%nat.
Proof.
  intros (outcomes & Hall & ->). cbv zeta.
  destruct items as [|item items].
  { cbn. repeat split; try lia. congruence. }
  destruct (Forall2_outcomes _
              (fun o => forall rec, o = VectorDb.Ok rec -> Agent.coherent rec)
              _ _
              (fun it o H rec E =>
                 single_item_coherent faiss db e it rec
                   (eq_ind _ (Agent._process_single_item faiss db e it) H _ E))
              Hall) as [Hlen Hco].
  assert (T0 : Agent.tallied 0 (@Agent.progress0 F64.t))
    by (cbv; repeat split; lia).
  pose proof (process_loop_tallied float_text error_text (item :: items)
                outcomes 0 _ Hlen Hco T0) as (T1 & T2 & T3 & T4 & T5 & T6).
  cbn [Nat.add] in *.
  unfold Agent.assemble.
  cbn [Agent.total_items_processed Agent.successful_matches
       Agent.partial_matches Agent.no_matches Agent.recommendations
       Agent.summary_table Agent.alerts].
  assert (L : length (Agent._build_summary_table
                        (Agent.recs
                           (fold_left
                              (Agent.process_step float_text error_text)
                              (combine (item :: items) outcomes)
                              Agent.progress0)))
              = length (Agent.recs
                          (fold_left
                             (Agent.process_step float_text error_text)
                             (combine (item :: items) outcomes)
                             Agent.progress0)))
    by apply length_map.
  rewrite L. repeat split; auto.
Qed.

Lemma process_rfp_statistics_witness :
  Agent.total_items_processed
    (Agent.assemble (fun _ : F64.t => ""%string) (fun _ => ""%string)
       "RFP-1" "2024-01-01T00:00:00" [Agent.sample_item]
       [VectorDb.Ok
          (Agent.recommend (@default_engine F64.t _) Agent.sample_item
             (Agent.score_candidates default_engine Agent.sample_item
                [Agent.sample_product]))])
  = 1%nat.
Proof.
  refine (proj1 (process_rfp_statistics (fun _ => ""%string)
                   (fun _ => ""%string) false Agent.sample_db default_engine
                   "RFP-1" "2024-01-01T00:00:00" [Agent.sample_item] _ _)).
  eexists. split; [|reflexivity].
  constructor; [exact sample_processed | constructor].
Defined.

(** ** Processing against a built database *)

Section BuiltDatabase.

Import VectorDb.

Open Scope list_scope.
Open Scope nat_scope.

Variable set_iter : list string -> list string.

Lemma Forall2_lookup (items : list OEMProduct) (indices : list nat)
  (ps : list OEMProduct) :
  Forall2 (fun i p => nth_error items i = Some p) indices ps ->
  length ps = length indices /\ Forall (fun p => In p items) ps.
Proof.
  induction 1 as [|i p indices ps Hip _ [IH1 IH2]];
    [split; [reflexivity | constructor]|].
  split; [cbn; now rewrite IH1|].
  constructor; [now apply nth_error_In in Hip | exact IH2].
Qed.

(** On a database built from a catalog that is not empty, a search for five
    candidates returns min(5, catalog size) catalog items. *)
Lemma built_search (faiss : bool) (catalog : list OEMProduct) (query : string) :
  catalog <> [] ->
  exists db,
    initialize_from_products set_iter faiss new_database catalog = Ok db
    /\ (exists out,
          similarity_search faiss db query Config.TOP_K_CANDIDATES out)
    /\ (forall out,
          similarity_search faiss db query Config.TOP_K_CANDIDATES out ->
          exists ps, out = Ok ps
                     /\ length ps = Nat.min 5 (length catalog)
                     /\ Forall (fun p => In p catalog) ps).
Proof.
  intros Hne.
  destruct (initialize_succeeds set_iter faiss catalog Hne)
    as (embs & Hbatch & Hlen & Hinit).
  set (e := fit set_iter (new_embedder Config.EMBEDDING_DIMENSION)
                (map datasheet_text catalog)) in *.
  destruct (embed_fitted e query (fit_well_indexed set_iter _ _) eq_refl)
    as (raw & _ & _ & Hq).
  eexists. split; [exact Hinit|].
  assert (Hk : (0 < Config.TOP_K_CANDIDATES)%Z) by reflexivity.
  destruct faiss.
  - destruct (search_with_faiss catalog e embs (normalize raw) query
                Config.TOP_K_CANDIDATES Hne Hk Hlen Hq) as [Hex Hall].
    split; [exact Hex|]. intros out Hout.
    destruct (Hall out Hout) as (indices & ps & -> & H2 & Hl & _).
    destruct (Forall2_lookup _ _ _ H2) as [Hl' Hin].
    exists ps. repeat split; auto. now rewrite Hl', Hl.
  - destruct (search_without_faiss catalog e embs (normalize raw) query
                Config.TOP_K_CANDIDATES Hk Hlen Hq) as [Hex Hall].
    split; [exact Hex|]. intros out Hout.
    destruct (Hall out Hout) as (indices & ps & -> & H2 & Hl & _).
    destruct (Forall2_lookup _ _ _ H2) as [Hl' Hin].
    exists ps. repeat split; auto. now rewrite Hl', Hl.
Qed.

End BuiltDatabase.

(** X11.  Once the database is built from a catalog that is not empty,
    [_process_single_item] has an outcome for every item and never fails:
    each outcome is a recommendation with min(3, catalog size) matches whose
    recommended SKU is the identifier of a catalog product, so that the
    "NO_MATCH" branches are not taken; and [process_rfp] returns one
    recommendation for each item. *)
Theorem built_database_serves_every_item
  (set_iter : list string -> list string) (faiss : bool)
  (catalog : list VectorDb.OEMProduct) (e : @SpecMatchEngine F64.t) :
  catalog <> [] ->
  exists db,
    VectorDb.initialize_from_products set_iter faiss VectorDb.new_database
      catalog = VectorDb.Ok db
    /\ (forall item, exists out, Agent._process_single_item faiss db e item out)
    /\ (forall item out, Agent._process_single_item faiss db e item out ->
        exists rec,
          out = VectorDb.Ok rec
          /\ length (Agent.top_3_matches rec) = Nat.min 3 (length catalog)
          /\ exists p, In p catalog
                       /\ Agent.recommended_sku rec = VectorDb.sku_id p)
    /\ (forall float_text error_text rfp_id timestamp items out,
        Agent.process_rfp float_text error_text faiss db e rfp_id timestamp
          items out ->
        length (Agent.recommendations out) = length items).
Proof.
  intros Hne.
  destruct (built_search set_iter faiss catalog "" Hne) as (db & Hinit & _).
  assert (Hsearch : forall query,
    (exists out, VectorDb.similarity_search faiss db query
                   Config.TOP_K_CANDIDATES out)
    /\ (forall out, VectorDb.similarity_search faiss db query
                      Config.TOP_K_CANDIDATES out ->
        exists ps, out = VectorDb.Ok ps
                   /\ length ps = Nat.min 5 (length catalog)
                   /\ Forall (fun p => In p catalog) ps)).
  { intros query.
    destruct (built_search set_iter faiss catalog query Hne)
      as (db' & Hinit' & H1 & H2).
    assert (db' = db) by congruence. subst db'. now split. }
  assert (Hn : (0 < length catalog)%nat)
    by (destruct catalog; [congruence | cbn; lia]).
  assert (Hsingle : forall item out,
    Agent._process_single_item faiss db e item out ->
    exists rec,
      out = VectorDb.Ok rec
      /\ length (Agent.top_3_matches rec) = Nat.min 3 (length catalog)
      /\ exists p, In p catalog
                   /\ Agent.recommended_sku rec = VectorDb.sku_id p).
  { intros item out (found & Hs & Hm).
    destruct (proj2 (Hsearch _) found Hs) as (ps & -> & Hl & Hin).
    destruct ps as [|c0 ps0]; [cbn [length] in Hl; lia|].
    destruct Hm as (sorted & [Hperm _] & ->). eexists. split; [reflexivity|].
    pose proof (Permutation_length Hperm) as Hls.
    unfold Agent.score_candidates in Hls. rewrite length_map, Hl in Hls.
    split.
    - cbn [Agent.recommend Agent.top_3_matches].
      rewrite length_map, length_firstn, Hls.
      unfold Agent.TOP_N_RECOMMENDATIONS. lia.
    - destruct sorted as [|s0 sorted]; [cbn [length] in Hls; lia|].
      assert (Hs0 : In s0 (Agent.score_candidates e item (c0 :: ps0)))
        by (apply (Permutation_in _ Hperm); now left).
      unfold Agent.score_candidates in Hs0.
      apply in_map_iff in Hs0 as (c & <- & Hc).
      exists c. rewrite Forall_forall in Hin. split; [now apply Hin|].
      unfold Agent.recommend, Agent.TOP_N_RECOMMENDATIONS.
      cbn [firstn map hd_error snd Agent.recommended_sku].
      now destruct (match_product_score e item c) as (_ & _ & ->). }
  exists db. split; [exact Hinit|]. split; [|split; [exact Hsingle|]].
  - intros item.
    destruct (proj1 (Hsearch (Models.rfp_spec_raw item))) as [found Hs].
    destruct (proj2 (Hsearch _) found Hs) as (ps & -> & Hl & _).
    destruct ps as [|c0 ps0]; [cbn [length] in Hl; lia|].
    eexists. exists (VectorDb.Ok (c0 :: ps0)). split; [exact Hs|].
    exists (Agent.sort_by_score (fun x => Models.match_score (snd x))
              (Agent.score_candidates e item (c0 :: ps0))).
    split; [|reflexivity].
    split; [apply sort_by_score_perm | reflexivity].
  - intros float_text error_text rfp_id timestamp items out
      (outcomes & Hall & ->).
    destruct items as [|item items]; [reflexivity|].
    destruct (Forall2_outcomes _ (fun o => exists rec, o = VectorDb.Ok rec)
                _ _
                (fun it o H =>
                   match Hsingle it o H with
                   | ex_intro _ rec (conj E _) => ex_intro _ rec E
                   end) Hall) as [Hlen Hok].
    unfold Agent.assemble. cbn [Agent.recommendations].
    rewrite (process_loop_all_ok float_text error_text _ _ _ Hlen Hok).
    reflexivity.
Qed.

Lemma built_database_serves_every_item_witness :
  exists db,
    VectorDb.initialize_from_products VectorDb.first_occurrences false
      VectorDb.new_database VectorDb.three_items = VectorDb.Ok db
    /\ forall item, exists out,
         Agent._process_single_item false db (@default_engine F64.t _) item
           out.
Proof.
  destruct (built_database_serves_every_item VectorDb.first_occurrences false
              VectorDb.three_items default_engine) as (db & H1 & H2 & _).
  - discriminate.
  - exists db. split; [exact H1 | exact H2].
Defined.

(** ** Retrieval by identifier *)

Section BySku.

Import VectorDb.

Open Scope list_scope.

Lemma find_first {A : Type} (f : A -> bool) (l : list A) :
  match find f l with
  | Some x =>
      exists before after,
        l = before ++ x :: after /\ f x = true
        /\ Forall (fun y => f y = false) before
  | None => Forall (fun y => f y = false) l
  end.
Proof.
  induction l as [|a l IH]; cbn; [constructor|].
  destruct (f a) eqn:E.
  - exists [], l. repeat split; auto.
  - destruct (find f l) as [x|].
    + destruct IH as (before & after & -> & Hx & Hb).
      exists (a :: before), after. repeat split; auto.
    + now constructor.
Qed.

Lemma find_unique {A : Type} (f : A -> bool) (l : list A) (x : A) :
  In x l -> f x = true ->
  (forall y, In y l -> f y = true -> y = x) ->
  find f l = Some x.
Proof.
  intros Hin Hx Hu. pose proof (find_first f l) as H.
  destruct (find f l) as [y|].
  - destruct H as (before & after & -> & Hy & _). f_equal.
    apply Hu; [apply in_or_app; right; now left | exact Hy].
  - rewrite Forall_forall in H. specialize (H x Hin). congruence.
Qed.

Lemma initialize_products (set_iter : list string -> list string)
  (faiss : bool) (db0 db : VectorDatabase) (catalog : list OEMProduct) :
  initialize_from_products set_iter faiss db0 catalog = Ok db ->
  products db = catalog /\ is_initialized db = true.
Proof.
  unfold initialize_from_products.
  destruct catalog as [|p catalog]; [discriminate|].
  destruct (embed_batch _ _) as [embs|x]; [|discriminate].
  cbn [bind]. intros [= <-]. split; reflexivity.
Qed.

Lemma NoDup_map_injective {A B : Type} (f : A -> B) (l : list A) (x y : A) :
  NoDup (map f l) -> In x l -> In y l -> f x = f y -> x = y.
Proof.
  induction l as [|a l IH]; cbn; [tauto|].
  intros Hnd Hx Hy E. inversion Hnd as [|? ? Hna Hnd']; subst.
  destruct Hx as [->|Hx], Hy as [->|Hy]; auto.
  - exfalso. apply Hna. rewrite E. now apply in_map.
  - exfalso. apply Hna. rewrite <- E. now apply in_map.
Qed.

End BySku.

(** X12.  [get_product_by_sku] returns the first product with the identifier
    asked for, and None exactly when no product has it; and, on a database
    built from a catalog whose identifiers are distinct, every product of the
    catalog is returned for its own identifier. *)
Theorem product_by_sku :
  (forall (db : VectorDb.VectorDatabase) (sku : string),
      match get_product_by_sku db sku with
      | Some p =>
          exists before after,
            VectorDb.products db = (before ++ p :: after)%list
            /\ VectorDb.sku_id p = sku
            /\ Forall (fun q => VectorDb.sku_id q <> sku) before
      | None => Forall (fun q => VectorDb.sku_id q <> sku) (VectorDb.products db)
      end)
  /\ (forall (set_iter : list string -> list string) (faiss : bool)
        (db0 db : VectorDb.VectorDatabase) (catalog : list VectorDb.OEMProduct)
        (p : VectorDb.OEMProduct),
      VectorDb.initialize_from_products set_iter faiss db0 catalog
      = VectorDb.Ok db ->
      NoDup (map VectorDb.sku_id catalog) -> In p catalog ->
      get_product_by_sku db (VectorDb.sku_id p) = Some p).
Proof.
  split.
  - intros db sku. unfold get_product_by_sku.
    pose proof (find_first
                  (fun product => String.eqb (VectorDb.sku_id product) sku)
                  (VectorDb.products db)) as H.
    destruct (find _ _) as [p|].
    + destruct H as (before & after & E & Hp & Hb).
      exists before, after. split; [exact E|].
      split; [now apply String.eqb_eq|].
      revert Hb. apply Forall_impl. intros q Hq. now apply String.eqb_neq.
    + revert H. apply Forall_impl. intros q Hq. now apply String.eqb_neq.
  - intros set_iter faiss db0 db catalog p Hinit Hnd Hin.
    unfold get_product_by_sku.
    destruct (initialize_products _ _ _ _ _ Hinit) as [-> _].
    apply find_unique; [exact Hin | apply String.eqb_refl|].
    intros q Hq Hs. apply String.eqb_eq in Hs.
    exact (NoDup_map_injective VectorDb.sku_id catalog q p Hnd Hq Hin Hs).
Qed.

Lemma product_by_sku_witness :
  exists db,
    VectorDb.initialize_from_products VectorDb.first_occurrences false
      VectorDb.new_database VectorDb.three_items = VectorDb.Ok db
    /\ get_product_by_sku db "C" = Some (VectorDb.text_item "C" "xlpe").
Proof.
  eexists. split; [exact three_items_built|].
  apply (proj2 product_by_sku VectorDb.first_occurrences false
           VectorDb.new_database _ VectorDb.three_items
           (VectorDb.text_item "C" "xlpe") three_items_built).
  - repeat constructor; cbn; intuition discriminate.
  - cbn. auto.
Defined.

(** ** Document frequency *)

Section DocumentFrequency.

Import VectorDb.

Open Scope list_scope.
Open Scope nat_scope.

Lemma dict_get_incr (w k : string) (d : list (string * nat)) :
  dict_get w (dict_incr k d)
  = if String.eqb w k then Some (S (count_of k d)) else dict_get w d.
Proof.
  unfold count_of. induction d as [|[k' n] d IH]; cbn [dict_incr dict_get].
  - destruct (String.eqb w k); reflexivity.
  - destruct (String.eqb_spec k k') as [->|Hk]; cbn [dict_get].
    + destruct (String.eqb_spec w k') as [->|Hw]; reflexivity.
    + rewrite IH. destruct (String.eqb_spec w k') as [->|Hw].
      * destruct (String.eqb_spec k' k) as [->|_]; [congruence | reflexivity].
      * reflexivity.
Qed.

(** Counting a list of distinct words adds one to each of them. *)
Lemma count_all_distinct (ws : list string) (d : list (string * nat))
  (w : string) :
  NoDup ws ->
  dict_get w (count_all ws d)
  = if existsb (String.eqb w) ws then Some (S (count_of w d))
    else dict_get w d.
Proof.
  revert d. unfold count_all.
  induction ws as [|k ws IH]; intros d Hnd; [reflexivity|].
  inversion Hnd as [|? ? Hk Hnd']; subst.
  cbn [fold_left existsb]. rewrite (IH _ Hnd').
  unfold count_of. rewrite dict_get_incr.
  destruct (String.eqb_spec w k) as [->|Hw]; cbn [orb]; [|reflexivity].
  destruct (existsb (String.eqb k) ws) eqn:E; [|reflexivity].
  apply existsb_exists in E as (x & Hx & Ex). apply String.eqb_eq in Ex.
  subst x. contradiction.
Qed.

Variable set_iter : list string -> list string.
Hypothesis set_iter_ok : visits_each_once set_iter.

Lemma existsb_set_iter (w : string) (ws : list string) :
  existsb (String.eqb w) (set_iter ws) = existsb (String.eqb w) ws.
Proof.
  destruct (set_iter_ok ws) as [_ Hin].
  apply eq_true_iff_eq. rewrite !existsb_exists. split.
  - intros (x & Hx & E). exists x. split; [now apply Hin | exact E].
  - intros (x & Hx & E). exists x. split; [now apply Hin | exact E].
Qed.

Lemma doc_freq_fold (texts : list string) (df : list (string * nat))
  (w : string) :
  dict_get w
    (fold_left (fun df text => count_all (set_iter (_tokenize text)) df)
               texts df)
  = match dict_get w df, document_count w texts with
    | None, 0 => None
    | _, n => Some (count_of w df + n)
    end.
Proof.
  revert df. unfold document_count.
  induction texts as [|text texts IH]; intros df.
  - cbn. unfold count_of. destruct (dict_get w df); [f_equal; lia | reflexivity].
  - cbn [fold_left filter]. rewrite IH.
    pose proof (count_all_distinct (set_iter (_tokenize text)) df w
                  (proj1 (set_iter_ok _))) as E.
    rewrite existsb_set_iter in E. unfold count_of in *. rewrite E.
    destruct (existsb (String.eqb w) (_tokenize text)); cbn [length].
    + destruct (dict_get w df); f_equal; lia.
    + reflexivity.
Qed.

Lemma doc_freq_counts (texts : list string) (w : string) :
  dict_get w (doc_freq set_iter texts)
  = match document_count w texts with
    | 0 => None
    | n => Some n
    end.
Proof. unfold doc_freq. now rewrite doc_freq_fold. Qed.

Lemma dict_get_map_values {V W : Type} (f : string * V -> W) (k : string)
  (d : list (string * V)) :
  dict_get k (map (fun kv => (fst kv, f kv)) d)
  = match dict_get k d with
    | Some v => Some (f (k, v))
    | None => None
    end.
Proof.
  induction d as [|[k' v] d IH]; cbn; [reflexivity|].
  destruct (String.eqb_spec k k') as [->|_]; [reflexivity | exact IH].
Qed.

End DocumentFrequency.

Section FirstOccurrences.

Import VectorDb.

Lemma first_occurrences_in (l : list string) (w : string) :
  In w (first_occurrences l) <-> In w l.
Proof.
  induction l as [|x l IH]; cbn; [tauto|].
  rewrite filter_In, IH. destruct (String.eqb_spec w x) as [->|Hw]; cbn.
  - tauto.
  - split; [tauto|]. intros [->|H]; [contradiction | tauto].
Qed.

Lemma NoDup_filter {A : Type} (f : A -> bool) (l : list A) :
  NoDup l -> NoDup (filter f l).
Proof.
  induction 1 as [|x l Hx _ IH]; cbn; [constructor|].
  destruct (f x); [|exact IH].
  constructor; [|exact IH]. rewrite filter_In. tauto.
Qed.

Lemma first_occurrences_visits : visits_each_once first_occurrences.
Proof.
  intros l. split; [|intros w; apply first_occurrences_in].
  induction l as [|x l IH]; cbn; [constructor|].
  constructor; [|now apply NoDup_filter].
  rewrite filter_In. intros [_ H]. now rewrite String.eqb_refl in H.
Qed.

End FirstOccurrences.

Section IdfOfFit.

Lemma idf_of_fit (set_iter : list string -> list string)
  (e : VectorDb.SimpleEmbedder) (texts : list string) (w : string) :
  visits_each_once set_iter ->
  VectorDb.idf_get (VectorDb.fit set_iter e texts) w
  = match document_count w texts with
    | O => 0%R
    | n => ln (INR (length texts) / INR (n + 1))
    end.
Proof.
  intros Hset.
  unfold VectorDb.idf_get, VectorDb.fit. cbn [VectorDb.idf].
  rewrite (dict_get_map_values
             (fun wd => ln (INR (length texts) / INR (snd wd + 1)))).
  rewrite (doc_freq_counts set_iter Hset).
  now destruct (document_count w texts).
Qed.

End IdfOfFit.

(** X13.  When the iteration over a set visits each of its words once, [fit]
    counts documents: the frequency held for a word is the number of texts
    in which it occurs as a token, a word that occurs in none has no entry,
    and the idf of a word that occurs in [n >= 1] of the [N] texts is
    [ln (N / (n + 1))], while a word that occurs in none counts with idf 0. *)
Theorem fit_counts_documents (set_iter : list string -> list string)
  (e : VectorDb.SimpleEmbedder) (texts : list string) (w : string) :
  visits_each_once set_iter ->
  dict_get w (VectorDb.doc_freq set_iter texts)
  = match document_count w texts with
    | O => None
    | n => Some n
    end
  /\ VectorDb.idf_get (VectorDb.fit set_iter e texts) w
     = match document_count w texts with
       | O => 0%R
       | n => ln (INR (length texts) / INR (n + 1))
       end.
Proof.
  intros Hset. split; [now apply doc_freq_counts | now apply idf_of_fit].
Qed.

Lemma fit_counts_documents_witness :
  dict_get "xlpe"
    (VectorDb.doc_freq VectorDb.first_occurrences
       ["XLPE cable, xlpe insulated"; "copper"; "Al XLPE"])
  = Some 2%nat.
Proof.
  refine (proj1 (fit_counts_documents VectorDb.first_occurrences
                   (VectorDb.new_embedder 4) _ "xlpe"
                   first_occurrences_visits)).
Defined.

(** ** Agreement of the two backends *)

Section Agreement.

Import VectorDb Lra.

Open Scope list_scope.
Open Scope R_scope.






Variables (e : SimpleEmbedder) (embs : list (list R))
  (items : list OEMProduct) (q : list R) (query : string) (k : Z) (c : R).

Hypothesis k_positive : (0 < k)%Z.
Hypothesis stored_all : length embs = length items.
Hypothesis query_embedding : embed e query = Ok q.
Hypothesis same_norm :
  Forall (fun v => length v = length q /\ sum_squares v = c) embs.






End Agreement.

Section BuiltAgreement.

Import VectorDb Lra.

Open Scope list_scope.
Open Scope R_scope.

Lemma embed_batch_shape (e : SimpleEmbedder) (texts : list string)
  (embs : list (list R)) :
  well_indexed e -> fitted e = true ->
  embed_batch e texts = Ok embs ->
  length embs = length texts
  /\ Forall (fun v => exists raw, length raw = dimension e
                                  /\ v = normalize raw) embs.
Proof.
  intros He Hf. revert embs.
  induction texts as [|t texts IH]; intros embs; cbn [embed_batch].
  - intros [= <-]. split; [reflexivity | constructor].
  - destruct (embed_fitted e t He Hf) as (raw & _ & Hl & ->). cbn [bind].
    destruct (embed_batch e texts) as [embs'|x]; [|discriminate].
    cbn [bind]. intros [= <-]. destruct (IH embs' eq_refl) as [IH1 IH2].
    split; [cbn; now rewrite IH1|].
    constructor; [now exists raw | exact IH2].
Qed.



End BuiltAgreement.


Section ThreeWords.
Import VectorDb Lra.
Open Scope R_scope.
Open Scope string_scope.



End ThreeWords.

(** ** Strings *)

Section Appending.

Open Scope string_scope.

Lemma app_assoc_str (a b c : string) : (a ++ b) ++ c = a ++ b ++ c.
Proof. induction a as [|x a IH]; cbn; [reflexivity | now rewrite IH]. Qed.

Lemma app_nil_r_str (a : string) : a ++ "" = a.
Proof. induction a as [|x a IH]; cbn; [reflexivity | now rewrite IH]. Qed.

Lemma length_app_str (a b : string) :
  String.length (a ++ b) = (String.length a + String.length b)%nat.
Proof. induction a as [|x a IH]; cbn; [reflexivity | now rewrite IH]. Qed.

Lemma substring_app (a b : string) :
  substring 0 (String.length a) (a ++ b) = a.
Proof. induction a as [|x a IH]; cbn; [now destruct b | now rewrite IH]. Qed.

Lemma consumed_app (a b : string) : Re.consumed (a ++ b) b = a.
Proof.
  unfold Re.consumed. rewrite length_app_str.
  replace (String.length a + String.length b - String.length b)%nat
    with (String.length a) by lia.
  apply substring_app.
Qed.

End Appending.

(** ** The matcher finds matches *)

Section Soundness.

Open Scope string_scope.

Context {A : Type}.

(** Whatever [run] returns was returned by the continuation, on the text
    left after a match of the pattern and with the groups of that match. *)
Lemma run_sound (r : Re.regex) :
  forall (s : string) (caps : Re.captures)
         (k : string -> Re.captures -> option A) (x : A),
    Re.run r s caps k = Some x ->
    exists s1 s2 caps',
      s = s1 ++ s2 /\ Re.matches r s1 caps caps' /\ k s2 caps' = Some x.
Proof.
  induction r as [|p|r1 IH1 r2 IH2|r1 IH1 r2 IH2|r1 IH1|n r1 IH1];
    intros s caps k x Hrun; cbn [Re.run] in Hrun.
  - exists "", s, caps. repeat split; [constructor | exact Hrun].
  - destruct s as [|c s]; [discriminate|].
    destruct (p c) eqn:Hp; [|discriminate].
    exists (String c ""), s, caps. repeat split; [now constructor | exact Hrun].
  - apply IH1 in Hrun as (s1 & s2 & caps1 & -> & M1 & Hrun).
    apply IH2 in Hrun as (s21 & s22 & caps2 & -> & M2 & Hk).
    exists (s1 ++ s21), s22, caps2. rewrite app_assoc_str.
    repeat split; [econstructor; eassumption | exact Hk].
  - destruct (Re.run r1 s caps k) as [y|] eqn:E1.
    + injection Hrun as ->. apply IH1 in E1 as (s1 & s2 & caps' & -> & M & Hk).
      exists s1, s2, caps'. repeat split; [now apply Re.MAltL | exact Hk].
    + apply IH2 in Hrun as (s1 & s2 & caps' & -> & M & Hk).
      exists s1, s2, caps'. repeat split; [now apply Re.MAltR | exact Hk].
  - revert Hrun. generalize (String.length s) at 1. intros fuel.
    revert s caps. induction fuel as [|fuel IHf]; intros s caps Hrun.
    + exists "", s, caps. repeat split; [constructor | exact Hrun].
    + match type of Hrun with
      | match ?t with _ => _ end = _ => destruct t as [y|] eqn:E1
      end.
      * injection Hrun as ->.
        apply IH1 in E1 as (s1 & s2 & caps1 & -> & M1 & Hk).
        destruct (String.length s2 <? String.length (s1 ++ s2))%nat;
          [|discriminate].
        apply IHf in Hk as (s21 & s22 & caps2 & -> & M2 & Hk).
        exists (s1 ++ s21), s22, caps2. rewrite app_assoc_str.
        repeat split; [econstructor; eassumption | exact Hk].
      * exists "", s, caps. repeat split; [constructor | exact Hrun].
  - apply IH1 in Hrun as (s1 & s2 & caps' & -> & M & Hk).
    rewrite consumed_app in Hk.
    exists s1, s2, ((n, s1) :: caps'). repeat split; [now constructor | exact Hk].
Qed.

End Soundness.

Section Matches.

Open Scope string_scope.

Lemma search_sound (r : Re.regex) (s : string) (caps : Re.captures) :
  Re.search r s = Some caps ->
  exists before text after,
    s = before ++ text ++ after /\ Re.matches r text [] caps.
Proof.
  induction s as [|c s IH]; cbn [Re.search].
  - destruct (Re.py_match r "") as [caps'|] eqn:E; [|discriminate].
    intros [= ->]. apply run_sound in E as (s1 & s2 & caps' & Hs & M & [= ->]).
    exists "", s1, s2. now split.
  - destruct (Re.py_match r (String c s)) as [caps'|] eqn:E.
    + intros [= ->]. apply run_sound in E as (s1 & s2 & caps' & Hs & M & [= ->]).
      exists "", s1, s2. now split.
    + intros H. apply IH in H as (before & text & after & -> & M).
      exists (String c before), text, after. now split.
Qed.

(** A pattern without groups leaves the captured groups as they are. *)
Lemma group_free_matches (r : Re.regex) (s : string) (caps caps' : Re.captures) :
  Re.matches r s caps caps' -> Re.group_free r = true -> caps' = caps.
Proof.
  induction 1; cbn [Re.group_free]; intros G; try reflexivity;
    try (apply andb_true_iff in G as [G1 G2]); try discriminate.
  - rewrite IHmatches2, IHmatches1; auto.
  - auto.
  - auto.
  - rewrite IHmatches2, IHmatches1; auto.
Qed.

Lemma matches_eps_inv (s : string) (caps caps' : Re.captures) :
  Re.matches Re.Eps s caps caps' -> s = "" /\ caps' = caps.
Proof. intros M. inversion M; subst. now split. Qed.

Lemma matches_chr_inv (p : ascii -> bool) (s : string)
  (caps caps' : Re.captures) :
  Re.matches (Re.Chr p) s caps caps' ->
  exists c, s = String c "" /\ p c = true /\ caps' = caps.
Proof. intros M. inversion M; subst. eexists. repeat split; assumption. Qed.

Lemma matches_seq_inv (r1 r2 : Re.regex) (s : string)
  (caps caps' : Re.captures) :
  Re.matches (Re.Seq r1 r2) s caps caps' ->
  exists s1 s2 caps1,
    s = s1 ++ s2 /\ Re.matches r1 s1 caps caps1
    /\ Re.matches r2 s2 caps1 caps'.
Proof. intros M. inversion M; subst. eexists _, _, _. repeat split; eassumption. Qed.

Lemma matches_alt_inv (r1 r2 : Re.regex) (s : string)
  (caps caps' : Re.captures) :
  Re.matches (Re.Alt r1 r2) s caps caps' ->
  Re.matches r1 s caps caps' \/ Re.matches r2 s caps caps'.
Proof. intros M. inversion M; subst; auto. Qed.

Lemma matches_group_inv (n : nat) (r : Re.regex) (s : string)
  (caps caps' : Re.captures) :
  Re.matches (Re.Group n r) s caps caps' ->
  exists caps1, Re.matches r s caps caps1 /\ caps' = (n, s) :: caps1.
Proof. intros M. inversion M; subst. eexists. split; [eassumption | reflexivity]. Qed.

Lemma matches_star_chars (p : ascii -> bool) (s : string)
  (caps caps' : Re.captures) :
  Re.matches (Re.Star (Re.Chr p)) s caps caps' ->
  VectorDb.all_chars p s = true.
Proof.
  remember (Re.Star (Re.Chr p)) as r eqn:Er. intros M.
  induction M; try discriminate; [reflexivity|].
  injection Er as ->. apply matches_chr_inv in M1 as (c & -> & Hc & _).
  cbn. rewrite Hc. cbn. now apply IHM2.
Qed.

Lemma matches_plus_chars (p : ascii -> bool) (s : string)
  (caps caps' : Re.captures) :
  Re.matches (Re.Plus (Re.Chr p)) s caps caps' ->
  VectorDb.all_chars p s = true /\ s <> "".
Proof.
  unfold Re.Plus. intros M.
  apply matches_seq_inv in M as (s1 & s2 & caps1 & -> & M1 & M2).
  apply matches_chr_inv in M1 as (c & -> & Hc & _).
  apply matches_star_chars in M2. cbn.
  rewrite Hc, M2. split; [reflexivity | discriminate].
Qed.

Lemma matches_lit1 (c : ascii) (s : string) (caps caps' : Re.captures) :
  Re.matches (Re.Lit1 c) s caps caps' -> s = String c "".
Proof.
  unfold Re.Lit1. intros M. apply matches_chr_inv in M as (c' & -> & Hc & _).
  apply Ascii.eqb_eq in Hc. now subst.
Qed.

Lemma matches_lit (w s : string) (caps caps' : Re.captures) :
  Re.matches (Re.Lit w) s caps caps' -> s = w.
Proof.
  revert s caps caps'. induction w as [|c w IH]; intros s caps caps' M;
    cbn [Re.Lit] in M.
  - now apply matches_eps_inv in M.
  - apply matches_seq_inv in M as (s1 & s2 & caps1 & -> & M1 & M2).
    apply matches_lit1 in M1. apply IH in M2. now subst.
Qed.

(** The texts matched by [\d+(?:\.\d+)?]. *)
Lemma matches_number (d : string) (caps caps' : Re.captures) :
  Re.matches Re.number d caps caps' ->
  exists ip,
    VectorDb.all_chars FloatSyntax.is_digit ip = true /\ ip <> ""
    /\ (d = ip
        \/ exists fp, VectorDb.all_chars FloatSyntax.is_digit fp = true
                      /\ fp <> "" /\ d = ip ++ String "." fp).
Proof.
  unfold Re.number, Re.Opt. intros M.
  apply matches_seq_inv in M as (ip & rest & caps1 & -> & M1 & M2).
  apply matches_plus_chars in M1 as [Hip Hne].
  exists ip. split; [exact Hip|]. split; [exact Hne|].
  apply matches_alt_inv in M2 as [M2|M2].
  - right. apply matches_seq_inv in M2 as (dot & fp & caps2 & -> & M3 & M4).
    apply matches_lit1 in M3. subst dot.
    apply matches_plus_chars in M4 as [Hfp Hfne].
    exists fp. repeat split; auto.
  - left. apply matches_eps_inv in M2 as [-> _]. apply app_nil_r_str.
Qed.

End Matches.

(** ** Decimal texts *)

Section DecimalTexts.

Import PyStr FloatSyntax.

Open Scope string_scope.

Lemma all_chars_app (p : ascii -> bool) (a b : string) :
  VectorDb.all_chars p (a ++ b)
  = (VectorDb.all_chars p a && VectorDb.all_chars p b)%bool.
Proof.
  induction a as [|c a IH]; cbn; [reflexivity|].
  now rewrite IH, andb_assoc.
Qed.

Lemma all_chars_impl (p p' : ascii -> bool) (s : string) :
  (forall c, p c = true -> p' c = true) ->
  VectorDb.all_chars p s = true -> VectorDb.all_chars p' s = true.
Proof.
  intros Hp. induction s as [|c s IH]; cbn; [reflexivity|].
  intros H. apply andb_true_iff in H as [Hc Hs].
  now rewrite (Hp c Hc), IH.
Qed.

(** Digits and the point are neither white space nor capitals. *)
Lemma decimal_char_plain (c : ascii) :
  AttributeUtils.decimal_char c = true -> is_space c = false /\ is_upper c = false.
Proof.
  unfold AttributeUtils.decimal_char. intros H. apply orb_true_iff in H as [H|H].
  - unfold is_digit, is_space, is_upper, between in *.
    apply andb_true_iff in H as [H1 H2].
    apply N.leb_le in H1, H2.
    split; repeat (apply orb_false_iff; split);
      try (apply andb_false_iff; left; apply N.leb_gt; lia);
      try (apply andb_false_iff; right; apply N.leb_gt; lia);
      try (apply N.eqb_neq; lia).
    apply andb_false_iff. left. apply andb_false_iff. left.
    apply N.leb_gt. lia.
  - apply Ascii.eqb_eq in H. subst c. split; reflexivity.
Qed.

Lemma lower_plain (s : string) :
  VectorDb.all_chars (fun c => negb (is_upper c)) s = true -> lower s = s.
Proof.
  induction s as [|c s IH]; cbn; [reflexivity|].
  intros H. apply andb_true_iff in H as [Hc Hs].
  unfold lower_char. apply negb_true_iff in Hc. now rewrite Hc, IH.
Qed.

Lemma rstrip_plain (s : string) :
  VectorDb.all_chars (fun c => negb (is_space c)) s = true -> rstrip s = s.
Proof.
  induction s as [|c s IH]; cbn [rstrip VectorDb.all_chars]; [reflexivity|].
  intros H. apply andb_true_iff in H as [Hc Hs].
  apply negb_true_iff in Hc. rewrite (IH Hs), Hc. now destruct s.
Qed.

Lemma strip_plain (s : string) :
  VectorDb.all_chars (fun c => negb (is_space c)) s = true -> strip s = s.
Proof.
  intros H. unfold strip.
  assert (L : lstrip s = s).
  { destruct s as [|c s]; [reflexivity|]. cbn in *.
    apply andb_true_iff in H as [Hc _]. apply negb_true_iff in Hc.
    now rewrite Hc. }
  rewrite L. now apply rstrip_plain.
Qed.

Lemma digit_not (c : ascii) (n : N) :
  is_digit c = true -> (n < 48 \/ 57 < n)%N -> is_char n c = false.
Proof.
  unfold is_digit, between, is_char. intros H Hn.
  apply andb_true_iff in H as [H1 H2]. apply N.leb_le in H1, H2.
  apply N.eqb_neq. lia.
Qed.

Lemma digit_neq (c c' : ascii) :
  is_digit c = true -> is_digit c' = false -> Ascii.eqb c c' = false.
Proof.
  intros H H'. destruct (Ascii.eqb_spec c c') as [->|]; [congruence|reflexivity].
Qed.

(** [digitpart_tail] reads a run of digits to its end. *)
Lemma digitpart_tail_digits (ds : string) :
  VectorDb.all_chars is_digit ds = true ->
  forall (acc cnt : Z) (rest : string),
    match rest with
    | String c _ => is_digit c = false /\ is_char 95 c = false
    | EmptyString => True
    end ->
    exists m, digitpart_tail acc cnt (ds ++ rest)
              = (m, (cnt + Z.of_nat (String.length ds))%Z, rest).
Proof.
  induction ds as [|c ds IH]; intros Hd acc cnt rest Hrest.
  - cbn [append String.length]. exists acc. rewrite Z.add_0_r.
    destruct rest as [|c r]; [reflexivity|]. destruct Hrest as [H1 H2].
    cbn [digitpart_tail]. now rewrite H1, H2.
  - cbn [VectorDb.all_chars] in Hd. apply andb_true_iff in Hd as [Hc Hd].
    cbn [append digitpart_tail String.length]. rewrite Hc.
    destruct (IH Hd (10 * acc + digit_value c)%Z (cnt + 1)%Z rest Hrest)
      as [m Hm].
    exists m. rewrite Hm. f_equal. f_equal. lia.
Qed.

Lemma digitpart_digits (ds : string) (acc : Z) (rest : string) :
  VectorDb.all_chars is_digit ds = true -> ds <> "" ->
  match rest with
  | String c _ => is_digit c = false /\ is_char 95 c = false
  | EmptyString => True
  end ->
  exists m k, digitpart acc (ds ++ rest) = Some (m, k, rest).
Proof.
  intros Hd Hne Hrest. destruct ds as [|c ds]; [congruence|].
  cbn [VectorDb.all_chars] in Hd. apply andb_true_iff in Hd as [Hc Hd].
  cbn [append digitpart]. rewrite Hc.
  destruct (digitpart_tail_digits ds Hd (10 * acc + digit_value c)%Z 1%Z rest
              Hrest) as [m Hm].
  rewrite Hm. eexists _, _. reflexivity.
Qed.

(** [float] reads every decimal text. *)
Lemma parse_decimal (d : string) :
  AttributeUtils.is_decimal d ->
  exists m e, parse d = Some (LDec false m e).
Proof.
  intros (ip & Hip & Hne & Hd).
  assert (Hplain : VectorDb.all_chars AttributeUtils.decimal_char d = true).
  { assert (Hi : VectorDb.all_chars AttributeUtils.decimal_char ip = true).
    { revert Hip. apply all_chars_impl. intros c Hc.
      unfold AttributeUtils.decimal_char. now rewrite Hc. }
    destruct Hd as [->|(fp & Hfp & _ & ->)]; [exact Hi|].
    rewrite all_chars_app, Hi. cbn. 
    revert Hfp. apply all_chars_impl. intros c Hc.
    unfold AttributeUtils.decimal_char. now rewrite Hc. }
  assert (Hstrip : strip d = d).
  { apply strip_plain. revert Hplain. apply all_chars_impl.
    intros c Hc. apply decimal_char_plain in Hc as [-> _]. reflexivity. }
  assert (Hlower : lower d = d).
  { apply lower_plain. revert Hplain. apply all_chars_impl.
    intros c Hc. apply decimal_char_plain in Hc as [_ ->]. reflexivity. }
  destruct ip as [|c ip']; [congruence|].
  pose proof Hip as Hip0.
  cbn [VectorDb.all_chars] in Hip. apply andb_true_iff in Hip as [Hc Hip'].
  assert (Hfirst : exists rest, d = String c rest).
  { destruct Hd as [->|(fp & _ & _ & ->)]; eexists; reflexivity. }
  destruct Hfirst as [rest Hrest].
  unfold parse. rewrite Hstrip.
  assert (Hsign : sign d = (false, d)).
  { rewrite Hrest. unfold sign.
    rewrite (digit_not c 45 Hc), (digit_not c 43 Hc) by lia. reflexivity. }
  rewrite Hsign.
  assert (Hspecial : special false d = None).
  { unfold special. rewrite Hlower, Hrest. cbn [String.eqb].
    rewrite !(digit_neq c _ Hc) by reflexivity. reflexivity. }
  rewrite Hspecial. unfold number.
  destruct Hd as [->|(fp & Hfp & Hfne & ->)].
  - rewrite <- (app_nil_r_str (String c ip')).
    destruct (digitpart_digits (String c ip') 0 "" Hip0 Hne I) as (m & k & ->).
    cbn [exponent]. eexists _, _. reflexivity.
  - destruct (digitpart_digits (String c ip') 0 (String "." fp) Hip0 Hne)
      as (m & k & ->); [split; reflexivity|].
    change (is_char 46 ".") with true. cbv iota.
    rewrite <- (app_nil_r_str fp).
    destruct (digitpart_digits fp m "" Hfp Hfne I) as (m' & k' & ->).
    cbn [exponent]. eexists _, _. reflexivity.
Qed.

End DecimalTexts.

(** ** The cross section found in a text *)

Section CrossSectionTexts.

Import Re.

Open Scope string_scope.

(** Removing [old] from a text that has nowhere the first character of
    [old], and from that text followed by [old]. *)
Lemma remove_absent (o : ascii) (old k : string) :
  VectorDb.all_chars (fun c => negb (Ascii.eqb o c)) k = true ->
  PyStr.remove (String o old) k = k
  /\ PyStr.remove (String o old) (k ++ String o old) = k.
Proof.
  unfold PyStr.remove. induction k as [|c k IH]; intros Hk.
  - split; [reflexivity|]. cbn [append PyStr.remove_from prefix].
    destruct (ascii_dec o o) as [_|N]; [|congruence].
    assert (P : prefix old old = true).
    { clear. induction old as [|c old IH]; cbn; [reflexivity|].
      destruct (ascii_dec c c); [exact IH | congruence]. }
    rewrite P. cbn [String.length pred]. apply remove_from_skip_all.
  - cbn [VectorDb.all_chars] in Hk. apply andb_true_iff in Hk as [Hc Hk].
    destruct (IH Hk) as [IH1 IH2].
    assert (P : forall s, prefix (String o old) (String c s) = false).
    { intros s. cbn [prefix].
      destruct (ascii_dec o c) as [->|_]; [|reflexivity].
      now rewrite Ascii.eqb_refl in Hc. }
    split.
    + cbn [PyStr.remove_from]. rewrite P, IH1. reflexivity.
    + cbn [PyStr.remove_from append]. rewrite P, IH2. reflexivity.
Qed.

(** The groups of a pattern that starts with its only group. *)
Lemma leading_group (r rest : regex) (text : string) (caps : captures) :
  group_free r = true -> group_free rest = true ->
  matches (Seq (Group 1 r) rest) text [] caps ->
  exists d after, text = d ++ after /\ caps = [(1%nat, d)] /\ matches r d [] [].
Proof.
  intros Gr Grest M.
  apply matches_seq_inv in M as (d & after & caps1 & -> & M1 & M2).
  apply matches_group_inv in M1 as (caps0 & M1 & ->).
  pose proof (group_free_matches _ _ _ _ M1 Gr) as ->.
  pose proof (group_free_matches _ _ _ _ M2 Grest) as ->.
  now exists d, after.
Qed.

Lemma first_search_in (patterns : list regex) (text : string)
  (caps : captures) :
  AttributeUtils.first_search patterns text = Some caps ->
  exists pattern, In pattern patterns /\ search pattern text = Some caps.
Proof.
  induction patterns as [|p ps IH]; cbn; [discriminate|].
  destruct (search p text) as [c|] eqn:E.
  - intros [= ->]. exists p. auto.
  - intros H. destruct (IH H) as (q & Hq & Hs). exists q. auto.
Qed.

(** What [extract_cross_section] returns: a decimal text followed by
    "sqmm". *)
Lemma extract_cross_section_form (text cs : string) :
  AttributeUtils.extract_cross_section text = Some cs ->
  exists d, AttributeUtils.is_decimal d /\ cs = d ++ "sqmm".
Proof.
  unfold AttributeUtils.extract_cross_section.
  destruct (negb (PyStr.truthy text)); [discriminate|].
  destruct (AttributeUtils.first_search _ _) as [caps|] eqn:E; [|discriminate].
  intros [= <-]. apply first_search_in in E as (p & Hp & Hs).
  apply search_sound in Hs as (before & t & after & _ & M).
  assert (Hd : exists d after', t = d ++ after' /\ caps = [(1%nat, d)]
                                /\ matches number d [] []).
  { cbn in Hp. destruct Hp as [<-|[<-|[<-|[<-|[]]]]];
      now apply leading_group in M. }
  destruct Hd as (d & _ & _ & -> & Md).
  exists d. split; [|reflexivity].
  exact (matches_number d _ _ Md).
Qed.

Lemma decimal_chars (d : string) :
  AttributeUtils.is_decimal d ->
  VectorDb.all_chars AttributeUtils.decimal_char d = true /\ d <> "".
Proof.
  intros (ip & Hip & Hne & Hd).
  assert (Hi : VectorDb.all_chars AttributeUtils.decimal_char ip = true).
  { revert Hip. apply all_chars_impl. intros c Hc.
    unfold AttributeUtils.decimal_char. now rewrite Hc. }
  destruct Hd as [->|(fp & Hfp & _ & ->)]; [now split|].
  split; [|destruct ip; [congruence | discriminate]].
  rewrite all_chars_app, Hi. cbn.
  revert Hfp. apply all_chars_impl. intros c Hc.
  unfold AttributeUtils.decimal_char. now rewrite Hc.
Qed.

Lemma table_keys_start_with_letters :
  forallb (fun kv => match fst kv with
                     | String c _ => negb (AttributeUtils.decimal_char c)
                     | EmptyString => false
                     end) Config.NORMALIZED_VALUES = true.
Proof. vm_compute. reflexivity. Qed.

(** A decimal text followed by a unit in small letters is its own
    normal form. *)
Lemma normalize_decimal_unit (d unit : string) :
  AttributeUtils.is_decimal d ->
  VectorDb.all_chars (fun c => negb (PyStr.is_space c)) unit = true ->
  VectorDb.all_chars (fun c => negb (PyStr.is_upper c)) unit = true ->
  normalize_value (d ++ unit) = d ++ unit.
Proof.
  intros Hd Hs Hu. destruct (decimal_chars d Hd) as [Hc Hne].
  rewrite normalize_value_unfold.
  assert (L : PyStr.lower (d ++ unit) = d ++ unit).
  { apply lower_plain. rewrite all_chars_app, Hu, andb_true_r.
    revert Hc. apply all_chars_impl. intros c H.
    apply decimal_char_plain in H as [_ ->]. reflexivity. }
  assert (S : PyStr.strip (d ++ unit) = d ++ unit).
  { apply strip_plain. rewrite all_chars_app, Hs, andb_true_r.
    revert Hc. apply all_chars_impl. intros c H.
    apply decimal_char_plain in H as [-> _]. reflexivity. }
  rewrite L, S.
  destruct (dict_get (d ++ unit) Config.NORMALIZED_VALUES) as [v|] eqn:E;
    [|reflexivity].
  apply dict_get_In in E. pose proof table_keys_start_with_letters as T.
  rewrite forallb_forall in T. specialize (T _ E). cbn [fst] in T.
  destruct d as [|c d]; [congruence|]. cbn in T, Hc.
  apply andb_true_iff in Hc as [Hc _]. now rewrite Hc in T.
Qed.

Lemma cross_section_digits_of (d : string) :
  AttributeUtils.is_decimal d -> cross_section_digits (d ++ "sqmm") = d.
Proof.
  intros Hd. destruct (decimal_chars d Hd) as [Hc _].
  unfold cross_section_digits. apply (remove_absent "s" "qmm" d).
  revert Hc. apply all_chars_impl. intros c H.
  destruct (Ascii.eqb_spec "s" c) as [<-|_]; [discriminate H | reflexivity].
Qed.

End CrossSectionTexts.

(** X15.  Every cross section that [extract_cross_section] returns is a
    decimal number followed by "sqmm": it is its own normal form, [float]
    reads its numeric part, and two such values are compared by their
    numbers, never by the fallback for texts that are no numbers. *)
Theorem extracted_cross_sections_compare (text text' a b : string) :
  AttributeUtils.extract_cross_section text = Some a ->
  AttributeUtils.extract_cross_section text' = Some b ->
  normalize_value a = a /\ normalize_value b = b
  /\ exists x y : F64.t,
       py_float (cross_section_digits a) = Some x
       /\ py_float (cross_section_digits b) = Some y
       /\ _compare_attribute "cross_section" (PStr a) (PStr b)
          = if String.eqb a b then one
            else compare_numbers (f_lit 9 (-1)) x y.
Proof.
  intros Ha Hb.
  apply extract_cross_section_form in Ha as (da & Hda & ->).
  apply extract_cross_section_form in Hb as (db & Hdb & ->).
  assert (Na : normalize_value (da ++ "sqmm") = (da ++ "sqmm")%string)
    by (now apply normalize_decimal_unit).
  assert (Nb : normalize_value (db ++ "sqmm") = (db ++ "sqmm")%string)
    by (now apply normalize_decimal_unit).
  split; [exact Na|]. split; [exact Nb|].
  destruct (parse_decimal da Hda) as (ma & ea & Pa).
  destruct (parse_decimal db Hdb) as (mb & eb & Pb).
  exists (f_of_literal (LDec false ma ea)), (f_of_literal (LDec false mb eb)).
  rewrite !cross_section_digits_of by assumption.
  unfold py_float. rewrite Pa, Pb. cbn [option_map].
  split; [reflexivity|]. split; [reflexivity|].
  unfold _compare_attribute. cbn [normalize_pyval pyval_eqb].
  rewrite Na, Nb.
  destruct (String.eqb (da ++ "sqmm") (db ++ "sqmm")); [reflexivity|].
  cbn [String.eqb Ascii.eqb Bool.eqb].
  unfold _compare_cross_section, py_float.
  rewrite !cross_section_digits_of by assumption.
  now rewrite Pa, Pb.
Qed.

Lemma extracted_cross_sections_compare_witness :
  normalize_value "300sqmm" = "300sqmm"%string
  /\ normalize_value "2.5sqmm" = "2.5sqmm"%string.
Proof.
  destruct (extracted_cross_sections_compare
              "11kV 3C x 300 Sq mm Al XLPE" "Cable 2.5 mm2 Cu"
              "300sqmm" "2.5sqmm") as (Ha & Hb & _).
  - vm_compute. reflexivity.
  - vm_compute. reflexivity.
  - split; assumption.
Defined.

(** ** Quantities and units *)

Section Quantities.

Import Re.

Open Scope string_scope.

Lemma search_at (r : regex) (s : string) (caps : captures) :
  search r s = Some caps ->
  exists before s', s = before ++ s' /\ py_match r s' = Some caps.
Proof.
  induction s as [|c s IH]; cbn [search].
  - destruct (py_match r "") as [caps'|] eqn:E; [|discriminate].
    intros [= ->]. now exists "", "".
  - destruct (py_match r (String c s)) as [caps'|] eqn:E.
    + intros [= ->]. now exists "", (String c s).
    + intros H. apply IH in H as (before & s' & -> & M).
      now exists (String c before), s'.
Qed.

Lemma run_alt {A : Type} (r1 r2 : regex) (s : string) (caps : captures)
  (k : string -> captures -> option A) :
  run (Alt r1 r2) s caps k
  = match run r1 s caps k with
    | Some x => Some x
    | None => run r2 s caps k
    end.
Proof. reflexivity. Qed.

Lemma run_group {A : Type} (n : nat) (r : regex) (s : string)
  (caps : captures) (k : string -> captures -> option A) :
  run (Group n r) s caps k
  = run r s caps (fun s' caps' => k s' ((n, consumed s s') :: caps')).
Proof. reflexivity. Qed.

(** A literal at the start of the text is matched. *)
Lemma run_lit_complete {A : Type} (w rest : string) (caps : captures)
  (k : string -> captures -> option A) :
  run (Lit w) (w ++ rest) caps k = k rest caps.
Proof.
  induction w as [|c w IH]; [reflexivity|].
  cbn [Lit run Lit1 append]. rewrite Ascii.eqb_refl. exact IH.
Qed.

Lemma remove_comma_app (a b : string) :
  PyStr.remove "," (a ++ b) = PyStr.remove "," a ++ PyStr.remove "," b.
Proof.
  assert (P : forall s, prefix "" s = true) by (now intros [|? ?]).
  unfold PyStr.remove. induction a as [|c a IH]; [reflexivity|].
  cbn [append PyStr.remove_from prefix String.length pred].
  destruct (ascii_dec "," c); [now rewrite !P|].
  cbn [append]. now rewrite IH.
Qed.

Lemma remove_comma_digits (ds : string) :
  VectorDb.all_chars FloatSyntax.is_digit ds = true ->
  PyStr.remove "," ds = ds.
Proof.
  intros H. apply (remove_absent "," "" ds).
  revert H. apply all_chars_impl. intros c Hc.
  destruct (Ascii.eqb_spec "," c) as [<-|_]; [discriminate Hc | reflexivity].
Qed.

Lemma matches_thousands (t : string) (caps caps' : captures) :
  matches AttributeUtils.thousands t caps caps' ->
  exists ds, VectorDb.all_chars FloatSyntax.is_digit ds = true
             /\ t = String "," ds.
Proof.
  unfold AttributeUtils.thousands, digit. intros M.
  apply matches_seq_inv in M as (a & b & c1 & -> & Ma & M).
  apply matches_lit1 in Ma. subst a.
  apply matches_seq_inv in M as (d1 & b' & c2 & -> & M1 & M).
  apply matches_seq_inv in M as (d2 & d3 & c3 & -> & M2 & M3).
  apply matches_chr_inv in M1 as (x1 & -> & H1 & _).
  apply matches_chr_inv in M2 as (x2 & -> & H2 & _).
  apply matches_chr_inv in M3 as (x3 & -> & H3 & _).
  eexists. split; [|reflexivity]. cbn. now rewrite H1, H2, H3.
Qed.

Lemma matches_star_thousands (t : string) (caps caps' : captures) :
  matches (Star AttributeUtils.thousands) t caps caps' ->
  VectorDb.all_chars FloatSyntax.is_digit (PyStr.remove "," t) = true.
Proof.
  remember (Star AttributeUtils.thousands) as r eqn:Er. intros M.
  induction M; try discriminate; [reflexivity|].
  injection Er as ->. apply matches_thousands in M1 as (ds & Hds & ->).
  rewrite remove_comma_app, all_chars_app, (IHM2 eq_refl), andb_true_r.
  change (String "," ds) with ("," ++ ds). rewrite remove_comma_app.
  change (PyStr.remove "," ",") with "". cbn [append].
  now rewrite remove_comma_digits.
Qed.

(** The quantity without its commas is a decimal text. *)
Lemma matches_quantity (g : string) (caps caps' : captures) :
  matches AttributeUtils.quantity g caps caps' ->
  AttributeUtils.is_decimal (PyStr.remove "," g).
Proof.
  unfold AttributeUtils.quantity, Opt. intros M.
  apply matches_seq_inv in M as (ip & rest & c1 & -> & M1 & M).
  apply matches_seq_inv in M as (t & frac & c2 & -> & M2 & M3).
  apply matches_plus_chars in M1 as [Hip Hne].
  apply matches_star_thousands in M2.
  rewrite !remove_comma_app, (remove_comma_digits ip Hip).
  exists (ip ++ PyStr.remove "," t).
  split; [now rewrite all_chars_app, Hip, M2|].
  split; [destruct ip; [congruence | discriminate]|].
  apply matches_alt_inv in M3 as [M3|M3].
  - right. apply matches_seq_inv in M3 as (dot & fp & c3 & -> & M4 & M5).
    apply matches_lit1 in M4. subst dot.
    apply matches_plus_chars in M5 as [Hfp Hfne].
    exists fp. split; [exact Hfp|]. split; [exact Hfne|].
    change (String "." fp) with ("." ++ fp).
    rewrite remove_comma_app.
    change (PyStr.remove "," ".") with ".".
    rewrite (remove_comma_digits fp Hfp). now rewrite app_assoc_str.
  - left. apply matches_eps_inv in M3 as [-> _].
    change (PyStr.remove "," "") with "". now rewrite !app_nil_r_str.
Qed.

(** The unit captured by the first pattern: the alternatives "meters" and
    "metres" are never taken, since "m" is tried before them. *)
Lemma length_unit_captured (s : string) (caps0 caps : captures) :
  run (Group 2 AttributeUtils.length_units) s caps0 (fun _ c => Some c)
  = Some caps ->
  exists u, In u ["km"; "m"; "coils"; "drums"; "lengths"]
            /\ caps = (2%nat, u) :: caps0.
Proof.
  rewrite run_group. unfold AttributeUtils.length_units.
  rewrite !run_alt. cbv beta.
  set (k := fun (s' : string) (caps' : captures) =>
              @Some captures ((2%nat, consumed s s') :: caps')).
  assert (Hlit : forall w x, run (Lit w) s caps0 k = Some x ->
                             x = (2%nat, w) :: caps0).
  { intros w x H. apply run_sound in H as (s1 & s2 & c' & -> & M & Hk).
    pose proof (group_free_matches _ _ _ _ M) as G.
    apply matches_lit in M. subst s1. unfold k in Hk.
    rewrite consumed_app in Hk. injection Hk as <-.
    rewrite G; [reflexivity|]. clear. induction w; cbn; auto. }
  destruct (run (Lit "km") s caps0 k) as [x|] eqn:E1.
  { intros [= <-]. exists "km". split; [cbn; auto | now apply Hlit]. }
  destruct (run (Lit "m") s caps0 k) as [x|] eqn:E2.
  { intros [= <-]. exists "m". split; [cbn; auto | now apply Hlit]. }
  assert (Hm : forall rest, s <> "m" ++ rest).
  { intros rest ->. rewrite run_lit_complete in E2. discriminate E2. }
  destruct (run (Lit "meters") s caps0 k) as [x|] eqn:E3.
  { apply run_sound in E3 as (s1 & s2 & c' & -> & M & _).
    apply matches_lit in M. subst s1. now destruct (Hm ("eters" ++ s2)). }
  destruct (run (Lit "metres") s caps0 k) as [x|] eqn:E4.
  { apply run_sound in E4 as (s1 & s2 & c' & -> & M & _).
    apply matches_lit in M. subst s1. now destruct (Hm ("etres" ++ s2)). }
  destruct (run (Lit "coils") s caps0 k) as [x|] eqn:E5.
  { intros [= <-]. exists "coils". split; [cbn; auto 6 | now apply Hlit]. }
  destruct (run (Lit "drums") s caps0 k) as [x|] eqn:E6.
  { intros [= <-]. exists "drums". split; [cbn; auto 6 | now apply Hlit]. }
  intros H. exists "lengths". split; [cbn; auto 6 | now apply Hlit].
Qed.

Lemma matches_optional_s (w u : string) (caps caps' : captures) :
  matches (Seq (Lit w) (Opt (Lit1 "s"))) u caps caps' ->
  u = w \/ u = w ++ "s".
Proof.
  unfold Opt. intros M.
  apply matches_seq_inv in M as (a & b & c1 & -> & Ma & Mb).
  apply matches_lit in Ma. subst a.
  apply matches_alt_inv in Mb as [Mb|Mb].
  - apply matches_lit1 in Mb. subst b. now right.
  - apply matches_eps_inv in Mb as [-> _]. left. apply app_nil_r_str.
Qed.

Lemma count_unit_captured (s : string) (caps0 caps : captures) :
  run (Group 2 AttributeUtils.count_units) s caps0 (fun _ c => Some c)
  = Some caps ->
  exists u,
    In u ["no"; "nos"; "pc"; "pcs"; "piece"; "pieces"; "unit"; "units"]
    /\ caps = (2%nat, u) :: caps0.
Proof.
  intros H. apply run_sound in H as (u & s2 & c' & -> & M & Hk).
  injection Hk as <-.
  apply matches_group_inv in M as (c1 & M & ->).
  pose proof (group_free_matches _ _ _ _ M eq_refl) as ->.
  exists u. split; [|reflexivity].
  unfold AttributeUtils.count_units in M.
  assert (Hs : forall w,
             matches (Seq (Lit w) (Opt (Lit1 "s"))) u caps0 caps0 ->
             u = w \/ u = w ++ "s")
    by (intros w; apply matches_optional_s).
  apply matches_alt_inv in M as [M|M];
    [destruct (Hs _ M) as [E|E]; rewrite E; cbn; auto 10|].
  apply matches_alt_inv in M as [M|M];
    [destruct (Hs _ M) as [E|E]; rewrite E; cbn; auto 10|].
  apply matches_alt_inv in M as [M|M];
    destruct (Hs _ M) as [E|E]; rewrite E; cbn; auto 10.
Qed.

(** The groups of a match of one of the two patterns. *)
Lemma quantity_pattern_groups (units : regex) (s : string) (caps : captures) :
  py_match (Seq (Group 1 AttributeUtils.quantity)
                (Seq AttributeUtils.spaces (Group 2 units))) s = Some caps ->
  exists g s', matches AttributeUtils.quantity g [] []
               /\ run (Group 2 units) s' [(1%nat, g)] (fun _ c => Some c)
                  = Some caps.
Proof.
  unfold py_match. intros H.
  change (run (Group 1 AttributeUtils.quantity) s []
            (fun s1 c1 =>
               run AttributeUtils.spaces s1 c1
                 (fun s2 c2 => run (Group 2 units) s2 c2 (fun _ c => Some c)))
          = Some caps) in H.
  apply run_sound in H as (g & s1 & c1 & -> & M1 & H).
  apply matches_group_inv in M1 as (c0 & M1 & ->).
  pose proof (group_free_matches _ _ _ _ M1 eq_refl) as ->.
  apply run_sound in H as (w & s2 & c2 & -> & M2 & H).
  pose proof (group_free_matches _ _ _ _ M2 eq_refl) as ->.
  now exists g, s2.
Qed.

End Quantities.

(** X16.  [parse_quantity_and_unit] never fails, and it returns either no
    quantity and no unit, or both: a quantity that is a decimal number
    without commas, and one of the units km, m, coils, drums, lengths, no,
    nos, pc, pcs, piece, pieces, unit and units.  The units "meters" and
    "metres" of the first pattern are never returned: such a text gives
    "m". *)
Theorem parsed_quantity_and_unit (text : string) :
  exists q u,
    AttributeUtils.parse_quantity_and_unit text = Some (q, u)
    /\ ((q = None /\ u = None)
        \/ exists d unit,
             q = Some d /\ u = Some unit
             /\ AttributeUtils.is_decimal d
             /\ In unit AttributeUtils.returned_units).
Proof.
  unfold AttributeUtils.parse_quantity_and_unit.
  destruct (negb (PyStr.truthy text)); [exists None, None; auto|].
  destruct (AttributeUtils.first_search _ _) as [caps|] eqn:E;
    [|exists None, None; auto].
  apply first_search_in in E as (p & Hp & Hs).
  apply search_at in Hs as (before & s' & _ & Hm).
  cbn in Hp. destruct Hp as [<-|[<-|[]]];
    apply quantity_pattern_groups in Hm as (g & s2 & Mg & Hrun).
  - apply length_unit_captured in Hrun as (u & Hu & ->).
    cbn [Re.group Nat.eqb].
    exists (Some (PyStr.remove "," g)), (Some u). split; [reflexivity|].
    right. exists (PyStr.remove "," g), u. repeat split.
    + exact (matches_quantity g _ _ Mg).
    + cbn in Hu. cbn. tauto.
  - apply count_unit_captured in Hrun as (u & Hu & ->).
    cbn [Re.group Nat.eqb].
    exists (Some (PyStr.remove "," g)), (Some u). split; [reflexivity|].
    right. exists (PyStr.remove "," g), u. repeat split.
    + exact (matches_quantity g _ _ Mg).
    + cbn in Hu. cbn. tauto.
Qed.

(** ** The matcher misses no match *)

Section Completeness.

Import Re.

Open Scope string_scope.

Context {A : Type}.

(** For a pattern without groups: when the pattern matches the start of the
    text and the continuation accepts what is left, [run] returns a
    result. *)
Lemma run_complete (r : regex) :
  group_free r = true ->
  forall (s1 : string) (caps caps' : captures),
    matches r s1 caps caps' ->
    forall (rest : string) (k : string -> captures -> option A),
      (exists x, k rest caps = Some x) ->
      exists y, run r (s1 ++ rest) caps k = Some y.
Proof.
  induction r as [|p|r1 IH1 r2 IH2|r1 IH1 r2 IH2|r1 IH1|n r1 IH1];
    cbn [group_free]; intros G s1 caps caps' M rest k Hk.
  - apply matches_eps_inv in M as [-> _]. exact Hk.
  - apply matches_chr_inv in M as (c & -> & Hc & _). cbn. now rewrite Hc.
  - apply andb_true_iff in G as [G1 G2].
    apply matches_seq_inv in M as (a & b & caps1 & -> & M1 & M2).
    pose proof (group_free_matches _ _ _ _ M1 G1) as ->.
    rewrite app_assoc_str. cbn [run].
    apply (IH1 G1 a caps caps M1). now apply (IH2 G2 b caps caps').
  - apply andb_true_iff in G as [G1 G2]. cbn [run].
    destruct (run r1 (s1 ++ rest) caps k) as [y|] eqn:E; [now exists y|].
    apply matches_alt_inv in M as [M|M].
    + destruct (IH1 G1 s1 caps caps' M rest k Hk) as [y Hy]. congruence.
    + exact (IH2 G2 s1 caps caps' M rest k Hk).
  - cbn [run].
    assert (Hloop : forall s1 caps1 caps2,
      matches (Star r1) s1 caps1 caps2 -> caps1 = caps ->
      forall fuel, (String.length s1 <= fuel)%nat ->
      exists y,
        (fix loop (fuel : nat) (s : string) (caps : captures) {struct fuel}
           : option A :=
           match fuel with
           | O => k s caps
           | S fuel' =>
               match
                 run r1 s caps
                   (fun s' caps' =>
                      if (String.length s' <? String.length s)%nat
                      then loop fuel' s' caps' else None)
               with
               | Some x => Some x
               | None => k s caps
               end
           end) fuel (s1 ++ rest) caps = Some y).
    { clear s1 caps' M. intros s1 caps1 caps2 M.
      remember (Star r1) as r eqn:Er.
      induction M as [| | | | |r0 c0|r0 a b c0 c1 c2 Ma _ Mb IHb|];
        try discriminate; intros -> fuel Hfuel.
      - destruct fuel as [|fuel]; [exact Hk|].
        match goal with
        | |- exists y, match ?t with _ => _ end = _ => destruct t as [y|]
        end; [now exists y | exact Hk].
      - injection Er as ->.
        pose proof (group_free_matches _ _ _ _ Ma G) as ->.
        destruct a as [|ch a].
        { cbn [append]. apply (IHb eq_refl eq_refl). exact Hfuel. }
        rewrite length_app_str in Hfuel. cbn [String.length] in Hfuel.
        destruct fuel as [|fuel]; [lia|].
        rewrite app_assoc_str.
        match goal with
        | |- exists y, match run r1 ?s ?c ?K with _ => _ end = _ =>
            destruct (IH1 G (String ch a) caps caps Ma (b ++ rest) K) as [y Hy]
        end.
        + assert (L : (String.length (b ++ rest)
                       <? String.length (String ch a ++ b ++ rest))%nat = true).
          { apply Nat.ltb_lt. cbn [append String.length].
            rewrite !length_app_str. lia. }
          rewrite L. apply (IHb eq_refl eq_refl). lia.
        + rewrite Hy. now exists y. }
    apply (Hloop s1 caps caps' M eq_refl). rewrite length_app_str. lia.
  - discriminate G.
Qed.

End Completeness.

(** ** Validation *)

Section Validation.

Import Re.

Open Scope string_scope.

Lemma chars_match_star (p : ascii -> bool) (s : string) (caps : captures) :
  VectorDb.all_chars p s = true -> matches (Star (Chr p)) s caps caps.
Proof.
  induction s as [|c s IH]; cbn; intros H; [constructor|].
  apply andb_true_iff in H as [Hc Hs].
  change (String c s) with (String c "" ++ s).
  econstructor; [now constructor | now apply IH].
Qed.

Lemma chars_match_plus (p : ascii -> bool) (s : string) (caps : captures) :
  VectorDb.all_chars p s = true -> s <> "" ->
  matches (Plus (Chr p)) s caps caps.
Proof.
  intros H Hne. destruct s as [|c s]; [congruence|]. cbn in H.
  apply andb_true_iff in H as [Hc Hs].
  change (String c s) with (String c "" ++ s). unfold Plus.
  econstructor; [now constructor | now apply chars_match_star].
Qed.

Lemma lit_matches (w : string) (caps : captures) : matches (Lit w) w caps caps.
Proof.
  induction w as [|c w IH]; cbn [Lit]; [constructor|].
  change (String c w) with (String c "" ++ w).
  econstructor; [|exact IH]. constructor. apply Ascii.eqb_refl.
Qed.

Lemma decimal_matches_number (d : string) (caps : captures) :
  AttributeUtils.is_decimal d -> matches number d caps caps.
Proof.
  intros (ip & Hip & Hne & Hd). unfold number, Opt.
  destruct Hd as [->|(fp & Hfp & Hfne & ->)].
  - rewrite <- (app_nil_r_str ip).
    econstructor; [now apply chars_match_plus|].
    apply MAltR. constructor.
  - econstructor; [now apply chars_match_plus|].
    apply MAltL. change (String "." fp) with (String "." "" ++ fp).
    econstructor; [|now apply chars_match_plus].
    constructor. reflexivity.
Qed.

(** The voltages that [re.match] accepts. *)
Lemma voltage_format_accepts (s : string) :
  py_match AttributeUtils.voltage_format s <> None
  <-> AttributeUtils.well_formed_voltage s.
Proof.
  unfold py_match, AttributeUtils.well_formed_voltage. split.
  - destruct (run _ s [] _) as [caps|] eqn:E; [intros _ | congruence].
    apply run_sound in E as (s1 & rest & caps' & -> & M & _).
    unfold AttributeUtils.voltage_format in M.
    apply matches_seq_inv in M as (d & unit & c1 & -> & Md & Mu).
    apply matches_number in Md.
    exists d, unit, rest. split; [exact Md|].
    split; [|apply app_assoc_str].
    apply matches_alt_inv in Mu as [Mu|Mu]; apply matches_lit in Mu; auto.
  - intros (d & unit & rest & Hd & Hu & ->).
    rewrite <- app_assoc_str.
    assert (M : matches AttributeUtils.voltage_format (d ++ unit) [] []).
    { unfold AttributeUtils.voltage_format.
      econstructor; [now apply decimal_matches_number|].
      destruct Hu as [E|E]; rewrite E;
        [apply MAltL | apply MAltR]; apply lit_matches. }
    destruct (@run_complete captures AttributeUtils.voltage_format eq_refl
                (d ++ unit) [] [] M rest
                (fun (_ : string) (caps : captures) => Some caps))
      as [y Hy]; [now exists [] |].
    rewrite Hy. discriminate.
Qed.

Lemma lower_app (a b : string) :
  PyStr.lower (a ++ b) = PyStr.lower a ++ PyStr.lower b.
Proof. induction a as [|c a IH]; cbn; [reflexivity | now rewrite IH]. Qed.

Lemma contains_absent (o : ascii) (w s : string) :
  VectorDb.all_chars (fun c => negb (Ascii.eqb o c)) s = true ->
  AttributeUtils.contains (String o w) s = false.
Proof.
  induction s as [|c s IH]; cbn; [reflexivity|].
  intros H. apply andb_true_iff in H as [Hc Hs]. rewrite (IH Hs).
  destruct (ascii_dec o c) as [<-|_]; [|reflexivity].
  now rewrite Ascii.eqb_refl in Hc.
Qed.

Lemma uint_text_chars (d : Decimal.uint) :
  VectorDb.all_chars (fun c => negb (Ascii.eqb "c" c))
    (NilEmpty.string_of_uint d) = true.
Proof. induction d; cbn; auto. Qed.

Lemma int_text_plain (n : Z) :
  AttributeUtils.names_critical ("Invalid core count: " ++ py_str (PInt n))
  = false.
Proof.
  unfold AttributeUtils.names_critical. rewrite lower_app.
  assert (H : VectorDb.all_chars (fun c => negb (Ascii.eqb "c" c))
                (PyStr.lower (py_str (PInt n))) = true).
  { assert (L : forall s,
      VectorDb.all_chars (fun c => negb (Ascii.eqb "c" c)) s = true ->
      VectorDb.all_chars (fun c => negb (PyStr.is_upper c)) s = true ->
      VectorDb.all_chars (fun c => negb (Ascii.eqb "c" c)) (PyStr.lower s)
      = true)
      by (intros s H1 H2; now rewrite (lower_plain s H2)).
    cbn [py_str]. unfold NilZero.string_of_int, NilZero.string_of_uint.
    assert (U : forall d,
      VectorDb.all_chars (fun c => negb (PyStr.is_upper c))
        (NilEmpty.string_of_uint d) = true) by (induction d; cbn; auto).
    destruct (Z.to_int n) as [d|d]; destruct d; cbn [VectorDb.all_chars];
      try reflexivity; apply L; cbn; auto using uint_text_chars. }
  cbn. now apply contains_absent.
Qed.

Lemma voltage_issue_critical (v : string) :
  AttributeUtils.names_critical ("Invalid voltage format: " ++ v)
  = AttributeUtils.names_critical v.
Proof. unfold AttributeUtils.names_critical. rewrite lower_app. reflexivity. Qed.

Lemma dict_fields (a : ExtractedAttributes) :
  dict_get "voltage" (to_normalized_dict a) = option_map PStr (voltage a)
  /\ dict_get "conductor_material" (to_normalized_dict a)
     = option_map PStr (conductor_material a)
  /\ dict_get "cross_section" (to_normalized_dict a)
     = option_map PStr (cross_section a)
  /\ dict_get "core_count" (to_normalized_dict a)
     = option_map PInt (core_count a).
Proof.
  destruct a as [[v|] [cm|] [cs|] [cc|] [i|] [ar|] [sh|]]; repeat split.
Qed.

End Validation.

Section ValidatedRecords.

Import Re.

Open Scope string_scope.
Open Scope list_scope.

Variable a : ExtractedAttributes.

Lemma lacks_fields :
  AttributeUtils.lacks "voltage" (to_normalized_dict a)
  = AttributeUtils.lacking (voltage a)
  /\ AttributeUtils.lacks "conductor_material" (to_normalized_dict a)
     = AttributeUtils.lacking (conductor_material a)
  /\ AttributeUtils.lacks "cross_section" (to_normalized_dict a)
     = AttributeUtils.lacking (cross_section a)
  /\ AttributeUtils.lacks "core_count" (to_normalized_dict a)
     = match core_count a with
       | Some n => Z.eqb n 0
       | None => true
       end.
Proof.
  unfold AttributeUtils.lacks.
  destruct (dict_fields a) as (-> & -> & -> & ->).
  destruct (voltage a), (conductor_material a), (cross_section a),
    (core_count a); cbn; rewrite ?negb_involutive; repeat split.
Qed.

Lemma missing_critical_fields :
  AttributeUtils.missing_critical (to_normalized_dict a)
  = (if AttributeUtils.lacking (voltage a)
     then ["Missing critical attribute: voltage"%string] else [])
    ++ (if AttributeUtils.lacking (conductor_material a)
        then ["Missing critical attribute: conductor_material"%string] else [])
    ++ (if AttributeUtils.lacking (cross_section a)
        then ["Missing critical attribute: cross_section"%string] else []).
Proof.
  unfold AttributeUtils.missing_critical, AttributeUtils.critical_attrs.
  cbn [flat_map]. destruct lacks_fields as (-> & -> & -> & _).
  now rewrite app_nil_r.
Qed.

Lemma voltage_issues_fields :
  AttributeUtils.voltage_issues (to_normalized_dict a)
  = Some (match voltage a with
          | Some v =>
              if PyStr.truthy v then
                match py_match AttributeUtils.voltage_format v with
                | Some _ => []
                | None => [("Invalid voltage format: " ++ v)%string]
                end
              else []
          | None => []
          end).
Proof.
  unfold AttributeUtils.voltage_issues.
  destruct lacks_fields as (-> & _). destruct (dict_fields a) as (-> & _).
  destruct (voltage a) as [v|]; cbn [AttributeUtils.lacking option_map];
    [|reflexivity].
  destruct (PyStr.truthy v); cbn [negb]; [|reflexivity].
  now destruct (py_match AttributeUtils.voltage_format v).
Qed.

Lemma core_count_issues_fields :
  AttributeUtils.core_count_issues (to_normalized_dict a)
  = match core_count a with
    | Some n =>
        if (Z.eqb n 0 || Z.leb 1 n)%bool then []
        else [("Invalid core count: " ++ py_str (PInt n))%string]
    | None => []
    end.
Proof.
  unfold AttributeUtils.core_count_issues.
  destruct lacks_fields as (_ & _ & _ & ->).
  destruct (dict_fields a) as (_ & _ & _ & ->).
  destruct (core_count a) as [n|]; cbn [option_map]; [|reflexivity].
  destruct (Z.eqb_spec n 0) as [->|Hn]; [reflexivity|]. cbn [orb].
  destruct (Z.ltb_spec n 1), (Z.leb_spec 1 n); try lia; reflexivity.
Qed.

End ValidatedRecords.

(** X17.  [validate_attributes] on the dictionary of an attribute record never
    raises; the record is invalid whenever voltage, conductor material or
    cross section is missing or empty; with all three present it is valid
    unless the voltage text itself contains the word "critical", so that a
    malformed voltage or a bad core count is reported but does not
    invalidate; and no issue at all is reported exactly when the three are
    present, the voltage starts with a decimal number followed by "kv" or
    "v", and the core count is absent, 0, or at least 1. *)
Theorem validated_record (a : ExtractedAttributes) :
  exists (is_valid : bool) (issues : list string),
    AttributeUtils.validate_attributes (to_normalized_dict a)
    = Some (is_valid, issues)
    /\ (AttributeUtils.lacks_critical a = true -> is_valid = false)
    /\ (AttributeUtils.lacks_critical a = false ->
        (forall v, voltage a = Some v ->
                   AttributeUtils.names_critical v = false) ->
        is_valid = true)
    /\ (issues = []
        <-> AttributeUtils.lacks_critical a = false
            /\ (exists v, voltage a = Some v
                          /\ AttributeUtils.well_formed_voltage v)
            /\ AttributeUtils.core_count_accepted (core_count a) = true).
Proof.
  unfold AttributeUtils.validate_attributes.
  rewrite voltage_issues_fields, missing_critical_fields,
    core_count_issues_fields.
  eexists _, _. split; [reflexivity|].
  fold AttributeUtils.names_critical.
  unfold AttributeUtils.lacks_critical, AttributeUtils.core_count_accepted.
  set (V := match voltage a with
            | Some v =>
                if PyStr.truthy v then
                  match Re.py_match AttributeUtils.voltage_format v with
                  | Some _ => []
                  | None => [("Invalid voltage format: " ++ v)%string]
                  end
                else []
            | None => []
            end).
  set (C := match core_count a with
            | Some n =>
                if (Z.eqb n 0 || Z.leb 1 n)%bool then []
                else [("Invalid core count: " ++ py_str (PInt n))%string]
            | None => []
            end).
  assert (HC : filter AttributeUtils.names_critical C = []).
  { unfold C. destruct (core_count a) as [n|]; [|reflexivity].
    destruct (Z.eqb n 0 || Z.leb 1 n)%bool; [reflexivity|].
    cbn [filter]. now rewrite int_text_plain. }
  split; [|split].
  - intros L. apply orb_true_iff in L as [L|L];
      [apply orb_true_iff in L as [L|L]|]; rewrite L;
      repeat match goal with
             | |- context [if ?b then _ else _] => destruct b
             end; reflexivity.
  - intros L HV. apply orb_false_iff in L as [L L3].
    apply orb_false_iff in L as [L1 L2]. rewrite L1, L2, L3.
    cbn [app]. apply orb_true_iff. right. apply Nat.eqb_eq.
    rewrite filter_app, HC, app_nil_r.
    unfold V. destruct (voltage a) as [v|]; [|reflexivity].
    destruct (PyStr.truthy v); [|reflexivity].
    destruct (Re.py_match _ v); [reflexivity|].
    cbn [filter]. rewrite voltage_issue_critical, (HV v eq_refl). reflexivity.
  - assert (HVnil : AttributeUtils.lacking (voltage a) = false ->
                    (V = [] <-> exists v, voltage a = Some v
                                /\ AttributeUtils.well_formed_voltage v)).
    { unfold V. destruct (voltage a) as [v|]; [|discriminate].
      cbn [AttributeUtils.lacking]. intros T. apply negb_false_iff in T.
      rewrite T. pose proof (voltage_format_accepts v) as W.
      destruct (Re.py_match _ v); split.
      - intros _. exists v. split; [reflexivity|]. apply W. discriminate.
      - reflexivity.
      - discriminate.
      - intros (v' & Ev & H). injection Ev as <-. apply W in H. congruence. }
    assert (HCnil : C = [] <-> match core_count a with
                               | Some n => (Z.eqb n 0 || Z.leb 1 n)%bool
                               | None => true
                               end = true).
    { unfold C. destruct (core_count a) as [n|]; [|tauto].
      destruct (Z.eqb n 0 || Z.leb 1 n)%bool; split; congruence. }
    destruct (AttributeUtils.lacking (voltage a)) eqn:L1.
    { cbn. split; [discriminate | intros [? _]; discriminate]. }
    destruct (AttributeUtils.lacking (conductor_material a)) eqn:L2.
    { cbn. split; [discriminate | intros [? _]; discriminate]. }
    destruct (AttributeUtils.lacking (cross_section a)) eqn:L3.
    { cbn. split; [discriminate | intros [? _]; discriminate]. }
    cbn [app orb]. rewrite <- (HVnil eq_refl), <- HCnil. split.
    + intros E. apply app_eq_nil in E. tauto.
    + intros (_ & -> & ->). reflexivity.
Qed.

Lemma validated_record_witness :
  AttributeUtils.validate_attributes (to_normalized_dict Sample.cable)
  = Some (true, []).
Proof.
  destruct (validated_record Sample.cable)
    as (is_valid & issues & E & _ & Hvalid & Hnone).
  rewrite E. f_equal. f_equal.
  - apply Hvalid; [reflexivity|]. intros v [= <-]. reflexivity.
  - apply Hnone. split; [reflexivity|]. split; [|reflexivity].
    exists "11kv"%string. split; [reflexivity|].
    exists "11"%string, "kv"%string, ""%string.
    split; [|split; [now left | reflexivity]].
    exists "11"%string. split; [reflexivity|].
    split; [discriminate | now left].
Defined.

(** ** Words found in a text *)

Section WordsFound.

Open Scope string_scope.

Lemma first_type_in (types : list (string * list string)) (text v : string) :
  Words.first_type types text = Some v -> In v (map fst types).
Proof.
  induction types as [|[n vs] types IH]; cbn; [discriminate|].
  destruct (Words.any_in vs text); [intros [= <-]; now left|].
  intros H. right. now apply IH.
Qed.

Lemma plain_credit (attr v v' : string) :
  normalize_value v = v -> normalize_value v' = v' ->
  String.eqb attr "voltage" = false ->
  String.eqb attr "cross_section" = false ->
  @_compare_attribute F64.t _ attr (PStr v) (PStr v')
  = if String.eqb v v' then one else zero.
Proof.
  intros Hv Hv' H1 H2. unfold _compare_attribute.
  cbn [normalize_pyval pyval_eqb]. rewrite Hv, Hv', H1, H2.
  destruct (String.eqb v v'); [reflexivity|].
  now destruct (String.eqb attr "core_count").
Qed.

End WordsFound.

(** X18.  The extractors that look for words return normal forms: whatever
    [extract_conductor_material], [extract_insulation] and
    [extract_armouring] return is one of their fixed names and is left
    unchanged by [normalize_value], so that two extracted values of such an
    attribute get the credit 1 when they are equal and 0 otherwise. *)
Theorem extracted_words_canonical (text v : string) :
  (Words.extract_conductor_material text = Some v ->
   In v ["al"; "cu"]%string)
  /\ (Words.extract_insulation text = Some v ->
      In v ["xlpe"; "pvc"; "epr"; "rubber"]%string)
  /\ (Words.extract_armouring text = Some v ->
      In v ["unarmoured"; "gi_strip"; "gi_wire"; "swa"; "sta"]%string)
  /\ (Words.extract_conductor_material text = Some v
      \/ Words.extract_insulation text = Some v
      \/ Words.extract_armouring text = Some v ->
      normalize_value v = v
      /\ forall (attr text' v' : string),
           Words.extract_conductor_material text' = Some v'
           \/ Words.extract_insulation text' = Some v'
           \/ Words.extract_armouring text' = Some v' ->
           String.eqb attr "voltage" = false ->
           String.eqb attr "cross_section" = false ->
           @_compare_attribute F64.t _ attr (PStr v) (PStr v')
           = if String.eqb v v' then one else zero).
Proof.
  assert (Hc : forall t x, Words.extract_conductor_material t = Some x ->
                           In x ["al"; "cu"]%string).
  { intros t x. unfold Words.extract_conductor_material.
    destruct (negb (PyStr.truthy t)); [discriminate|]. cbv zeta.
    destruct (Words.any_in _ _); [intros [= <-]; cbn; auto|].
    destruct (Words.any_in _ _); [intros [= <-]; cbn; auto | discriminate]. }
  assert (Hi : forall t x, Words.extract_insulation t = Some x ->
                           In x ["xlpe"; "pvc"; "epr"; "rubber"]%string).
  { intros t x. unfold Words.extract_insulation.
    destruct (negb (PyStr.truthy t)); [discriminate|].
    intros H. exact (first_type_in _ _ _ H). }
  assert (Ha : forall t x, Words.extract_armouring t = Some x ->
    In x ["unarmoured"; "gi_strip"; "gi_wire"; "swa"; "sta"]%string).
  { intros t x. unfold Words.extract_armouring.
    destruct (negb (PyStr.truthy t)); [discriminate|]. cbv zeta.
    destruct (_ || _ || _)%bool; [intros [= <-]; now left|].
    intros H. right. exact (first_type_in _ _ _ H). }
  assert (Hn : forall t x,
    Words.extract_conductor_material t = Some x
    \/ Words.extract_insulation t = Some x
    \/ Words.extract_armouring t = Some x -> normalize_value x = x).
  { intros t x [H|[H|H]];
      [apply Hc in H | apply Hi in H | apply Ha in H]; cbn in H;
      repeat (destruct H as [<-|H]; [vm_compute; reflexivity|]);
      destruct H. }
  split; [apply Hc|]. split; [apply Hi|]. split; [apply Ha|].
  intros H. split; [exact (Hn _ _ H)|].
  intros attr text' v' H' H1 H2.
  apply plain_credit; eauto.
Qed.

Lemma extracted_words_canonical_witness :
  normalize_value "xlpe" = "xlpe"%string.
Proof.
  destruct (extracted_words_canonical "11kV 3C XLPE cable" "xlpe")
    as (_ & _ & _ & H).
  apply H. right. left. vm_compute. reflexivity.
Defined.

(** ** Weights under unknown names *)

Section UnknownNames.

Open Scope string_scope.
Open Scope list_scope.

Lemma dict_get_absent {V : Type} (k : string) (d : list (string * V)) :
  ~ In k (map fst d) -> dict_get k d = None.
Proof.
  induction d as [|[k' v] d IH]; cbn; [reflexivity|].
  intros H. destruct (String.eqb_spec k k') as [->|_]; [tauto|].
  apply IH. tauto.
Qed.

Lemma dict_keys_are_fields (a : ExtractedAttributes) :
  incl (map fst (to_normalized_dict a)) field_names.
Proof.
  unfold to_normalized_dict, field_names. rewrite !map_app.
  repeat apply incl_app;
    match goal with
    | |- incl (map fst (field _ ?v)) _ =>
        destruct v; cbn; intros x Hx; [|destruct Hx];
        destruct Hx as [<-|[]]; cbn; tauto
    end.
Qed.

Lemma dict_get_unknown (a : ExtractedAttributes) (attr : string) :
  ~ In attr field_names -> dict_get attr (to_normalized_dict a) = None.
Proof.
  intros H. apply dict_get_absent. intros Hin.
  apply H. exact (dict_keys_are_fields a attr Hin).
Qed.

Lemma score_loop_unspecified {F : Type} `{PyFloat F}
  (w : list (string * F)) (d d' : list (string * pyval)) (t : @Tally F) :
  (forall kv, In kv w -> dict_get (fst kv) d = None) ->
  score_loop w d d' t
  = {| score := fold_left f_add (map snd w) (score t); matched := matched t;
       mismatched := mismatched t; missing := missing t |}.
Proof.
  revert t. unfold score_loop.
  induction w as [|[attr weight] w IH]; intros t Hw.
  - destruct t; reflexivity.
  - cbn [fold_left map snd].
    rewrite IH by (intros kv Hkv; apply Hw; now right).
    pose proof (Hw (attr, weight) (or_introl eq_refl)) as E. cbn [fst] in E.
    unfold score_step. rewrite E. reflexivity.
Qed.

End UnknownNames.

(** X19.  A weight whose name is not a field of the attribute records is
    earned by every product: when all the weights of an engine carry such
    names, every product gets the same score against every requirement, the
    sum of the weights as a percentage, and nothing is listed. *)
Theorem unknown_weight_names_always_earn (e : @SpecMatchEngine F64.t)
  (rfp oem : ExtractedAttributes) :
  (forall kv, In kv (weights e) -> ~ In (fst kv) field_names) ->
  calculate_match_score e rfp oem
  = (percentage (py_sum (map snd (weights e))), [], [], []).
Proof.
  intros Hw. unfold calculate_match_score.
  rewrite score_loop_unspecified
    by (intros kv Hkv; apply dict_get_unknown; now apply Hw).
  reflexivity.
Qed.

Lemma unknown_weight_names_always_earn_witness :
  calculate_match_score misnamed_engine Sample.cable no_attributes
  = (F64.lit 100 0, [], [], []).
Proof.
  rewrite (unknown_weight_names_always_earn misnamed_engine).
  - vm_compute. reflexivity.
  - intros kv [<-|[]]. cbn. intuition discriminate.
Defined.

(** ** Shape of the embeddings *)

Section EmbeddingShape.

Import VectorDb Lra.

Open Scope list_scope.
Open Scope R_scope.

Lemma tokenize_lower (text : string) :
  _tokenize (PyStr.lower text) = _tokenize text.
Proof. unfold _tokenize. now rewrite lower_idem. Qed.

Lemma embed_lower (e : SimpleEmbedder) (text : string) :
  embed e (PyStr.lower text) = embed e text.
Proof. unfold embed, raw_vector. now rewrite tokenize_lower. Qed.

End EmbeddingShape.

(** X20.  On a database built from a catalog, one embedding is stored for
    each product, every stored embedding has [EMBEDDING_DIMENSION] = 384
    entries, and every query text has an embedding, of the same 384 entries,
    which does not depend on the letter case of the text. *)
Theorem embeddings_have_the_dimension (set_iter : list string -> list string)
  (faiss : bool) (catalog : list VectorDb.OEMProduct)
  (db : VectorDb.VectorDatabase) :
  VectorDb.initialize_from_products set_iter faiss VectorDb.new_database
    catalog = VectorDb.Ok db ->
  (exists embs,
      (if faiss then VectorDb.index db else VectorDb.embeddings db) = Some embs
      /\ length embs = length catalog
      /\ Forall (fun v => length v = 384%nat) embs)
  /\ forall query,
       exists q,
         VectorDb.embed (VectorDb.embedder db) query = VectorDb.Ok q
         /\ length q = 384%nat
         /\ VectorDb.embed (VectorDb.embedder db) (PyStr.lower query)
            = VectorDb.Ok q.
Proof.
  intros Hinit.
  assert (Hne : catalog <> []) by (intros ->; discriminate Hinit).
  destruct (initialize_succeeds set_iter faiss catalog Hne)
    as (embs & Hbatch & Hlen & Hinit').
  rewrite Hinit' in Hinit. injection Hinit as <-.
  cbn [VectorDb.index VectorDb.embeddings VectorDb.embedder].
  set (e := VectorDb.fit set_iter
              (VectorDb.new_embedder Config.EMBEDDING_DIMENSION)
              (map VectorDb.datasheet_text catalog)) in *.
  pose proof (fit_well_indexed set_iter Config.EMBEDDING_DIMENSION
                (map VectorDb.datasheet_text catalog)) as Hwi.
  fold e in Hwi.
  split.
  - exists embs. split; [now destruct faiss|]. split; [exact Hlen|].
    destruct (embed_batch_shape e _ embs Hwi eq_refl Hbatch) as [_ Hshape].
    revert Hshape. apply Forall_impl. intros v (raw & Hl & ->).
    now rewrite normalize_length, Hl.
  - intros query.
    destruct (embed_fitted e query Hwi eq_refl) as (raw & _ & Hl & Hq).
    exists (VectorDb.normalize raw). split; [exact Hq|].
    split; [now rewrite normalize_length, Hl|].
    now rewrite embed_lower.
Qed.

Lemma embeddings_have_the_dimension_witness :
  exists q,
    VectorDb.embed
      (VectorDb.fit VectorDb.first_occurrences
         (VectorDb.new_embedder Config.EMBEDDING_DIMENSION)
         (map VectorDb.datasheet_text VectorDb.three_items))
      "XLPE Copper" = VectorDb.Ok q
    /\ length q = 384%nat.
Proof.
  destruct (embeddings_have_the_dimension VectorDb.first_occurrences false
              VectorDb.three_items _ three_items_built) as [_ H].
  destruct (H "XLPE Copper"%string) as (q & Hq & Hl & _).
  exists q. split; [exact Hq | exact Hl].
Defined.

(** ** Sign of the idf *)

Section IdfSign.

Import VectorDb Lra.

Open Scope R_scope.

Lemma document_count_le (w : string) (texts : list string) :
  (document_count w texts <= length texts)%nat.
Proof. unfold document_count. apply filter_length_le. Qed.

Lemma ln_sign (x : R) :
  0 < x ->
  (ln x < 0 <-> x < 1) /\ (ln x = 0 <-> x = 1) /\ (0 < ln x <-> 1 < x).
Proof.
  intros Hx. rewrite <- ln_1.
  split; [|split]; split; intros H.
  - apply ln_lt_inv; auto; lra.
  - apply ln_increasing; auto.
  - apply ln_inv; auto; lra.
  - now rewrite H.
  - apply ln_lt_inv; auto; lra.
  - apply ln_increasing; auto; lra.
Qed.

Lemma ratio_sign (N n : nat) :
  let x := INR N / INR (n + 1) in
  (1 <= N)%nat ->
  0 < x
  /\ (x < 1 <-> (N < n + 1)%nat) /\ (x = 1 <-> N = (n + 1)%nat)
  /\ (1 < x <-> (n + 1 < N)%nat).
Proof.
  intros x HN. unfold x.
  assert (Hd : 0 < INR (n + 1)) by (apply lt_0_INR; lia).
  assert (Hn : 0 < INR N) by (apply lt_0_INR; lia).
  assert (Hinv : 0 < / INR (n + 1)) by now apply Rinv_0_lt_compat.
  assert (E : INR N / INR (n + 1) * INR (n + 1) = INR N) by (field; lra).
  split; [unfold Rdiv; nra|].
  split; [|split]; split; intros H.
  - apply INR_lt. nra.
  - apply lt_INR in H. apply (Rmult_lt_reg_r (INR (n + 1))); [exact Hd|].
    rewrite E. lra.
  - apply INR_eq. nra.
  - rewrite H. field. lra.
  - apply INR_lt. nra.
  - apply lt_INR in H. apply (Rmult_lt_reg_r (INR (n + 1))); [exact Hd|].
    rewrite E. lra.
Qed.

End IdfSign.

(** X21.  When the iteration over a set visits each of its words once, the
    idf that [fit] gives to a word of the corpus is positive only if at
    least two texts lack the word: it is negative for a word that occurs in
    every text, zero for a word that occurs in all texts but one, and
    positive otherwise. *)
Theorem idf_sign (set_iter : list string -> list string)
  (e : VectorDb.SimpleEmbedder) (texts : list string) (w : string) :
  visits_each_once set_iter ->
  (1 <= document_count w texts)%nat ->
  let idf := VectorDb.idf_get (VectorDb.fit set_iter e texts) w in
  let n := document_count w texts in
  (n <= length texts)%nat
  /\ ((idf < 0)%R <-> n = length texts)
  /\ (idf = 0%R <-> (n + 1)%nat = length texts)
  /\ ((0 < idf)%R <-> (n + 1 < length texts)%nat).
Proof.
  intros Hset Hn idf n.
  pose proof (document_count_le w texts) as Hle. fold n in Hle, Hn.
  split; [exact Hle|].
  pose proof (idf_of_fit set_iter e texts w Hset) as Hidf.
  fold idf in Hidf. fold n in Hidf.
  destruct n as [|m] eqn:En; [lia|]. rewrite <- En in *.
  assert (E : idf = ln (INR (length texts) / INR (n + 1)))
    by (rewrite Hidf, En; reflexivity).
  destruct (ratio_sign (length texts) n ltac:(lia)) as (Hpos & R1 & R2 & R3).
  destruct (ln_sign _ Hpos) as (L1 & L2 & L3).
  rewrite E. rewrite L1, L2, L3, R1, R2, R3. repeat split; lia.
Qed.

Lemma idf_sign_witness :
  VectorDb.idf_get
    (VectorDb.fit VectorDb.first_occurrences (VectorDb.new_embedder 4)
       ["XLPE cable"; "copper cable"]) "xlpe" = 0%R.
Proof.
  apply (idf_sign VectorDb.first_occurrences (VectorDb.new_embedder 4)
           ["XLPE cable"; "copper cable"] "xlpe" first_occurrences_visits).
  - vm_compute. lia.
  - reflexivity.
Defined.
